(** * Outcome engine and settlement protocol of the casino games

  A shallow embedding of the token ledger ([src/lib/tokens.ts]) and of the
  game components (Dice, Crash, Mines, Blackjack, Plinko) that settle their
  rounds through it, together with the properties the specification states
  about them.

  Modelling conventions.
  - A JavaScript [number] is an exact rational ([Q]); numeric results are
    compared with [==].  [toFixed] is decimal rounding of the magnitude,
    half away from zero, as in ECMAScript.  The ball physics of Plinko,
    with its square roots and angles, is carried to 9 decimals.  The
    multiplier of Mines, a quotient that meets the ties of [toFixed], is
    computed in IEEE 754 double precision ([Binary64]).
  - [Math.random()] is an explicit argument of the function that draws it.
  - An async function is a state transformer over the remote store and the
    module-level balance cache that either returns a value or throws.  In
    the components a handler runs to completion before the next one
    starts; [CrashAsync] follows the awaits of the Crash cash-out, where
    handlers overlap.
  - A React handler reads the props and state captured by the render that
    created it (its snapshot) and issues updates to the live component. *)

From Stdlib Require Import ZArith QArith Qround Qabs Qminmax Qreduction Lia Lqa.
From Stdlib Require Import List.
From Stdlib Require SpecFloat.
From stdpp Require Import gmap strings.
Import ListNotations.

Local Open Scope Q_scope.

(** ** JavaScript numbers *)

Module JS.

Definition leb (x y : Q) : bool := Qle_bool x y.
Definition ltb (x y : Q) : bool := negb (Qle_bool y x).
Definition gtb (x y : Q) : bool := ltb y x.
Definition geb (x y : Q) : bool := leb y x.
Definition eqb (x y : Q) : bool := Qeq_bool x y.

Fixpoint pow10 (digits : nat) : positive :=
  match digits with
  | O => 1%positive
  | S d => (10 * pow10 d)%positive
  end.

(** [Number(x.toFixed(digits))]: the integer [n] for which
    [n / 10^digits - |x|] is closest to zero, the larger one on a tie,
    with the sign of [x] put back. *)
Definition toFixed (digits : nat) (x : Q) : Q :=
  let n := Qfloor (Qabs x * inject_Z (Zpos (pow10 digits)) + (1 # 2)) in
  Qmake (if leb 0 x then n else (- n)%Z) (pow10 digits).

Definition Math_max (x y : Q) : Q := if leb y x then x else y.
Definition Math_min (x y : Q) : Q := if leb x y then x else y.
Definition Math_floor (x : Q) : Z := Qfloor x.
Definition Math_round (x : Q) : Z := Qfloor (x + (1 # 2)).
Definition Math_abs (x : Q) : Q := Qabs x.

End JS.

Infix "<=?" := JS.leb (at level 70, no associativity) : Q_scope.
Infix "<?" := JS.ltb (at level 70, no associativity) : Q_scope.
Infix ">?" := JS.gtb (at level 70, no associativity) : Q_scope.
Infix ">=?" := JS.geb (at level 70, no associativity) : Q_scope.

(** ** IEEE 754 double precision

    The operations on doubles, as the Standard Library specifies them
    ([SpecFloat]: round to nearest, ties to even). *)

Module Binary64.

Definition prec : Z := 53.
Definition emax : Z := 1024.

(** The double nearest to an integer. *)
Definition ofZ (z : Z) : SpecFloat.spec_float :=
  SpecFloat.binary_normalize prec emax z 0 false.

Definition div (x y : SpecFloat.spec_float) : SpecFloat.spec_float :=
  SpecFloat.SFdiv prec emax x y.

(** The number a finite double stands for.  [Infinity] and [NaN] are no
    numbers of [Q]; 0 is returned for them. *)
Definition toQ (x : SpecFloat.spec_float) : Q :=
  match x with
  | SpecFloat.S754_finite s m e =>
      let v :=
        match e with
        | Zneg p => Zpos m # Pos.shiftl 1 (Npos p)
        | _ => inject_Z (Zpos m * 2 ^ e)
        end in
      if s then - v else v
  | _ => 0
  end.

(** The literal [0.99]: the double nearest to 99/100. *)
Definition literal_0_99 : SpecFloat.spec_float := div (ofZ 99) (ofZ 100).

End Binary64.

(** A value with at most two decimals, the shape of every stored amount. *)
Definition cents (x : Q) : Prop := exists n : Z, x == n # 100.

(** ** The token ledger ([src/lib/tokens.ts]) *)

Module Tokens.
Import JS.

Inductive TransactionType := purchase | game_spend | game_win.

(** The game names the components pass; ['mines'] is passed by the Mines
    component although the declared union stops at ['blackjack']. *)
Inductive GameType := crash | dice | plinko | blackjack | mines.

(** A row of [token_transactions] ([id] and [created_at] are left to the
    store). *)
Record Transaction := mkTransaction {
  user_id : string;
  transaction_type : TransactionType;
  token_amount : Q;
  game_type : GameType
}.

(** The remote store: [profiles.token_balance] by profile id, the
    [token_transactions] rows in insertion order, and whether the
    migration "Update token handling for games" (check on [game_type],
    triggers [validate_token_balance] and
    [update_balance_after_transaction]) is installed. *)
Record Database := mkDatabase {
  profiles : gmap string Q;
  token_transactions : list Transaction;
  game_triggers : bool
}.

(** What the module can see and change: the store and [cachedBalance]
    (its timestamp is not kept). *)
Record Env := mkEnv {
  supabase : Database;
  cachedBalance : option Q
}.

Inductive Outcome (A : Type) :=
| Resolved (a : A)
| Rejected (message : string).
Arguments Resolved {A} a.
Arguments Rejected {A} message.

(** An async function: it resolves or rejects, and the writes made before
    a rejection stay. *)
Definition Async (A : Type) : Type := Env -> Outcome A * Env.

Definition resolve {A} (a : A) : Async A := fun e => (Resolved a, e).
Definition throw {A} (message : string) : Async A :=
  fun e => (Rejected message, e).
Definition await {A B} (c : Async A) (k : A -> Async B) : Async B :=
  fun e =>
    match c e with
    | (Resolved a, e') => k a e'
    | (Rejected m, e') => (Rejected m, e')
    end.
Definition setCache (v : Q) : Async unit :=
  fun e => (Resolved tt, mkEnv (supabase e) (Some v)).

Declare Scope async_scope.
Delimit Scope async_scope with async.
Notation "'let!' x ':=' c 'in' k" := (await c (fun x => k))
  (at level 10, x pattern, c at level 100, k at level 200) : async_scope.
Notation "c ';;' k" := (await c (fun _ => k))
  (at level 100, k at level 200, right associativity) : async_scope.
Local Open Scope async_scope.

(** [.from('profiles').select('token_balance').eq('id', userId).single()] *)
Definition selectBalance (userId : string) (failure : string) : Async Q :=
  fun e =>
    match profiles (supabase e) !! userId with
    | Some b => (Resolved b, e)
    | None => (Rejected failure, e)
    end.

(** [.from('profiles').update({token_balance}).eq('id', userId)
    .select('token_balance').single()] *)
Definition updateBalanceRow (userId : string) (v : Q) (failure : string)
  : Async Q :=
  fun e =>
    let d := supabase e in
    match profiles d !! userId with
    | Some _ =>
        (Resolved v,
         mkEnv (mkDatabase (<[userId := v]> (profiles d))
                           (token_transactions d) (game_triggers d))
               (cachedBalance e))
    | None => (Rejected failure, e)
    end.

(** The check constraint [valid_game_type_check]. *)
Definition valid_game_type (g : GameType) : bool :=
  match g with
  | crash | dice | plinko | blackjack => true
  | mines => false
  end.

(** [INSERT INTO token_transactions]: without the migration the row is
    appended; with it the game type is checked, a [game_spend] needs a
    profile holding at least the amount, and the after-insert trigger
    moves the balance by the amount of the row. *)
Definition insertRow (t : Transaction) (d : Database) : option Database :=
  let appended := token_transactions d ++ [t] in
  if game_triggers d then
    if valid_game_type (game_type t) then
      match transaction_type t with
      | game_spend =>
          match profiles d !! user_id t with
          | Some b =>
              if token_amount t <=? b
              then Some (mkDatabase
                           (<[user_id t := b - token_amount t]> (profiles d))
                           appended true)
              else None
          | None => None
          end
      | game_win | purchase =>
          Some (mkDatabase
                  (alter (fun b => b + token_amount t) (user_id t)
                         (profiles d))
                  appended true)
      end
    else None
  else Some (mkDatabase (profiles d) appended false).

Definition insertTransaction (t : Transaction) (failure : string)
  : Async unit :=
  fun e =>
    match insertRow t (supabase e) with
    | Some d => (Resolved tt, mkEnv d (cachedBalance e))
    | None => (Rejected failure, e)
    end.

Definition updateTokenBalance (userId : string) (newBalance : Q) : Async Q :=
  let roundedBalance := toFixed 2 (Math_max 0 newBalance) in
  let! balance :=
    updateBalanceRow userId roundedBalance "Failed to update token balance" in
  setCache balance ;;
  resolve balance.

Definition recordGameTransaction (userId : string) (gameType : GameType)
    (amount : Q) (isWin : bool) : Async unit :=
  let! currentBalance :=
    selectBalance userId "Failed to get current balance" in
  if negb isWin && (amount >? currentBalance)
  then throw "Insufficient token balance"
  else
    insertTransaction
      (mkTransaction userId (if isWin then game_win else game_spend)
                     (toFixed 2 amount) gameType)
      "Failed to record game transaction" ;;
    let newBalance :=
      if isWin then currentBalance + amount else currentBalance - amount in
    updateTokenBalance userId newBalance ;;
    setCache newBalance.

(** The ledger calls of the specification. *)
Definition spend (userId : string) (gameType : GameType) (amount : Q)
  : Async unit := recordGameTransaction userId gameType amount false.
Definition credit (userId : string) (gameType : GameType) (amount : Q)
  : Async unit := recordGameTransaction userId gameType amount true.

Definition balanceOf (userId : string) (e : Env) : option Q :=
  profiles (supabase e) !! userId.
Definition log (e : Env) : list Transaction := token_transactions (supabase e).

(** A history of ledger calls, each run to completion on the state the
    previous one left, whether it resolved or rejected. *)
Inductive LedgerCall :=
| Spend (userId : string) (gameType : GameType) (amount : Q)
| Credit (userId : string) (gameType : GameType) (amount : Q)
| Update (userId : string) (newBalance : Q).

Definition call (c : LedgerCall) (e : Env) : Env :=
  match c with
  | Spend u g a => snd (spend u g a e)
  | Credit u g a => snd (credit u g a e)
  | Update u v => snd (updateTokenBalance u v e)
  end.

Fixpoint runCalls (cs : list LedgerCall) (e : Env) : Env :=
  match cs with
  | [] => e
  | c :: cs' => runCalls cs' (call c e)
  end.

(** No profile holds a negative balance. *)
Definition nonnegative (e : Env) : Prop :=
  forall u b, balanceOf u e = Some b -> 0 <= b.

(** The row a ledger call writes. *)
Definition rowOf (u : string) (g : GameType) (amount : Q) (isWin : bool)
  : Transaction :=
  mkTransaction u (if isWin then game_win else game_spend) (toFixed 2 amount) g.

(** The store accepts the row of the call: with the game migration
    installed the game type is known and, for a spend, the profile holds the
    rounded amount. *)
Definition accepted (g : GameType) (amount : Q) (isWin : bool) (b : Q)
    (e : Env) : Prop :=
  game_triggers (supabase e) = true ->
  valid_game_type g = true /\ (isWin = false -> toFixed 2 amount <= b).

(** The state used to exercise the ledger: one profile holding 100 tokens,
    no rows, and the store with or without the game migration. *)
Definition aliceEnv (triggers : bool) : Env :=
  mkEnv (mkDatabase {["alice" := 100]} [] triggers) None.

End Tokens.

(** ** Dice ([DiceGame]) *)

Module Dice.
Import JS Tokens.
Local Open Scope async_scope.

Record GameState := mkGameState {
  betAmount : Q;
  targetNumber : Q;
  multiplier : Q;
  isRolling : bool;
  lastResult : option Q;
  lastWin : option Q
}.

(** The state the component mounts with. *)
Definition initialState : GameState :=
  mkGameState 20 50 2 false None None.

(** What a render of the component shows to its handlers: the
    [tokenBalance] prop (the parent's state, changed by [onBalanceChange])
    and [gameState]. *)
Record Component := mkComponent {
  tokenBalance : Q;
  gameState : GameState
}.

Definition mount (balance : Q) : Component := mkComponent balance initialState.

Definition calculateMultiplier (target : Q) : Q := toFixed 4 (99 / target).

(** The slider ([handleMouseMove], [onMouseDown]) with the pointer at
    [percentage] of its width. *)
Definition moveSlider (percentage : Q) (c : Component) : Component :=
  let gs := gameState c in
  if isRolling gs then c
  else
    let newTarget := Math_max 1 (Math_min 98 percentage) in
    mkComponent (tokenBalance c)
      (mkGameState (betAmount gs) newTarget (calculateMultiplier newTarget)
                   (isRolling gs) (lastResult gs) (lastWin gs)).

(** The bet input ([onChange]); it is disabled while rolling. *)
Definition changeBet (value : Q) (c : Component) : Component :=
  let gs := gameState c in
  if isRolling gs then c
  else
    mkComponent (tokenBalance c)
      (mkGameState (Math_max 0 value) (targetNumber gs) (multiplier gs)
                   (isRolling gs) (lastResult gs) (lastWin gs)).

Definition setRolling (r : bool) (gs : GameState) : GameState :=
  mkGameState (betAmount gs) (targetNumber gs) (multiplier gs) r
              (lastResult gs) (lastWin gs).

Definition finishRoll (finalResult : Q) (win : option Q) (gs : GameState)
  : GameState :=
  mkGameState (betAmount gs) (targetNumber gs) (multiplier gs) false
              (Some finalResult) win.

(** [rollDice], from the click to the last tick of the roll animation.
    [user] is what [supabase.auth.getUser()] returns and [finalDraw] the
    value [Math.random()] returns for [finalResult]; the draws of the
    earlier ticks only feed the displayed number.  [tokenBalance] and
    [gameState] are those of the render whose handler was clicked, for the
    whole round.  A rejection inside the interval callback is not caught:
    the callback stops there. *)
Definition rollDice (user : option string) (finalDraw : Q)
    (c : Component) (e : Env) : Component * Env :=
  let gs := gameState c in
  let tokenBalance := tokenBalance c in
  if (betAmount gs <=? 0) || (betAmount gs >? tokenBalance) || isRolling gs
  then (c, e)
  else
    match user with
    | None => (c, e)
    | Some userId =>
        match recordGameTransaction userId dice (betAmount gs) false e with
        | (Rejected _, e1) => (mkComponent tokenBalance (setRolling false gs), e1)
        | (Resolved _, e1) =>
            let rolling := setRolling true gs in
            let finalResult := finalDraw * 100 in
            let won := finalResult <=? targetNumber gs in
            let winnings :=
              if won then toFixed 2 (betAmount gs * multiplier gs) else 0 in
            if won then
              let newBalance := toFixed 2 (tokenBalance + winnings) in
              match (recordGameTransaction userId dice
                       (winnings - betAmount gs) true ;;
                     updateTokenBalance userId newBalance) e1 with
              | (Rejected _, e2) => (mkComponent newBalance rolling, e2)
              | (Resolved _, e2) =>
                  (mkComponent newBalance
                     (finishRoll finalResult
                        (Some (winnings - betAmount gs)) rolling), e2)
              end
            else
              match updateTokenBalance userId
                      (tokenBalance - betAmount gs) e1 with
              | (Rejected _, e2) =>
                  (mkComponent (tokenBalance - betAmount gs) rolling, e2)
              | (Resolved _, e2) =>
                  (mkComponent (tokenBalance - betAmount gs)
                     (finishRoll finalResult None rolling), e2)
              end
        end
    end.

End Dice.

(** ** Crash ([Game]) *)

Module Crash.
Import JS Tokens.
Local Open Scope async_scope.

Definition HOUSE_EDGE : Q := 99 # 100.
Definition BASE_MULTIPLIER : Q := 10024 # 10000.

(** [calculateCrashPoint], with the value of [Math.random()] as [draw]. *)
Definition calculateCrashPoint (draw : Q) : Q :=
  let e := (2 ^ 32)%Z in
  let h := Math_floor (draw * inject_Z e) in
  if (h =? 0)%Z then 1
  else Math_max 1 ((100 * inject_Z e - inject_Z h) / (inject_Z e - inject_Z h))
       * HOUSE_EDGE.

Record GameState := mkGameState {
  multiplier : Q;
  isFlying : bool;
  crashed : bool;
  betAmount : Q;
  hasBet : bool;
  targetMultiplier : Q;
  autoCashoutAt : Q;
  lastWin : option Q;
  cashedOut : bool;
  gamesPlayed : nat;
  winsInSession : nat
}.

Definition initialState : GameState :=
  mkGameState 1 false false 20 false 2 0 None false 0 0.

(** A render of the component: the [tokenBalance] prop, [gameState] and
    [crashPointRef.current]. *)
Record Component := mkComponent {
  tokenBalance : Q;
  gameState : GameState;
  crashPoint : Q
}.

Definition mount (balance : Q) : Component :=
  mkComponent balance initialState 1.

Definition withState (f : GameState -> GameState) (c : Component) : Component :=
  mkComponent (tokenBalance c) (f (gameState c)) (crashPoint c).

Definition withBalance (v : Q) (c : Component) : Component :=
  mkComponent v (gameState c) (crashPoint c).

Definition startGame (user : option string) (draw : Q)
    (c : Component) (e : Env) : Component * Env :=
  let gs := gameState c in
  if (betAmount gs <=? 0) || (betAmount gs >? tokenBalance c) || isFlying gs
  then (c, e)
  else
    match user with
    | None => (c, e)
    | Some userId =>
        match recordGameTransaction userId crash (betAmount gs) false e with
        | (Rejected _, e1) =>
            (withState (fun prev =>
               mkGameState (multiplier prev) false (crashed prev)
                 (betAmount prev) (hasBet prev) (targetMultiplier prev)
                 (autoCashoutAt prev) (lastWin prev) (cashedOut prev)
                 (gamesPlayed prev) (winsInSession prev)) c, e1)
        | (Resolved _, e1) =>
            let newBalance := toFixed 2 (tokenBalance c - betAmount gs) in
            (mkComponent newBalance
               (mkGameState 1 true false (betAmount gs) true
                  (targetMultiplier gs) (autoCashoutAt gs) None false
                  (S (gamesPlayed gs)) (winsInSession gs))
               (calculateCrashPoint draw), e1)
        end
    end.

(** The state update of a completed cash-out. *)
Definition settled (profit : Q) (prev : GameState) : GameState :=
  mkGameState (multiplier prev) (isFlying prev) (crashed prev)
    (betAmount prev) false (targetMultiplier prev) (autoCashoutAt prev)
    (Some profit) true (gamesPlayed prev) (S (winsInSession prev)).

(** [cashout] as created by the render [snap], acting on the live
    component. *)
Definition cashoutFrom (snap : Component) (user : option string)
    (live : Component) (e : Env) : Component * Env :=
  let gs := gameState snap in
  if negb (hasBet gs) || crashed gs || cashedOut gs then (live, e)
  else
    match user with
    | None => (live, e)
    | Some userId =>
        let winnings := toFixed 2 (betAmount gs * multiplier gs) in
        let profit := toFixed 2 (winnings - betAmount gs) in
        let newBalance := toFixed 2 (tokenBalance snap + winnings) in
        match (recordGameTransaction userId crash profit true ;;
               updateTokenBalance userId newBalance) e with
        | (Rejected _, e1) => (withBalance newBalance live, e1)
        | (Resolved _, e1) =>
            (withState (settled profit) (withBalance newBalance live), e1)
        end
    end.

(** A click on the cash-out button: the handler of the current render. *)
Definition cashout (user : option string) (c : Component) (e : Env)
  : Component * Env := cashoutFrom c user c e.

(** The effect on [gameState.crashed]: the bet of a crashed round is gone. *)
Definition crashEffect (c : Component) : Component :=
  let gs := gameState c in
  if crashed gs && hasBet gs
  then withState (fun prev =>
         mkGameState (multiplier prev) false (crashed prev) (betAmount prev)
           false (targetMultiplier prev) (autoCashoutAt prev) (lastWin prev)
           (cashedOut prev) (gamesPlayed prev) (winsInSession prev)) c
  else c.

(** One tick of the 50 ms interval.  The interval and the [cashout] it
    calls for the auto cash-out belong to the render [snap] in which the
    round took off.  The call is followed to its end here, as if nothing
    else ran before it returns; [CrashAsync.tick] leaves it at its first
    await. *)
Definition tick (snap : Component) (user : option string)
    (c : Component) (e : Env) : Component * Env :=
  let prev := gameState c in
  if isFlying prev && negb (crashed prev) then
    let newMultiplier := multiplier prev * BASE_MULTIPLIER in
    if newMultiplier >=? crashPoint c then
      (crashEffect
         (withState (fun prev =>
            mkGameState (multiplier prev) (isFlying prev) true
              (betAmount prev) (hasBet prev) (targetMultiplier prev)
              (autoCashoutAt prev) (lastWin prev) (cashedOut prev)
              (gamesPlayed prev) (winsInSession prev)) c), e)
    else
      let grown :=
        withState (fun prev =>
          mkGameState newMultiplier (isFlying prev) (crashed prev)
            (betAmount prev) (hasBet prev) (targetMultiplier prev)
            (autoCashoutAt prev) (lastWin prev) (cashedOut prev)
            (gamesPlayed prev) (winsInSession prev)) c in
      if (autoCashoutAt prev >? 0) && (newMultiplier >=? autoCashoutAt prev)
         && negb (cashedOut prev)
      then cashoutFrom snap user grown e
      else (grown, e)
  else (c, e).

(** What can happen to a round once it has taken off. *)
Inductive Event := Tick | CashoutClick.

Definition step (snap : Component) (user : option string) (ev : Event)
    (s : Component * Env) : Component * Env :=
  match ev with
  | Tick => tick snap user (fst s) (snd s)
  | CashoutClick => cashout user (fst s) (snd s)
  end.

Definition play (snap : Component) (user : option string)
    (evs : list Event) (s : Component * Env) : Component * Env :=
  fold_left (fun s ev => step snap user ev s) evs s.

(** The round is over for the player. *)
Definition isSettled (c : Component) : bool :=
  negb (hasBet (gameState c)) || crashed (gameState c)
  || cashedOut (gameState c).

(** The round is in the air with its bet still at stake. *)
Definition inFlight (c : Component) : bool :=
  isFlying (gameState c) && negb (crashed (gameState c))
  && hasBet (gameState c) && negb (cashedOut (gameState c)).

End Crash.

(** ** Crash, the awaits of [cashout]

    [cashout] is an async function.  It tests its guard when it is called
    and then waits three times: for [supabase.auth.getUser], for
    [recordGameTransaction] and for [updateTokenBalance].  Only after the
    last of them does it mark the round as cashed out.  While it waits, the
    interval goes on ticking and the button can be clicked again.  A call
    in progress is kept with the render that created it and the await it
    has reached; a ledger call is taken as a whole, at the moment its
    promise settles. *)

Module CrashAsync.
Import JS Tokens Crash.

Inductive Stage :=
| AwaitUser
| AwaitRecord (userId : string) (profit newBalance : Q)
| AwaitUpdate (userId : string) (profit newBalance : Q)
| Returned.

Record Call := mkCall { closure : Component; stage : Stage }.

(** The live component, the store with the cache, and the calls of
    [cashout] made so far. *)
Record State := mkState {
  live : Component;
  env : Env;
  calls : list Call
}.

Definition begin (started : Component * Env) : State :=
  mkState (fst started) (snd started) [].

(** [cashout()] of the render [snap]: the guard, read from that render,
    then the first await. *)
Definition callCashout (snap : Component) (s : State) : State :=
  let gs := gameState snap in
  if negb (hasBet gs) || crashed gs || cashedOut gs then s
  else mkState (live s) (env s) (calls s ++ [mkCall snap AwaitUser]).

(** The promise the [i]-th call waits for settles, and the call runs on to
    its next await or to its end.  [user] is what [getUser] resolves to. *)
Definition resume (user : option string) (i : nat) (s : State) : State :=
  match calls s !! i with
  | None => s
  | Some call =>
      let snap := closure call in
      let gs := gameState snap in
      let goOn (next : Stage) (c : Component) (e : Env) : State :=
        mkState c e (<[i := mkCall snap next]> (calls s)) in
      match stage call with
      | AwaitUser =>
          match user with
          | None => goOn Returned (live s) (env s)
          | Some userId =>
              let winnings := toFixed 2 (betAmount gs * multiplier gs) in
              let profit := toFixed 2 (winnings - betAmount gs) in
              let newBalance := toFixed 2 (tokenBalance snap + winnings) in
              goOn (AwaitRecord userId profit newBalance)
                   (withBalance newBalance (live s)) (env s)
          end
      | AwaitRecord userId profit newBalance =>
          match recordGameTransaction userId crash profit true (env s) with
          | (Rejected _, e1) => goOn Returned (live s) e1
          | (Resolved _, e1) =>
              goOn (AwaitUpdate userId profit newBalance) (live s) e1
          end
      | AwaitUpdate userId profit newBalance =>
          match updateTokenBalance userId newBalance (env s) with
          | (Rejected _, e1) => goOn Returned (live s) e1
          | (Resolved _, e1) =>
              goOn Returned (withState (settled profit) (live s)) e1
          end
      | Returned => s
      end
  end.

(** One tick of the interval of the render [snap]: the updater of
    [Crash.tick], with the call of [cashout] only started. *)
Definition tick (snap : Component) (s : State) : State :=
  let c := live s in
  let prev := gameState c in
  if isFlying prev && negb (crashed prev) then
    let newMultiplier := multiplier prev * BASE_MULTIPLIER in
    if newMultiplier >=? crashPoint c then
      mkState
        (crashEffect
           (withState (fun prev =>
              mkGameState (multiplier prev) (isFlying prev) true
                (betAmount prev) (hasBet prev) (targetMultiplier prev)
                (autoCashoutAt prev) (lastWin prev) (cashedOut prev)
                (gamesPlayed prev) (winsInSession prev)) c))
        (env s) (calls s)
    else
      let grown :=
        withState (fun prev =>
          mkGameState newMultiplier (isFlying prev) (crashed prev)
            (betAmount prev) (hasBet prev) (targetMultiplier prev)
            (autoCashoutAt prev) (lastWin prev) (cashedOut prev)
            (gamesPlayed prev) (winsInSession prev)) c in
      let ticked := mkState grown (env s) (calls s) in
      if (autoCashoutAt prev >? 0) && (newMultiplier >=? autoCashoutAt prev)
         && negb (cashedOut prev)
      then callCashout snap ticked
      else ticked
  else s.

(** The cash-out button is on the page while the round flies with a bet,
    and is enabled until the round shows as crashed or cashed out. *)
Definition cashoutButton (c : Component) : bool :=
  let gs := gameState c in
  isFlying gs && hasBet gs && negb (crashed gs || cashedOut gs).

(** What the event loop can run next: a tick, a click on the cash-out
    button (the handler of the current render), or the continuation of a
    call whose promise has settled. *)
Inductive Event := Tick | CashoutClick | Resume (i : nat).

Definition step (snap : Component) (user : option string) (ev : Event)
    (s : State) : State :=
  match ev with
  | Tick => tick snap s
  | CashoutClick =>
      if cashoutButton (live s) then callCashout (live s) s else s
  | Resume i => resume user i s
  end.

Definition run (snap : Component) (user : option string)
    (evs : list Event) (s : State) : State :=
  fold_left (fun s ev => step snap user ev s) evs s.

(** The rows of the log, kind and amount. *)
Definition rows (s : State) : list (TransactionType * Q) :=
  map (fun t => (transaction_type t, token_amount t)) (log (env s)).

End CrashAsync.

(** ** Mines ([MinesGame]) *)

Module Mines.
Import JS Tokens.
Local Open Scope async_scope.

Definition GRID_SIZE : nat := 5.
Definition AUTO_REVEAL_THRESHOLD : nat := 2.

(** [calculateMultiplier], in doubles: [gems / (25 - revealed)] and
    [0.99 / probability] are rounded quotients, and [toFixed] rounds the
    number the second one stands for. *)
Definition calculateMultiplier (revealed mines gems : nat) : Q :=
  let probability :=
    Binary64.div
      (Binary64.ofZ (Z.of_nat gems))
      (Binary64.ofZ (Z.of_nat (GRID_SIZE * GRID_SIZE) - Z.of_nat revealed)) in
  toFixed 2 (Binary64.toQ (Binary64.div Binary64.literal_0_99 probability)).

Inductive Cell := hidden | revealed.

Record GameState := mkGameState {
  betAmount : Q;
  mineCount : nat;
  gemCount : nat;
  grid : list (list Cell);
  minePositions : gset (nat * nat);
  gemPositions : gset (nat * nat);
  isPlaying : bool;
  revealedCount : nat;
  currentMultiplier : Q;
  lastWin : option Q;
  autoMode : bool;
  autoStopAt : Q
}.

Definition hiddenGrid : list (list Cell) :=
  replicate GRID_SIZE (replicate GRID_SIZE hidden).

Definition initialState : GameState :=
  mkGameState 20 10 15 hiddenGrid ∅ ∅ false 0 1 None false 2.

Record Component := mkComponent {
  tokenBalance : Q;
  gameState : GameState
}.

Definition mount (balance : Q) : Component := mkComponent balance initialState.

Definition withBalance (v : Q) (c : Component) : Component :=
  mkComponent v (gameState c).

Definition cellAt (g : list (list Cell)) (p : nat * nat) : option Cell :=
  match g !! fst p with
  | Some r => r !! snd p
  | None => None
  end.

Definition isHidden (g : list (list Cell)) (p : nat * nat) : bool :=
  match cellAt g p with
  | Some hidden => true
  | _ => false
  end.

(** [newGrid[x][y] = 'revealed'] *)
Definition reveal (p : nat * nat) (g : list (list Cell)) : list (list Cell) :=
  match g !! fst p with
  | Some r => <[fst p := <[snd p := revealed]> r]> g
  | None => g
  end.

(** [positions.forEach(pos => newGrid[x][y] = 'revealed')] *)
Definition revealAll (positions : gset (nat * nat)) (g : list (list Cell))
  : list (list Cell) :=
  foldr reveal g (elements positions).

(** The settlement shared by the three ways of cashing out: credit the
    profit, overwrite the stored balance; skipped for a zero bet. *)
Definition payOut (userId : string) (bet winnings profit : Q)
    (c : Component) (e : Env) : Outcome unit * (Component * Env) :=
  if bet >? 0 then
    let finalBalance := toFixed 2 (tokenBalance c + winnings) in
    match (recordGameTransaction userId mines profit true ;;
           updateTokenBalance userId finalBalance) e with
    | (Rejected m, e1) => (Rejected m, (withBalance finalBalance c, e1))
    | (Resolved _, e1) => (Resolved tt, (withBalance finalBalance c, e1))
    end
  else (Resolved tt, (c, e)).

Definition endRound (newGrid : list (list Cell)) (count : nat)
    (newMultiplier profit : Q) (prev : GameState) : GameState :=
  mkGameState (betAmount prev) (mineCount prev) (gemCount prev) newGrid
    (minePositions prev) (gemPositions prev) false count newMultiplier
    (Some profit) (autoMode prev) (autoStopAt prev).

Definition revealAllGems (user : option string) (c : Component) (e : Env)
  : Component * Env :=
  match user with
  | None => (c, e)
  | Some userId =>
      let gs := gameState c in
      let revealedGems :=
        length (filter (fun p => isHidden (grid gs) p = true)
                       (elements (gemPositions gs))) in
      let newGrid := revealAll (gemPositions gs) (grid gs) in
      let newMultiplier :=
        calculateMultiplier revealedGems (mineCount gs) (gemCount gs) in
      let winnings := toFixed 2 (betAmount gs * newMultiplier) in
      let profit := toFixed 2 (winnings - betAmount gs) in
      match payOut userId (betAmount gs) winnings profit c e with
      | (Rejected _, s) => s
      | (Resolved _, (c1, e1)) =>
          (mkComponent (tokenBalance c1)
             (endRound (revealAll (minePositions gs) newGrid) revealedGems
                       newMultiplier profit (gameState c1)), e1)
      end
  end.

(** The bet of [startGame]: a zero bet is a practice round and makes no
    ledger call. *)
Definition placeBet (userId : string) (c : Component) (e : Env)
  : Outcome unit * (Component * Env) :=
  let gs := gameState c in
  if betAmount gs >? 0 then
    match recordGameTransaction userId mines (betAmount gs) false e with
    | (Rejected m, e1) => (Rejected m, (c, e1))
    | (Resolved _, e1) =>
        (Resolved tt,
         (withBalance (toFixed 2 (tokenBalance c - betAmount gs)) c, e1))
    end
  else (Resolved tt, (c, e)).

(** [startGame]; [placement] is what [initializeGame] returns (mines, then
    gems).  When the round starts with at most [AUTO_REVEAL_THRESHOLD]
    mines the effect on [isPlaying] reveals all gems at once. *)
Definition startGame (user : option string)
    (placement : gset (nat * nat) * gset (nat * nat))
    (c : Component) (e : Env) : Component * Env :=
  let gs := gameState c in
  if (betAmount gs <? 0) || (betAmount gs >? tokenBalance c) then (c, e)
  else if (GRID_SIZE * GRID_SIZE <? mineCount gs + gemCount gs)%nat then (c, e)
  else
    match user with
    | None => (c, e)
    | Some userId =>
        match placeBet userId c e with
        | (Rejected _, s) => s
        | (Resolved _, (c1, e1)) =>
            let started :=
              mkComponent (tokenBalance c1)
                (mkGameState (betAmount gs) (mineCount gs) (gemCount gs)
                   hiddenGrid (fst placement) (snd placement) true 0 1 None
                   (autoMode gs) (autoStopAt gs)) in
            if (mineCount gs <=? AUTO_REVEAL_THRESHOLD)%nat
            then revealAllGems user started e1
            else (started, e1)
        end
    end.

Definition revealTile (user : option string) (row col : nat)
    (c : Component) (e : Env) : Component * Env :=
  let gs := gameState c in
  if negb (isPlaying gs) || negb (isHidden (grid gs) (row, col)) then (c, e)
  else
    let isMine := bool_decide ((row, col) ∈ minePositions gs) in
    let isGem := bool_decide ((row, col) ∈ gemPositions gs) in
    let newGrid := reveal (row, col) (grid gs) in
    if isMine then
      (mkComponent (tokenBalance c)
         (mkGameState (betAmount gs) (mineCount gs) (gemCount gs)
            (revealAll (gemPositions gs) (revealAll (minePositions gs) newGrid))
            (minePositions gs) (gemPositions gs) false (revealedCount gs)
            (currentMultiplier gs) None (autoMode gs) (autoStopAt gs)), e)
    else if negb isGem then
      (mkComponent (tokenBalance c)
         (mkGameState (betAmount gs) (mineCount gs) (gemCount gs) newGrid
            (minePositions gs) (gemPositions gs) (isPlaying gs)
            (revealedCount gs) (currentMultiplier gs) (lastWin gs)
            (autoMode gs) (autoStopAt gs)), e)
    else
      let newRevealedCount := S (revealedCount gs) in
      let newMultiplier :=
        calculateMultiplier newRevealedCount (mineCount gs) (gemCount gs) in
      match user with
      | None => (c, e)
      | Some userId =>
          if autoMode gs && (newMultiplier >=? autoStopAt gs) then
            let winnings := toFixed 2 (betAmount gs * newMultiplier) in
            let profit := toFixed 2 (winnings - betAmount gs) in
            match payOut userId (betAmount gs) winnings profit c e with
            | (Rejected _, s) => s
            | (Resolved _, (c1, e1)) =>
                (mkComponent (tokenBalance c1)
                   (endRound newGrid newRevealedCount newMultiplier profit
                             (gameState c1)), e1)
            end
          else
            (mkComponent (tokenBalance c)
               (mkGameState (betAmount gs) (mineCount gs) (gemCount gs) newGrid
                  (minePositions gs) (gemPositions gs) (isPlaying gs)
                  newRevealedCount newMultiplier (lastWin gs)
                  (autoMode gs) (autoStopAt gs)), e)
      end.

Definition cashout (user : option string) (c : Component) (e : Env)
  : Component * Env :=
  let gs := gameState c in
  if negb (isPlaying gs) || (revealedCount gs =? 0)%nat then (c, e)
  else
    match user with
    | None => (c, e)
    | Some userId =>
        let winnings := toFixed 2 (betAmount gs * currentMultiplier gs) in
        let profit := toFixed 2 (winnings - betAmount gs) in
        match payOut userId (betAmount gs) winnings profit c e with
        | (Rejected _, s) => s
        | (Resolved _, (c1, e1)) =>
            (mkComponent (tokenBalance c1)
               (endRound
                  (revealAll (gemPositions gs)
                     (revealAll (minePositions gs) (grid gs)))
                  (revealedCount (gameState c1))
                  (currentMultiplier (gameState c1)) profit (gameState c1)),
             e1)
        end
    end.

(** What the player can do during a round. *)
Inductive Event := Reveal (row col : nat) | CashoutClick.

Definition step (user : option string) (ev : Event) (s : Component * Env)
  : Component * Env :=
  match ev with
  | Reveal row col => revealTile user row col (fst s) (snd s)
  | CashoutClick => cashout user (fst s) (snd s)
  end.

Definition play (user : option string) (evs : list Event)
    (s : Component * Env) : Component * Env :=
  fold_left (fun s ev => step user ev s) evs s.

(** A board to play on: mines on the first two rows, gems on the other
    three. *)
Definition sampleMines : gset (nat * nat) :=
  list_to_set [(0,0); (0,1); (0,2); (0,3); (0,4);
               (1,0); (1,1); (1,2); (1,3); (1,4)]%nat.
Definition sampleGems : gset (nat * nat) :=
  list_to_set [(2,0); (2,1); (2,2); (2,3); (2,4);
               (3,0); (3,1); (3,2); (3,3); (3,4);
               (4,0); (4,1); (4,2); (4,3); (4,4)]%nat.

End Mines.

(** ** Blackjack ([BlackjackGame]) *)

Module Blackjack.
Import JS Tokens.
Local Open Scope async_scope.

Inductive Suit := Spades | Hearts | Diamonds | Clubs.

(** The entries of [VALUES]. *)
Inductive Value :=
| VA | V2 | V3 | V4 | V5 | V6 | V7 | V8 | V9 | V10 | VJ | VQ | VK.

Record Card := mkCard {
  suit : Suit;
  value : Value;
  numericValue : Z
}.

(** The [numericValue] [createDeck] gives to a card. *)
Definition numericValueOf (v : Value) : Z :=
  match v with
  | VA => 11
  | VK | VQ | VJ => 10
  | V2 => 2 | V3 => 3 | V4 => 4 | V5 => 5 | V6 => 6
  | V7 => 7 | V8 => 8 | V9 => 9 | V10 => 10
  end.

Definition card (s : Suit) (v : Value) : Card := mkCard s v (numericValueOf v).

Definition isAce (c : Card) : bool :=
  match value c with VA => true | _ => false end.

(** [while (score > 21 && aces > 0) { score -= 10; aces--; }] *)
Fixpoint soften (aces : nat) (score : Z) : Z :=
  match aces with
  | O => score
  | S a => if (21 <? score)%Z then soften a (score - 10)%Z else score
  end.

Definition calculateScore (hand : list Card) : Z :=
  let score := fold_left (fun s c => (s + numericValue c)%Z) hand 0%Z in
  let aces := length (filter (fun c => isAce c = true) hand) in
  soften aces score.

Inductive GamePhase := betting | playing | dealerTurn | complete.

Record GameState := mkGameState {
  playerHand : list Card;
  dealerHand : list Card;
  deck : list Card;
  betAmount : Q;
  gamePhase : GamePhase;
  playerScore : Z;
  dealerScore : Z;
  lastWin : option Q
}.

Record Component := mkComponent {
  tokenBalance : Q;
  gameState : GameState
}.

(** The component as mounted, with the deck [createDeck] shuffled. *)
Definition mount (balance : Q) (shuffled : list Card) : Component :=
  mkComponent balance (mkGameState [] [] shuffled 20 betting 0 0 None).

Definition withBalance (v : Q) (c : Component) : Component :=
  mkComponent v (gameState c).

Definition withLastWin (w : option Q) (c : Component) : Component :=
  let prev := gameState c in
  mkComponent (tokenBalance c)
    (mkGameState (playerHand prev) (dealerHand prev) (deck prev)
       (betAmount prev) (gamePhase prev) (playerScore prev)
       (dealerScore prev) w).

(** [dealCard]: the last card of the deck; [None] stands for the throw of
    'Deck is empty'. *)
Definition dealCard (d : list Card) : option (Card * list Card) :=
  match reverse d with
  | [] => None
  | c :: rest => Some (c, reverse rest)
  end.

(** The dealer's loop [while (dealerScore < 17)], on the deck turned over
    (next card first); [None] when the deck runs out. *)
Fixpoint dealerDraws (hand : list Card) (turned : list Card)
  : option (list Card * list Card) :=
  if (calculateScore hand <? 17)%Z then
    match turned with
    | [] => None
    | c :: rest => dealerDraws (hand ++ [c]) rest
    end
  else Some (hand, turned).

(** The comparison of [handleDealerTurn]: the player's bust first, then the
    dealer's, then a natural on one side only, then the scores. *)
Definition playerWinsWith (player dealer : list Card) : bool :=
  let playerScore := calculateScore player in
  let dealerScore := calculateScore dealer in
  let playerBusted := (21 <? playerScore)%Z in
  let dealerBusted := (21 <? dealerScore)%Z in
  let playerBlackjack := (playerScore =? 21)%Z && (length player =? 2)%nat in
  let dealerBlackjack := (dealerScore =? 21)%Z && (length dealer =? 2)%nat in
  if playerBusted then false
  else if dealerBusted then true
  else if playerBlackjack && negb dealerBlackjack then true
  else if negb playerBlackjack && dealerBlackjack then false
  else (dealerScore <? playerScore)%Z.

Definition isNaturalBlackjack (hand : list Card) : bool :=
  (calculateScore hand =? 21)%Z && (length hand =? 2)%nat.

(** [handleGameEnd] as created by the render [snap]. *)
Definition handleGameEnd (snap : Component) (user : option string)
    (playerWins isBlackjack : bool) (live : Component) (e : Env)
  : Component * Env :=
  match user with
  | None => (live, e)
  | Some userId =>
      let bet := betAmount (gameState snap) in
      if playerWins then
        let winnings :=
          if isBlackjack then toFixed 2 (bet * (25 # 10))
          else toFixed 2 (bet * 2) in
        let profit := toFixed 2 (winnings - bet) in
        let newBalance := toFixed 2 (tokenBalance snap + winnings) in
        match (recordGameTransaction userId blackjack profit true ;;
               updateTokenBalance userId newBalance) e with
        | (Rejected _, e1) => (withBalance newBalance live, e1)
        | (Resolved _, e1) =>
            (withLastWin (Some (winnings - bet))
               (withBalance newBalance live), e1)
        end
      else (withLastWin None live, e)
  end.

(** [handleDealerTurn] as created by the render [snap]. *)
Definition handleDealerTurn (snap : Component) (user : option string)
    (live : Component) (e : Env) : Component * Env :=
  let gs := gameState snap in
  match dealerDraws (dealerHand gs) (reverse (deck gs)) with
  | None => (live, e)
  | Some (currentDealerHand, turned) =>
      let prev := gameState live in
      let shown :=
        mkComponent (tokenBalance live)
          (mkGameState (playerHand prev) currentDealerHand (reverse turned)
             (betAmount prev) complete (playerScore prev)
             (calculateScore currentDealerHand) (lastWin prev)) in
      handleGameEnd snap user
        (playerWinsWith (playerHand gs) currentDealerHand)
        (isNaturalBlackjack (playerHand gs)) shown e
  end.

Definition stand (user : option string) (c : Component) (e : Env)
  : Component * Env :=
  match gamePhase (gameState c) with
  | playing => handleDealerTurn c user c e
  | _ => (c, e)
  end.

Definition hit (user : option string) (c : Component) (e : Env)
  : Component * Env :=
  let gs := gameState c in
  match gamePhase gs with
  | playing =>
      match dealCard (deck gs) with
      | None => (c, e)
      | Some (card, newDeck) =>
          let newHand := playerHand gs ++ [card] in
          let newScore := calculateScore newHand in
          let drawn :=
            mkComponent (tokenBalance c)
              (mkGameState newHand (dealerHand gs) newDeck (betAmount gs)
                 (if (21 <? newScore)%Z then complete else playing)
                 newScore (dealerScore gs) (lastWin gs)) in
          if (21 <? newScore)%Z
          then handleGameEnd c user false false drawn e
          else (drawn, e)
      end
  | _ => (c, e)
  end.

(** The four cards of the deal: player, dealer, player, dealer. *)
Definition dealInitial (d : list Card)
  : option (list Card * list Card * list Card) :=
  match dealCard d with
  | Some (c1, d1) =>
      match dealCard d1 with
      | Some (c2, d2) =>
          match dealCard d2 with
          | Some (c3, d3) =>
              match dealCard d3 with
              | Some (c4, d4) => Some ([c1; c3], [c2; c4], d4)
              | None => None
              end
          | None => None
          end
      | None => None
      end
  | None => None
  end.

(** [startGame].  When the player is dealt 21 it calls [handleDealerTurn]
    of its own render, the one from before the deal. *)
Definition startGame (user : option string) (c : Component) (e : Env)
  : Component * Env :=
  let gs := gameState c in
  if (betAmount gs <=? 0) || (betAmount gs >? tokenBalance c) then (c, e)
  else
    match user with
    | None => (c, e)
    | Some userId =>
        match recordGameTransaction userId blackjack (betAmount gs) false e with
        | (Rejected _, e1) => (c, e1)
        | (Resolved _, e1) =>
            let newBalance := toFixed 2 (tokenBalance c - betAmount gs) in
            match dealInitial (deck gs) with
            | None => (withBalance newBalance c, e1)
            | Some (player, dealer, rest) =>
                let dealt :=
                  mkComponent newBalance
                    (mkGameState player dealer rest (betAmount gs) playing
                       (calculateScore player) (calculateScore dealer) None) in
                if (calculateScore player =? 21)%Z
                then handleDealerTurn c user dealt e1
                else (dealt, e1)
            end
        end
    end.

(** The outcome of a hand by the standard rules the specification names:
    the player's bust loses, then the dealer's bust wins, a natural on one
    side only decides, and otherwise the higher score wins and equal scores
    push. *)
Inductive Result := Win | Loss | Push.

Definition standardResult (player dealer : list Card) : Result :=
  let p := calculateScore player in
  let d := calculateScore dealer in
  if (21 <? p)%Z then Loss
  else if (21 <? d)%Z then Win
  else if isNaturalBlackjack player && negb (isNaturalBlackjack dealer) then Win
  else if negb (isNaturalBlackjack player) && isNaturalBlackjack dealer then Loss
  else if (d <? p)%Z then Win
  else if (p <? d)%Z then Loss
  else Push.

(** The bet is back in the store: the balance after the round is the one
    from before the bet. *)
Definition betReturned (u : string) (e0 e1 : Env) : Prop :=
  exists b0 b1,
    balanceOf u e0 = Some b0 /\ balanceOf u e1 = Some b1 /\ b1 == b0.

(** A deck whose deal gives the player 10 and 8 and the dealer 10 and 8, and
    one whose deal gives the player an ace and a king against 9 and king. *)
Definition tieDeck : list Card :=
  [card Hearts V5; card Clubs V8; card Hearts V8;
   card Diamonds V10; card Spades V10].
Definition naturalDeck : list Card :=
  [card Hearts V5; card Clubs VK; card Spades VK;
   card Diamonds V9; card Spades VA].

End Blackjack.

(** ** The round trip of a won round *)

Module RoundTrip.
Import Tokens.

(** The balance of the specification: what was there before the bet, less
    the bet, plus the winnings. *)
Definition balanceSettled (u : string) (bet winnings : Q) (e0 e1 : Env) : Prop :=
  exists before after,
    balanceOf u e0 = Some before /\ balanceOf u e1 = Some after /\
    after == before - bet + winnings.

(** The rows as the specification words them: a [game_spend] of the bet,
    then a [game_win] of the winnings. *)
Definition rowsAsStated (u : string) (bet winnings : Q) (e0 e1 : Env) : Prop :=
  exists s w,
    log e1 = log e0 ++ [s; w] /\
    transaction_type s = game_spend /\ token_amount s == bet /\
    transaction_type w = game_win /\ token_amount w == winnings.

(** The rows as the games write them: the [game_win] row carries the net
    profit. *)
Definition rowsNet (u : string) (bet winnings : Q) (e0 e1 : Env) : Prop :=
  exists s w,
    log e1 = log e0 ++ [s; w] /\
    transaction_type s = game_spend /\ token_amount s == bet /\
    transaction_type w = game_win /\ token_amount w == winnings - bet.

(** A render of a Crash round that is still in the air, with the balance
    and the bet the round took off with. *)
Definition sameFlight (started live : Crash.Component) : Prop :=
  Crash.tokenBalance live = Crash.tokenBalance started /\
  Crash.betAmount (Crash.gameState live)
  = Crash.betAmount (Crash.gameState started) /\
  Crash.inFlight live = true /\
  0 <= Crash.multiplier (Crash.gameState live).

(** A render of a Mines round that is still played, with the balance and
    the bet the round started with and a gem revealed. *)
Definition sameRound (started live : Mines.Component) : Prop :=
  Mines.tokenBalance live = Mines.tokenBalance started /\
  Mines.betAmount (Mines.gameState live)
  = Mines.betAmount (Mines.gameState started) /\
  Mines.isPlaying (Mines.gameState live) = true /\
  Mines.revealedCount (Mines.gameState live) <> 0%nat /\
  0 <= Mines.currentMultiplier (Mines.gameState live).

(** A render of a Blackjack hand that is still played, with the balance
    and the bet the hand was dealt with. *)
Definition sameHand (started live : Blackjack.Component) : Prop :=
  Blackjack.tokenBalance live = Blackjack.tokenBalance started /\
  Blackjack.betAmount (Blackjack.gameState live)
  = Blackjack.betAmount (Blackjack.gameState started) /\
  Blackjack.gamePhase (Blackjack.gameState live) = Blackjack.playing.

End RoundTrip.

(** ** Real functions of [Math]

    The ball physics of Plinko needs [Math.sqrt], [Math.atan2], [Math.cos]
    and [Math.sin].  Their values are kept to 9 decimals: [sqrt] is the root
    rounded down, exact on the square of a number of 9 decimals.  An angle
    is kept as the point of the unit circle it names, so that
    [cos (atan2 dy dx)] is [dx / sqrt (dx² + dy²)]; adding a small angle
    turns the point with the sine and cosine series cut after the terms of
    degree 13 and 12. *)

Module Real.
Import JS.

Definition DIGITS : nat := 9.

(** A number of at most 9 decimals. *)
Definition decimal (v : Q) : Prop := exists n : Z, v == n # pow10 DIGITS.

Definition Math_sqrt (v : Q) : Q :=
  Z.sqrt (Qfloor (v * inject_Z (Zpos (pow10 (2 * DIGITS))))) # pow10 DIGITS.

Record Angle := mkAngle { cosOf : Q; sinOf : Q }.

Definition Math_atan2 (dy dx : Q) : Angle :=
  let d := Math_sqrt (dx * dx + dy * dy) in
  if eqb d 0 then mkAngle 1 0
  else mkAngle (toFixed DIGITS (dx / d)) (toFixed DIGITS (dy / d)).

Definition cosSeries (t : Q) : Q :=
  let t2 := t * t in
  1 - t2 / 2 * (1 - t2 / 12 * (1 - t2 / 30 * (1 - t2 / 56 *
      (1 - t2 / 90 * (1 - t2 / 132))))).

Definition sinSeries (t : Q) : Q :=
  let t2 := t * t in
  t * (1 - t2 / 6 * (1 - t2 / 20 * (1 - t2 / 42 * (1 - t2 / 72 *
      (1 - t2 / 110 * (1 - t2 / 156)))))).

(** [angle + t] for a small [t]. *)
Definition addAngle (a : Angle) (t : Q) : Angle :=
  mkAngle (toFixed DIGITS (cosOf a * cosSeries t - sinOf a * sinSeries t))
          (toFixed DIGITS (sinOf a * cosSeries t + cosOf a * sinSeries t)).

Definition Math_cos (a : Angle) : Q := cosOf a.
Definition Math_sin (a : Angle) : Q := sinOf a.

End Real.

(** ** Plinko ([PlinkoGame]) *)

Module Plinko.
Import JS Tokens Real.
Local Open Scope async_scope.

Definition CANVAS_WIDTH : Q := 800.
Definition PIN_RADIUS : Q := 3.
Definition BALL_RADIUS : Q := 5.
Definition PIN_SPACING : Q := 35.
Definition GRAVITY : Q := 25 # 100.
Definition BOUNCE_DAMPING : Q := 6 # 10.

Inductive Risk := Low | Medium | High.

Definition MULTIPLIERS (risk : Risk) : list Q :=
  match risk with
  | Low =>
      [56 # 10; 23 # 10; 16 # 10; 14 # 10; 13 # 10; 11 # 10; 1; 5 # 10; 3 # 10;
       5 # 10; 1; 11 # 10; 13 # 10; 14 # 10; 16 # 10; 23 # 10; 56 # 10]
  | Medium =>
      [112 # 10; 34 # 10; 21 # 10; 16 # 10; 13 # 10; 11 # 10; 9 # 10; 4 # 10;
       2 # 10; 4 # 10; 9 # 10; 11 # 10; 13 # 10; 16 # 10; 21 # 10; 34 # 10;
       112 # 10]
  | High =>
      [224 # 10; 45 # 10; 26 # 10; 18 # 10; 13 # 10; 1; 7 # 10; 3 # 10; 1 # 10;
       3 # 10; 7 # 10; 1; 13 # 10; 18 # 10; 26 # 10; 45 # 10; 224 # 10]
  end.

(** [{ range: [lo, hi], multiplier }] as [(lo, hi, multiplier)]. *)
Definition RISK_DISTRIBUTIONS (risk : Risk) : list (Q * Q * Q) :=
  match risk with
  | Low =>
      [(0, 5 # 100, 56 # 10); (5 # 100, 15 # 100, 23 # 10);
       (15 # 100, 30 # 100, 16 # 10); (30 # 100, 45 # 100, 14 # 10);
       (45 # 100, 60 # 100, 13 # 10); (60 # 100, 75 # 100, 11 # 10);
       (75 # 100, 90 # 100, 1); (90 # 100, 1, 5 # 10)]
  | Medium =>
      [(0, 3 # 100, 112 # 10); (3 # 100, 10 # 100, 34 # 10);
       (10 # 100, 25 # 100, 21 # 10); (25 # 100, 40 # 100, 16 # 10);
       (40 # 100, 60 # 100, 13 # 10); (60 # 100, 80 # 100, 11 # 10);
       (80 # 100, 95 # 100, 9 # 10); (95 # 100, 1, 4 # 10)]
  | High =>
      [(0, 2 # 100, 224 # 10); (2 # 100, 7 # 100, 45 # 10);
       (7 # 100, 20 # 100, 26 # 10); (20 # 100, 35 # 100, 18 # 10);
       (35 # 100, 55 # 100, 13 # 10); (55 # 100, 75 # 100, 1);
       (75 # 100, 90 # 100, 7 # 10); (90 # 100, 1, 3 # 10)]
  end.

(** [Array.prototype.indexOf]: the first index holding the value, or -1. *)
Fixpoint indexOfFrom (i : Z) (v : Q) (l : list Q) : Z :=
  match l with
  | [] => (-1)%Z
  | w :: l' => if eqb w v then i else indexOfFrom (i + 1) v l'
  end.
Definition indexOf (v : Q) (l : list Q) : Z := indexOfFrom 0 v l.

Definition inRange (random : Q) (entry : Q * Q * Q) : bool :=
  (random >=? fst (fst entry)) && (random <? snd (fst entry)).

Definition determineFinalBucket (risk : Risk) (random : Q) : Z :=
  match List.find (inRange random) (RISK_DISTRIBUTIONS risk) with
  | Some entry => indexOf (snd entry) (MULTIPLIERS risk)
  | None =>
      Math_floor (inject_Z (Z.of_nat (length (MULTIPLIERS risk))) / 2)
  end.

Definition startXOf (row : nat) : Q :=
  (CANVAS_WIDTH - (inject_Z (Z.of_nat (row + 3)) - 1) * PIN_SPACING) / 2.

Fixpoint pathFrom (targetX : Q) (rows : nat) (row n : nat) (currentX : Q)
  : list Z :=
  match n with
  | O => []
  | S n' =>
      let startX := startXOf row in
      let progress := inject_Z (Z.of_nat row) / inject_Z (Z.of_nat rows) in
      let desiredX := currentX + (targetX - currentX) * progress in
      let pinIndex := Math_round ((desiredX - startX) / PIN_SPACING) in
      let pinX := startX + inject_Z pinIndex * PIN_SPACING in
      (if pinX <? desiredX then 1%Z else 0%Z)
        :: pathFrom targetX rows (S row) n' (Qred pinX)
  end.

Definition calculatePathToTarget (targetBucket : Z) (rows : nat) : list Z :=
  let bucketWidth :=
    CANVAS_WIDTH / inject_Z (Z.of_nat (length (MULTIPLIERS Medium))) in
  let targetX := (inject_Z targetBucket + (1 # 2)) * bucketWidth in
  pathFrom targetX rows 0 rows (CANVAS_WIDTH / 2).

Record Velocity := mkVelocity { vx : Q; vy : Q }.

Record Ball := mkBall {
  x : Q;
  y : Q;
  velocity : Velocity;
  radius : Q;
  active : bool;
  path : list Z;
  pathIndex : nat
}.

Record GameState := mkGameState {
  betAmount : Q;
  risk : Risk;
  rows : nat;
  isDropping : bool;
  lastWin : option Q
}.

Definition initialState : GameState := mkGameState 20 Medium 16 false None.

Record Component := mkComponent {
  tokenBalance : Q;
  gameState : GameState;
  currentBall : option Ball
}.

Definition mount (balance : Q) : Component :=
  mkComponent balance initialState None.

(** The pins of the board, row by row as the two loops visit them. *)
Definition pinsOf (rows : nat) : list (Q * Q) :=
  flat_map
    (fun row =>
       map (fun pin =>
              (Qred (startXOf row + inject_Z (Z.of_nat pin) * PIN_SPACING),
               100 + inject_Z (Z.of_nat row) * PIN_SPACING))
           (seq 0 (row + 3)))
    (seq 0 rows).

(** The source of randomness: the value of the [k]-th call of
    [Math.random()]; a state carries the number of calls made so far. *)
Definition RandomSource : Type := nat -> Q.

(** A coordinate or a speed of the ball, kept to 9 decimals. *)
Definition kept (v : Q) : Q := toFixed DIGITS v.

(** The body of the pin loops for one pin. *)
Definition collide (random : RandomSource) (s : Ball * nat) (pin : Q * Q)
  : Ball * nat :=
  let b := fst s in
  let k := snd s in
  let pinX := fst pin in
  let pinY := snd pin in
  let dx := x b - pinX in
  let dy := y b - pinY in
  let distance := Math_sqrt (dx * dx + dy * dy) in
  if distance <? radius b + PIN_RADIUS then
    let angle := Math_atan2 dy dx in
    let bounceAngle := addAngle angle (random k * (2 # 10) - (1 # 10)) in
    let speed :=
      Math_sqrt (vx (velocity b) * vx (velocity b)
                 + vy (velocity b) * vy (velocity b)) in
    (mkBall
       (kept (pinX + (radius b + PIN_RADIUS + 1) * Math_cos angle))
       (kept (pinY + (radius b + PIN_RADIUS + 1) * Math_sin angle))
       (mkVelocity
          (kept (Math_cos bounceAngle * speed * BOUNCE_DAMPING))
          (kept (Math_abs (Math_sin bounceAngle * speed * BOUNCE_DAMPING))))
       (radius b) (active b) (path b) (pathIndex b), S k)
  else s.

(** The steering at the row the path has reached. *)
Definition steer (b : Ball) (vx0 : Q) : Q * nat :=
  if (pathIndex b <? length (path b))%nat then
    let pinY := 100 + inject_Z (Z.of_nat (pathIndex b)) * PIN_SPACING in
    if Math_abs (y b - pinY) <? 5 then
      let direction := nth (pathIndex b) (path b) 0%Z in
      ((if (direction =? 0)%Z then - (1) else 1) * 2, S (pathIndex b))
    else (vx0, pathIndex b)
  else (vx0, pathIndex b).

(** A bounce off the side walls. *)
Definition walls (r x1 vx1 : Q) : Q * Q :=
  if x1 - r <? 0 then (r, vx1 * - BOUNCE_DAMPING)
  else if x1 + r >? CANVAS_WIDTH then (CANVAS_WIDTH - r, vx1 * - BOUNCE_DAMPING)
  else (x1, vx1).

(** The physics of one animation frame of [updateBall]. *)
Definition moveBall (rows : nat) (random : RandomSource) (s : Ball * nat)
  : Ball * nat :=
  let b := fst s in
  let k := snd s in
  let vy1 := vy (velocity b) + GRAVITY in
  let steered := steer b (vx (velocity b)) in
  let vx1 := fst steered + (random k - (1 # 2)) * (1 # 10) in
  let bounced := walls (radius b) (x b + vx1) vx1 in
  fold_left (collide random) (pinsOf rows)
    (mkBall (kept (fst bounced)) (kept (y b + vy1))
       (mkVelocity (kept (snd bounced)) (kept vy1))
       (radius b) (active b) (path b) (snd steered), S k).

Definition bucketY (rows : nat) : Q :=
  100 + inject_Z (Z.of_nat rows) * PIN_SPACING.

(** The bucket under the ball and the multiplier written on it. *)
Definition landingBucket (risk : Risk) (b : Ball) : nat :=
  let multipliers := MULTIPLIERS risk in
  let bucketWidth := CANVAS_WIDTH / inject_Z (Z.of_nat (length multipliers)) in
  let bucketIndex := Math_floor (x b / bucketWidth) in
  Z.to_nat (Z.min bucketIndex (Z.of_nat (length multipliers) - 1)).

Definition landingMultiplier (risk : Risk) (b : Ball) : Q :=
  nth (landingBucket risk b) (MULTIPLIERS risk) 0.

(** The settlement of [updateBall], for a ball that has reached the
    buckets. *)
Definition settle (user : option string) (b : Ball) (c : Component) (e : Env)
  : Component * Env :=
  let gs := gameState c in
  let stopped :=
    mkComponent (tokenBalance c)
      (mkGameState (betAmount gs) (risk gs) (rows gs) false (lastWin gs)) None in
  match user with
  | None => (stopped, e)
  | Some userId =>
      let multiplier := landingMultiplier (risk gs) b in
      let winnings := toFixed 2 (betAmount gs * multiplier) in
      let profit := toFixed 2 (winnings - betAmount gs) in
      let newBalance := toFixed 2 (tokenBalance c + winnings) in
      match (updateTokenBalance userId newBalance ;;
             if profit >? 0
             then recordGameTransaction userId plinko profit true
             else resolve tt) e with
      | (Rejected _, e1) =>
          (mkComponent
             (match balanceOf userId e1 with
              | Some stored => stored
              | None => tokenBalance c
              end)
             (gameState stopped) None, e1)
      | (Resolved _, e1) =>
          (mkComponent newBalance
             (mkGameState (betAmount gs) (risk gs) (rows gs) false
                (Some profit)) None, e1)
      end
  end.

(** [updateBall], one call of the animation loop.  A settlement is
    followed to its end within the call; in the component the ball stays
    active while the settlement waits for the store, and the frames that
    come in the meantime start the settlement again. *)
Definition updateBall (user : option string) (random : RandomSource)
    (s : Component * Env * nat) : Component * Env * nat :=
  let c := fst (fst s) in
  let e := snd (fst s) in
  let k := snd s in
  match currentBall c with
  | None => s
  | Some ball =>
      if active ball then
        let moved := moveBall (rows (gameState c)) random (ball, k) in
        let c1 :=
          mkComponent (tokenBalance c) (gameState c) (Some (fst moved)) in
        if y (fst moved) >=? bucketY (rows (gameState c))
        then (settle user (fst moved) c1 e, snd moved)
        else (c1, e, snd moved)
      else s
  end.

Fixpoint animate (frames : nat) (user : option string) (random : RandomSource)
    (s : Component * Env * nat) : Component * Env * nat :=
  match frames with
  | O => s
  | S n => animate n user random (updateBall user random s)
  end.

Definition dropBall (user : option string) (random : RandomSource)
    (s : Component * Env * nat) : Component * Env * nat :=
  let c := fst (fst s) in
  let e := snd (fst s) in
  let k := snd s in
  let gs := gameState c in
  if betAmount gs <=? 0 then s
  else if betAmount gs >? tokenBalance c then s
  else if isDropping gs then s
  else
    match user with
    | None => s
    | Some userId =>
        match recordGameTransaction userId plinko (betAmount gs) false e with
        | (Rejected _, e1) => (c, e1, k)
        | (Resolved _, e1) =>
            let newBalance := toFixed 2 (tokenBalance c - betAmount gs) in
            match updateTokenBalance userId newBalance e1 with
            | (Rejected _, e2) => (c, e2, k)
            | (Resolved _, e2) =>
                let targetBucket := determineFinalBucket (risk gs) (random k) in
                let path := calculatePathToTarget targetBucket (rows gs) in
                let startX :=
                  CANVAS_WIDTH / 2 + (random (S k) * 10 - 5) in
                (mkComponent newBalance
                   (mkGameState (betAmount gs) (risk gs) (rows gs) true None)
                   (Some (mkBall (kept startX) 50 (mkVelocity 0 0) BALL_RADIUS
                                 true path 0)),
                 e2, S (S k))
            end
        end
    end.

(** The controls ([select] of risk and rows, bet input), disabled while a
    ball drops. *)
Definition configure (bet : Q) (r : Risk) (n : nat) (c : Component)
  : Component :=
  if isDropping (gameState c) then c
  else mkComponent (tokenBalance c)
         (mkGameState (Math_max 0 bet) r n false (lastWin (gameState c)))
         (currentBall c).

(** A ball falling or bouncing straight above the middle pin of the top
    row: on the axis of the board, with no sideways speed, out of the reach
    of the pin, the path not begun.  [vy² + g·vy - 2g·y], which a frame of
    free fall keeps and a bounce on the pin lowers, is no more than it was
    at the drop, from a height of 50 at rest. *)
Definition aboveTopPin (b : Ball) : Prop :=
  x b == CANVAS_WIDTH / 2 /\ vx (velocity b) == 0 /\
  decimal (y b) /\ decimal (vy (velocity b)) /\
  50 <= y b /\ y b <= 92 /\ 0 <= vy (velocity b) /\
  vy (velocity b) * vy (velocity b) + GRAVITY * vy (velocity b)
    - 2 * GRAVITY * y b <= - (25) /\
  radius b == BALL_RADIUS /\ active b = true /\ pathIndex b = 0%nat.

(** Two sources of randomness: every call returns 0, every call returns
    1/2. *)
Definition alwaysZero : RandomSource := fun _ => 0.
Definition alwaysHalf : RandomSource := fun _ => 1 # 2.

(** A drop of 20 tokens at low risk on 8 rows, by a player holding 100. *)
Definition sampleDrop (random : RandomSource) : Component * Env * nat :=
  dropBall (Some "alice") random
    (configure 20 Low 8 (mount 100), aliceEnv true, O).

End Plinko.

From Stdlib Require Import Qpower.

(** ** The balance cache ([getTokenBalance]) *)

Module TokenCache.
Import JS Tokens.
Local Open Scope async_scope.

(** [getTokenBalance].  [user] is what [supabase.auth.getUser()] returns and
    [fresh] the outcome of [Date.now() - cachedBalance.timestamp <
    CACHE_DURATION], the age test of the cached entry. *)
Definition getTokenBalance (user : option string) (fresh : bool) : Async Q :=
  fun e =>
    let read : Async Q :=
      match user with
      | None => throw "User not authenticated"
      | Some userId =>
          let! balance := selectBalance userId "Failed to get token balance" in
          setCache balance ;;
          resolve balance
      end in
    match cachedBalance e with
    | Some value => if fresh then (Resolved value, e) else read e
    | None => read e
    end.

End TokenCache.

(** ** The deck of Blackjack ([createDeck], [shuffle]) *)

Module Deck.
Import JS Blackjack.

Definition SUITS : list Suit := [Spades; Hearts; Diamonds; Clubs].
Definition VALUES : list Value :=
  [VA; V2; V3; V4; V5; V6; V7; V8; V9; V10; VJ; VQ; VK].

(** The deck the two loops of [createDeck] build, before it is shuffled. *)
Definition sorted : list Card :=
  flat_map (fun s => map (fun v => card s v) VALUES) SUITS.

(** [[deck[i], deck[j]] = [deck[j], deck[i]]], for places of the deck. *)
Definition swap (i j : nat) (deck : list Card) : list Card :=
  match deck !! i, deck !! j with
  | Some a, Some b => <[i := b]> (<[j := a]> deck)
  | _, _ => deck
  end.

(** The loop of [shuffle] from place [i] down to 1; [random k] is the value
    of the [k]-th call of [Math.random()], a number of [0, 1), so that [j]
    is a place of the deck no later than [i]. *)
Fixpoint shuffleFrom (random : nat -> Q) (k i : nat) (deck : list Card)
  : list Card :=
  match i with
  | O => deck
  | S i' =>
      let j := Z.to_nat (Math_floor (random k * inject_Z (Z.of_nat (i + 1)))) in
      shuffleFrom random (S k) i' (swap i j deck)
  end.

Definition shuffle (random : nat -> Q) (deck : list Card) : list Card :=
  shuffleFrom random 0 (length deck - 1) deck.

Definition createDeck (random : nat -> Q) : list Card := shuffle random sorted.

(** The hand counted with every ace as 1. *)
Definition hardTotal (hand : list Card) : Z :=
  fold_left (fun s c => (s + numericValue c)%Z) hand 0%Z
  - 10 * Z.of_nat (length (filter (fun c => isAce c = true) hand)).

(** What the player can do once the cards are dealt, and a round as the
    moves made one after the other. *)
Inductive Move := Hit | Stand.

Definition move (user : option string) (m : Move)
    (s : Component * Tokens.Env) : Component * Tokens.Env :=
  match m with
  | Hit => hit user (fst s) (snd s)
  | Stand => stand user (fst s) (snd s)
  end.

Definition playRound (user : option string) (ms : list Move)
    (s : Component * Tokens.Env) : Component * Tokens.Env :=
  fold_left (fun s m => move user m s) ms s.

(** All the cards of the table: the two hands and the deck. *)
Definition cardsOf (c : Component) : list Card :=
  playerHand (gameState c) ++ dealerHand (gameState c) ++ deck (gameState c).

End Deck.

(** ** The board of Mines ([initializeGame]) *)

Module Board.
Import JS Mines.

(** A cell drawn by two calls of [Math.random()]. *)
Definition drawCell (random : nat -> Q) (k : nat) : nat * nat :=
  (Z.to_nat (Math_floor (random k * inject_Z (Z.of_nat GRID_SIZE))),
   Z.to_nat (Math_floor (random (S k) * inject_Z (Z.of_nat GRID_SIZE)))).

(** [while (minePositions.size < mineCount)]: [fuel] bounds the number of
    turns of the loop, [None] when it is used up; the result carries the
    number of draws made. *)
Fixpoint placeMines (fuel : nat) (random : nat -> Q) (k : nat)
    (mineCount : nat) (minePositions : gset (nat * nat))
  : option (gset (nat * nat) * nat) :=
  if (size minePositions <? mineCount)%nat then
    match fuel with
    | O => None
    | S fuel' =>
        let pos := drawCell random k in
        placeMines fuel' random (S (S k)) mineCount
          (if bool_decide (pos ∈ minePositions) then minePositions
           else minePositions ∪ {[pos]})
    end
  else Some (minePositions, k).

(** [while (gemsToPlace > 0 && gemPositions.size < gemCount)] *)
Fixpoint placeGems (fuel : nat) (random : nat -> Q) (k : nat)
    (gemCount gemsToPlace : nat) (minePositions gemPositions : gset (nat * nat))
  : option (gset (nat * nat) * nat) :=
  if (0 <? gemsToPlace)%nat && (size gemPositions <? gemCount)%nat then
    match fuel with
    | O => None
    | S fuel' =>
        let pos := drawCell random k in
        if negb (bool_decide (pos ∈ minePositions))
           && negb (bool_decide (pos ∈ gemPositions))
        then placeGems fuel' random (S (S k)) gemCount (gemsToPlace - 1)
               minePositions (gemPositions ∪ {[pos]})
        else placeGems fuel' random (S (S k)) gemCount gemsToPlace
               minePositions gemPositions
    end
  else Some (gemPositions, k).

(** [initializeGame]: the mines first, then the gems in what is left. *)
Definition initializeGame (fuel : nat) (random : nat -> Q)
    (mineCount gemCount : nat)
  : option (gset (nat * nat) * gset (nat * nat)) :=
  match placeMines fuel random 0 mineCount ∅ with
  | None => None
  | Some (minePositions, k) =>
      match placeGems fuel random k gemCount gemCount minePositions ∅ with
      | None => None
      | Some (gemPositions, _) => Some (minePositions, gemPositions)
      end
  end.

(** A cell of the 5 by 5 grid. *)
Definition onGrid (p : nat * nat) : Prop :=
  (fst p < GRID_SIZE)%nat /\ (snd p < GRID_SIZE)%nat.

(** The cells of the grid, the cells drawn in [n] turns of a loop whose
    first draw is the [k]-th, and draws that meet every cell in any [n]
    turns in a row that start among the first [n]. *)
Definition cells : list (nat * nat) :=
  flat_map (fun x => map (fun y => (x, y)) (seq 0 GRID_SIZE)) (seq 0 GRID_SIZE).

Definition drawn (random : nat -> Q) (k n : nat) : list (nat * nat) :=
  map (fun i => drawCell random (k + 2 * i)%nat) (seq 0 n).

Definition covers (n : nat) (random : nat -> Q) : Prop :=
  Forall (fun t => Forall (fun p => p ∈ drawn random (2 * t) n) cells)
         (seq 0 (S n)).

(** The cell shows as revealed, and the number of gems that do. *)
Definition shown (g : list (list Cell)) (p : nat * nat) : bool :=
  match cellAt g p with
  | Some revealed => true
  | _ => false
  end.

Definition gemsShown (gs : GameState) : nat :=
  length (filter (fun p => shown (grid gs) p = true)
                 (elements (gemPositions gs))).

End Board.

(** * Properties *)

(** ** Comparisons and rounding *)

Section JSFacts.
Import JS.

Lemma leb_le x y : (x <=? y) = true <-> x <= y.
Proof. apply Qle_bool_iff. Qed.

Lemma leb_gt x y : (x <=? y) = false <-> y < x.
Proof.
  unfold leb. split; intros H.
  - apply Qnot_le_lt. intros Hle. apply Qle_bool_iff in Hle. congruence.
  - destruct (Qle_bool x y) eqn:E; [|reflexivity].
    apply Qle_bool_iff in E. exfalso. apply (Qlt_not_le _ _ H E).
Qed.

Lemma ltb_lt x y : (x <? y) = true <-> x < y.
Proof. unfold ltb. rewrite Bool.negb_true_iff. apply leb_gt. Qed.

Lemma ltb_ge x y : (x <? y) = false <-> y <= x.
Proof. unfold ltb. rewrite Bool.negb_false_iff. apply leb_le. Qed.

Lemma gtb_gt x y : (x >? y) = true <-> y < x.
Proof. apply ltb_lt. Qed.

Lemma gtb_le x y : (x >? y) = false <-> x <= y.
Proof. apply ltb_ge. Qed.

Global Instance leb_proper : Proper (Qeq ==> Qeq ==> eq) leb.
Proof. exact Qleb_comp. Qed.

Global Instance ltb_proper : Proper (Qeq ==> Qeq ==> eq) ltb.
Proof. intros a b E c d F. unfold ltb. now rewrite E, F. Qed.

Lemma Math_max_l x y : x <= Math_max x y.
Proof.
  unfold Math_max. destruct (y <=? x) eqn:E; [lra|].
  apply leb_gt in E. lra.
Qed.

Lemma Math_max_r x y : y <= Math_max x y.
Proof.
  unfold Math_max. destruct (y <=? x) eqn:E; [|lra].
  now apply leb_le in E.
Qed.

Lemma Math_max_zero_of_neg x : x <= 0 -> Math_max 0 x == 0.
Proof.
  intros H. unfold Math_max. destruct (x <=? 0) eqn:E; [reflexivity|].
  apply leb_gt in E. lra.
Qed.

Lemma Math_max_zero_of_nonneg x : 0 <= x -> Math_max 0 x == x.
Proof.
  intros H. unfold Math_max. destruct (x <=? 0) eqn:E; [|reflexivity].
  apply leb_le in E. lra.
Qed.

Global Instance Math_max_proper : Proper (Qeq ==> Qeq ==> Qeq) Math_max.
Proof.
  intros a b E c d F. unfold Math_max.
  rewrite (leb_proper _ _ F _ _ E). now destruct (d <=? b).
Qed.

Lemma pow10_scale digits : 0 < inject_Z (Zpos (pow10 digits)).
Proof. reflexivity. Qed.

(** [toFixed] only looks at the value of its argument. *)
Global Instance toFixed_proper digits : Proper (Qeq ==> eq) (toFixed digits).
Proof.
  intros x y E. unfold toFixed.
  rewrite (leb_proper 0 0 (Qeq_refl 0) _ _ E).
  assert (Hf : Qfloor (Qabs x * inject_Z (Zpos (pow10 digits)) + (1 # 2))
             = Qfloor (Qabs y * inject_Z (Zpos (pow10 digits)) + (1 # 2))).
  { apply Qfloor_comp. now rewrite E. }
  now rewrite Hf.
Qed.

Lemma toFixed_nonneg digits x : 0 <= x -> 0 <= toFixed digits x.
Proof.
  intros H. unfold toFixed.
  assert (E : (0 <=? x) = true) by now apply leb_le.
  rewrite E.
  set (n := Qfloor (Qabs x * inject_Z (Zpos (pow10 digits)) + (1 # 2))).
  assert (Hn : (0 <= n)%Z).
  { change 0%Z with (Qfloor 0). apply Qfloor_resp_le.
    assert (0 <= Qabs x) by apply Qabs_nonneg.
    pose proof (pow10_scale digits). nra. }
  unfold Qle. cbn [Qnum Qden]. lia.
Qed.

(** The rounded value is within half a unit of the last kept digit. *)
Lemma toFixed_error digits x :
  Qabs (toFixed digits x - x) <= 1 # (2 * pow10 digits).
Proof.
  unfold toFixed.
  set (p := pow10 digits).
  set (n := Qfloor (Qabs x * inject_Z (Zpos p) + (1 # 2))).
  pose proof (Qfloor_le (Qabs x * inject_Z (Zpos p) + (1 # 2))) as Hlo.
  pose proof (Qlt_floor (Qabs x * inject_Z (Zpos p) + (1 # 2))) as Hhi.
  fold n in Hlo, Hhi.
  assert (Hn1 : inject_Z (n + 1) == inject_Z n + 1)
    by (rewrite inject_Z_plus; reflexivity).
  rewrite Hn1 in Hhi.
  assert (Hp : 0 < inject_Z (Zpos p)) by reflexivity.
  assert (Hq : forall z : Z, z # p == inject_Z z / inject_Z (Zpos p))
    by (intros z; apply Qmake_Qdiv).
  set (s := inject_Z (Zpos p)) in *.
  set (e := 1 # (2 * p)).
  assert (He : e * s == 1 # 2).
  { unfold e, s, Qeq, Qmult, inject_Z. cbn [Qnum Qden]. lia. }
  assert (Hr : forall z : Z, (z # p) * s == inject_Z z).
  { intros z. rewrite Hq. fold s. field. lra. }
  apply Qabs_Qle_condition.
  destruct (0 <=? x) eqn:E.
  - apply leb_le in E. rewrite (Qabs_pos x E) in Hlo, Hhi.
    specialize (Hr n). split; nra.
  - apply leb_gt in E.
    rewrite (Qabs_neg x) in Hlo, Hhi by lra.
    specialize (Hr (- n)%Z). rewrite inject_Z_opp in Hr.
    split; nra.
Qed.

End JSFacts.

Section RoundingFacts.
Import JS.

Lemma Qfloor_unique (y : Q) (m : Z) :
  inject_Z m <= y -> y < inject_Z (m + 1) -> Qfloor y = m.
Proof.
  intros Hlo Hhi.
  pose proof (Qfloor_le y) as H1. pose proof (Qlt_floor y) as H2.
  assert (A : inject_Z (Qfloor y) < inject_Z (m + 1)) by lra.
  assert (B : inject_Z m < inject_Z (Qfloor y + 1)) by lra.
  rewrite <- Zlt_Qlt in A, B. lia.
Qed.

(** A value that already has [digits] decimals is left alone. *)
Lemma toFixed_decimal digits (n : Z) :
  toFixed digits (n # pow10 digits) = (n # pow10 digits).
Proof.
  unfold toFixed. set (p := pow10 digits).
  assert (Hs : forall z : Z, (z # p) * inject_Z (Zpos p) == inject_Z z).
  { intros z. unfold Qeq, Qmult, inject_Z. cbn [Qnum Qden]. lia. }
  destruct (0 <=? n # p) eqn:E.
  - apply leb_le in E. f_equal.
    apply Qfloor_unique.
    + rewrite (Qabs_pos _ E), Hs. lra.
    + rewrite (Qabs_pos _ E), Hs, inject_Z_plus.
      change (inject_Z 1) with 1. lra.
  - apply leb_gt in E. f_equal.
    assert (Hf : Qfloor (Qabs (n # p) * inject_Z (Zpos p) + (1 # 2)) = (- n)%Z).
    { apply Qfloor_unique.
      + rewrite (Qabs_neg (n # p)) by lra.
        assert (H := Hs n). rewrite inject_Z_opp. nra.
      + rewrite (Qabs_neg (n # p)) by lra.
        assert (H := Hs n). rewrite inject_Z_plus, inject_Z_opp.
        change (inject_Z 1) with 1. nra. }
    rewrite Hf. lia.
Qed.

(** For a non-negative value the tie goes up. *)
Lemma toFixed_half_up digits x :
  0 <= x ->
  x - (1 # (2 * pow10 digits)) < toFixed digits x /\
  toFixed digits x <= x + (1 # (2 * pow10 digits)).
Proof.
  intros Hx. unfold toFixed.
  assert (E : (0 <=? x) = true) by now apply leb_le.
  rewrite E. set (p := pow10 digits).
  set (n := Qfloor (Qabs x * inject_Z (Zpos p) + (1 # 2))).
  pose proof (Qfloor_le (Qabs x * inject_Z (Zpos p) + (1 # 2))) as Hlo.
  pose proof (Qlt_floor (Qabs x * inject_Z (Zpos p) + (1 # 2))) as Hhi.
  fold n in Hlo, Hhi.
  rewrite inject_Z_plus in Hhi. change (inject_Z 1) with 1 in Hhi.
  rewrite (Qabs_pos x Hx) in Hlo, Hhi.
  set (s := inject_Z (Zpos p)) in *.
  assert (Hp : 0 < s) by reflexivity.
  set (e := 1 # (2 * p)).
  assert (He : e * s == 1 # 2).
  { unfold e, s, Qeq, Qmult, inject_Z. cbn [Qnum Qden]. lia. }
  assert (Hr : (n # p) * s == inject_Z n).
  { unfold s, Qeq, Qmult, inject_Z. cbn [Qnum Qden]. lia. }
  split; nra.
Qed.

Lemma cents_toFixed x : cents (toFixed 2 x).
Proof. unfold toFixed. eexists. reflexivity. Qed.

Lemma toFixed_cents x : cents x -> toFixed 2 x == x.
Proof.
  intros [n Hn]. rewrite (toFixed_proper 2 _ _ Hn).
  change (n # 100) with (n # pow10 2).
  rewrite toFixed_decimal. now rewrite Hn.
Qed.

Lemma cents_plus x y : cents x -> cents y -> cents (x + y).
Proof.
  intros [n Hn] [m Hm]. exists (n + m)%Z. rewrite Hn, Hm.
  unfold Qeq, Qplus. cbn [Qnum Qden]. lia.
Qed.

Lemma cents_minus x y : cents x -> cents y -> cents (x - y).
Proof.
  intros [n Hn] [m Hm]. exists (n - m)%Z. rewrite Hn, Hm.
  unfold Qeq, Qminus, Qplus, Qopp. cbn [Qnum Qden]. lia.
Qed.

Global Instance cents_proper : Proper (Qeq ==> iff) cents.
Proof.
  intros x y E. unfold cents. split; intros [n Hn]; exists n.
  - now rewrite <- E.
  - now rewrite E.
Qed.

(** What the ledger stores for a requested balance. *)
Lemma stored_of_cents x : cents x -> 0 <= x -> toFixed 2 (Math_max 0 x) == x.
Proof.
  intros Hc Hx.
  rewrite (toFixed_proper 2 _ _ (Math_max_zero_of_nonneg x Hx)).
  now apply toFixed_cents.
Qed.

End RoundingFacts.


(** ** The ledger *)

Section LedgerFacts.
Import JS Tokens.

Lemma Math_max_Qmax x y : Math_max x y == Qmax x y.
Proof.
  unfold Math_max. destruct (y <=? x) eqn:E.
  - apply leb_le in E. symmetry. now apply Q.max_l.
  - apply leb_gt in E. symmetry. apply Q.max_r. lra.
Qed.

Lemma insert_after_alter (m : gmap string Q) (f : Q -> Q) u r :
  <[u := r]> (alter f u m) = <[u := r]> m.
Proof.
  apply map_eq. intros k. destruct (decide (u = k)) as [->|Hne].
  - now rewrite !lookup_insert_eq.
  - rewrite !lookup_insert_ne by done. now rewrite lookup_alter_ne.
Qed.

Lemma updateTokenBalance_found u v e b :
  balanceOf u e = Some b ->
  updateTokenBalance u v e =
    (Resolved (toFixed 2 (Math_max 0 v)),
     mkEnv (mkDatabase (<[u := toFixed 2 (Math_max 0 v)]> (profiles (supabase e)))
                       (token_transactions (supabase e))
                       (game_triggers (supabase e)))
           (Some (toFixed 2 (Math_max 0 v)))).
Proof.
  unfold balanceOf. intros Hb.
  unfold updateTokenBalance, await, updateBalanceRow, setCache, resolve.
  now rewrite Hb.
Qed.

Lemma updateTokenBalance_missing u v e :
  balanceOf u e = None ->
  updateTokenBalance u v e = (Rejected "Failed to update token balance", e).
Proof.
  unfold balanceOf. intros Hb.
  unfold updateTokenBalance, await, updateBalanceRow.
  now rewrite Hb.
Qed.

(** The insert keeps the profile and changes at most its balance. *)
Lemma insertRow_shape t d d' :
  insertRow t d = Some d' ->
  token_transactions d' = token_transactions d ++ [t] /\
  game_triggers d' = game_triggers d /\
  (forall r, <[user_id t := r]> (profiles d') = <[user_id t := r]> (profiles d)) /\
  (is_Some (profiles d !! user_id t) -> is_Some (profiles d' !! user_id t)).
Proof.
  unfold insertRow. intros H.
  destruct (game_triggers d) eqn:Ht.
  - destruct (valid_game_type (game_type t)); [|discriminate].
    destruct (transaction_type t).
    + injection H as <-. cbn. repeat split; auto.
      * intros r. apply insert_after_alter.
      * intros [b Hb]. rewrite lookup_alter_eq, Hb. cbn. eauto.
    + destruct (profiles d !! user_id t) as [b|] eqn:Hb; [|discriminate].
      destruct (token_amount t <=? b); [|discriminate].
      injection H as <-. cbn. repeat split; auto.
      * intros r. apply insert_insert_eq.
      * intros _. rewrite lookup_insert_eq. eauto.
    + injection H as <-. cbn. repeat split; auto.
      * intros r. apply insert_after_alter.
      * intros [b Hb]. rewrite lookup_alter_eq, Hb. cbn. eauto.
  - injection H as <-. cbn. repeat split; auto.
Qed.

(** A ledger call either rejects and leaves everything as it was, or
    appends its row and stores the clamped, rounded new balance. *)
Lemma recordGameTransaction_cases u g amount isWin e :
  (exists m, recordGameTransaction u g amount isWin e = (Rejected m, e)) \/
  (exists b,
     balanceOf u e = Some b /\
     (isWin = false -> amount <= b) /\
     let nb := if isWin then b + amount else b - amount in
     recordGameTransaction u g amount isWin e =
       (Resolved tt,
        mkEnv (mkDatabase
                 (<[u := toFixed 2 (Math_max 0 nb)]> (profiles (supabase e)))
                 (token_transactions (supabase e) ++ [rowOf u g amount isWin])
                 (game_triggers (supabase e)))
              (Some nb))).
Proof.
  unfold recordGameTransaction, await, selectBalance, insertTransaction, balanceOf.
  cbv zeta. fold (rowOf u g amount isWin).
  destruct (profiles (supabase e) !! u) as [b|] eqn:Hb; [|left; eauto].
  destruct (negb isWin && (amount >? b)) eqn:Hg; [left; unfold throw; eauto|].
  destruct (insertRow (rowOf u g amount isWin) (supabase e)) as [d'|] eqn:Hi;
    [|left; eauto].
  right. exists b. split; [reflexivity|]. split.
  { intros ->. cbn in Hg. now apply gtb_le in Hg. }
  destruct (insertRow_shape _ _ _ Hi) as (Hlog & Htrig & Hprof & Hkeep).
  cbn [rowOf user_id] in Hprof, Hkeep.
  destruct (Hkeep (ex_intro _ b Hb)) as [b' Hb'].
  rewrite (updateTokenBalance_found u _ _ b') by exact Hb'.
  cbn. unfold setCache. cbn. rewrite Hprof, Hlog, Htrig. reflexivity.
Qed.

Lemma insertRow_accepted u g amount isWin b e :
  balanceOf u e = Some b -> accepted g amount isWin b e ->
  exists d', insertRow (rowOf u g amount isWin) (supabase e) = Some d'.
Proof.
  unfold balanceOf, accepted, insertRow. intros Hb Hacc.
  destruct (game_triggers (supabase e)); [|eauto].
  destruct (Hacc eq_refl) as [Hv Hs]. cbn [rowOf game_type]. rewrite Hv.
  destruct isWin; cbn; [eauto|].
  rewrite Hb.
  assert (E : (toFixed 2 amount <=? b) = true) by (apply leb_le; auto).
  rewrite E. eauto.
Qed.

Lemma recordGameTransaction_resolved u g amount isWin e b :
  balanceOf u e = Some b ->
  (isWin = false -> amount <= b) ->
  accepted g amount isWin b e ->
  let nb := if isWin then b + amount else b - amount in
  recordGameTransaction u g amount isWin e =
    (Resolved tt,
     mkEnv (mkDatabase
              (<[u := toFixed 2 (Math_max 0 nb)]> (profiles (supabase e)))
              (token_transactions (supabase e) ++ [rowOf u g amount isWin])
              (game_triggers (supabase e)))
           (Some nb)).
Proof.
  intros Hb Hle Hacc nb.
  destruct (insertRow_accepted u g amount isWin b e Hb Hacc) as [d' Hi].
  destruct (recordGameTransaction_cases u g amount isWin e)
    as [[m Hr]|(b' & Hb' & _ & Hr)].
  - exfalso. revert Hr.
    unfold recordGameTransaction, await, selectBalance, insertTransaction.
    cbv zeta. fold (rowOf u g amount isWin).
    unfold balanceOf in Hb. rewrite Hb.
    assert (Hg : negb isWin && (amount >? b) = false).
    { destruct isWin; [reflexivity|]. cbn. apply gtb_le. auto. }
    rewrite Hg, Hi.
    destruct (insertRow_shape _ _ _ Hi) as (_ & _ & _ & Hkeep).
    cbn [rowOf user_id] in Hkeep.
    destruct (Hkeep (ex_intro _ b Hb)) as [b2 Hb2].
    rewrite (updateTokenBalance_found u _ _ b2) by exact Hb2.
    cbn. discriminate.
  - rewrite Hb in Hb'. injection Hb' as <-. exact Hr.
Qed.

(** The credit of a settlement followed by the overwrite of the balance. *)
Lemma settle_resolved u g profit newBalance e b :
  balanceOf u e = Some b ->
  (game_triggers (supabase e) = true -> valid_game_type g = true) ->
  await (recordGameTransaction u g profit true)
        (fun _ => updateTokenBalance u newBalance) e =
    (Resolved (toFixed 2 (Math_max 0 newBalance)),
     mkEnv (mkDatabase
              (<[u := toFixed 2 (Math_max 0 newBalance)]> (profiles (supabase e)))
              (token_transactions (supabase e) ++ [rowOf u g profit true])
              (game_triggers (supabase e)))
           (Some (toFixed 2 (Math_max 0 newBalance)))).
Proof.
  intros Hb Hv. unfold await.
  rewrite (recordGameTransaction_resolved u g profit true e b Hb).
  - cbv zeta.
    erewrite updateTokenBalance_found
      by (unfold balanceOf; cbn; apply lookup_insert_eq).
    cbn. now rewrite insert_insert_eq.
  - discriminate.
  - intros Ht. split; [auto|discriminate].
Qed.

(** A settlement that rejects has written nothing. *)
Lemma settle_cases u g profit newBalance e :
  (exists m, await (recordGameTransaction u g profit true)
               (fun _ => updateTokenBalance u newBalance) e = (Rejected m, e)) \/
  (exists v e',
     await (recordGameTransaction u g profit true)
           (fun _ => updateTokenBalance u newBalance) e = (Resolved v, e') /\
     log e' = log e ++ [rowOf u g profit true]).
Proof.
  unfold await.
  destruct (recordGameTransaction_cases u g profit true e)
    as [[m ->]|(b & Hb & _ & ->)]; [left; eauto|].
  right. cbv zeta.
  erewrite updateTokenBalance_found
    by (unfold balanceOf; cbn; apply lookup_insert_eq).
  do 2 eexists. split; [reflexivity|reflexivity].
Qed.

Lemma spend_overdraft_rejected u g amount e b :
  balanceOf u e = Some b -> b < amount ->
  spend u g amount e = (Rejected "Insufficient token balance", e).
Proof.
  unfold spend, recordGameTransaction, await, selectBalance, balanceOf.
  intros Hb Hlt. rewrite Hb.
  assert (E : (amount >? b) = true) by now apply gtb_gt.
  now rewrite E.
Qed.

Lemma call_nonnegative c e : nonnegative e -> nonnegative (call c e).
Proof.
  intros He.
  assert (Hset : forall u v b0, balanceOf u e = Some b0 ->
            nonnegative (snd (updateTokenBalance u v e))).
  { intros u v b0 Hb. rewrite (updateTokenBalance_found _ _ _ _ Hb). cbn.
    intros k b. unfold balanceOf. cbn.
    destruct (decide (u = k)) as [->|Hne].
    - rewrite lookup_insert_eq. intros [= <-].
      apply toFixed_nonneg, Math_max_l.
    - rewrite lookup_insert_ne by done. apply He. }
  assert (Hrec : forall u g a w,
            nonnegative (snd (recordGameTransaction u g a w e))).
  { intros u g a w.
    destruct (recordGameTransaction_cases u g a w e) as [[m ->]|(b & Hb & _ & ->)];
      [exact He|].
    cbn. intros k bk. unfold balanceOf. cbn.
    destruct (decide (u = k)) as [->|Hne].
    - rewrite lookup_insert_eq. intros [= <-].
      apply toFixed_nonneg, Math_max_l.
    - rewrite lookup_insert_ne by done. apply He. }
  destruct c as [u g a|u g a|u v]; cbn [call].
  - apply Hrec.
  - apply Hrec.
  - destruct (balanceOf u e) as [b0|] eqn:Hb.
    + now apply (Hset u v b0).
    + now rewrite (updateTokenBalance_missing _ _ _ Hb).
Qed.

Lemma runCalls_nonnegative cs : forall e, nonnegative e -> nonnegative (runCalls cs e).
Proof.
  induction cs as [|c cs IH]; intros e He; cbn [runCalls]; [exact He|].
  apply IH, call_nonnegative, He.
Qed.

Lemma aliceEnv_nonnegative triggers : nonnegative (aliceEnv triggers).
Proof.
  intros u b. unfold balanceOf, aliceEnv. cbn.
  intros H. apply lookup_singleton_Some in H as [_ <-]. discriminate.
Qed.

(** C1. Starting from non-negative balances, no history of spend, credit and
    balance-write calls makes any profile's persisted balance negative; and
    in every state so reached a spend larger than the persisted balance of
    its account rejects with "Insufficient token balance" and leaves the
    store (balances and transaction rows) and the cache exactly as they
    were.  The check reads the stored balance: the cache plays no part. *)
Theorem ledger_nonnegative_and_overdraft_rejected (e : Env) :
  nonnegative e ->
  forall cs : list LedgerCall,
    let e' := runCalls cs e in
    nonnegative e' /\
    (forall u g amount b,
        balanceOf u e' = Some b -> b < amount ->
        spend u g amount e' = (Rejected "Insufficient token balance", e') /\
        balanceOf u (snd (spend u g amount e')) = Some b /\
        log (snd (spend u g amount e')) = log e').
Proof.
  intros He cs e'. split.
  - now apply runCalls_nonnegative.
  - intros u g amount b Hb Hlt.
    rewrite (spend_overdraft_rejected u g amount e' b Hb Hlt). cbn.
    repeat split; auto.
Qed.

Lemma ledger_nonnegative_and_overdraft_rejected_witness :
  nonnegative (aliceEnv true) /\
  let e' := runCalls [Spend "alice" dice 20; Credit "alice" dice (196 # 10)]
                     (aliceEnv true) in
  nonnegative e' /\
  (forall u g amount b,
      balanceOf u e' = Some b -> b < amount ->
      spend u g amount e' = (Rejected "Insufficient token balance", e') /\
      balanceOf u (snd (spend u g amount e')) = Some b /\
      log (snd (spend u g amount e')) = log e').
Proof.
  split.
  - apply aliceEnv_nonnegative.
  - apply (ledger_nonnegative_and_overdraft_rejected (aliceEnv true)).
    apply aliceEnv_nonnegative.
Defined.

(** C10. A balance write on an existing profile resolves, and the value it
    stores and returns is the two-decimal value nearest to
    [max(0, requested)] (a tie going up); a negative request is therefore
    stored as 0, not rejected. *)
Theorem updateTokenBalance_stores_clamped_rounded
    (e : Env) (u : string) (requested b : Q) :
  balanceOf u e = Some b ->
  exists v e',
    updateTokenBalance u requested e = (Resolved v, e') /\
    balanceOf u e' = Some v /\
    (exists n : Z, v = n # 100) /\
    Qmax 0 requested - (1 # 200) < v /\
    v <= Qmax 0 requested + (1 # 200) /\
    (requested < 0 -> v == 0) /\
    log e' = log e.
Proof.
  intros Hb.
  exists (toFixed 2 (Math_max 0 requested)).
  eexists. split; [apply (updateTokenBalance_found _ _ _ _ Hb)|].
  split; [unfold balanceOf; cbn; apply lookup_insert_eq|].
  split; [unfold toFixed; eexists; reflexivity|].
  assert (Hm : Math_max 0 requested == Qmax 0 requested) by apply Math_max_Qmax.
  assert (H0 : 0 <= Math_max 0 requested) by apply Math_max_l.
  destruct (toFixed_half_up 2 _ H0) as [Hlo Hhi].
  change (2 * pow10 2)%positive with 200%positive in Hlo, Hhi.
  repeat split; auto; try lra.
  intros Hneg.
  rewrite (toFixed_proper 2 _ _ (Math_max_zero_of_neg requested (Qlt_le_weak _ _ Hneg))).
  reflexivity.
Qed.

Lemma updateTokenBalance_stores_clamped_rounded_witness :
  balanceOf "alice" (aliceEnv false) = Some 100 /\
  exists v e',
    updateTokenBalance "alice" (- (5 # 1)) (aliceEnv false) = (Resolved v, e') /\
    balanceOf "alice" e' = Some v /\
    (exists n : Z, v = n # 100) /\
    Qmax 0 (- (5 # 1)) - (1 # 200) < v /\
    v <= Qmax 0 (- (5 # 1)) + (1 # 200) /\
    (- (5 # 1) < 0 -> v == 0) /\
    log e' = log (aliceEnv false).
Proof.
  split.
  - reflexivity.
  - apply (updateTokenBalance_stores_clamped_rounded (aliceEnv false) "alice"
             (- (5 # 1)) 100).
    reflexivity.
Defined.

End LedgerFacts.

(** ** Dice *)

Section DiceFacts.
Import JS Tokens.

(** The multiplier the slider computes is 99/target rounded to four
    decimals. *)
Lemma dice_calculateMultiplier_rounds (t : Q) :
  0 < t ->
  (exists n : Z, Dice.calculateMultiplier t = n # 10000) /\
  99 / t - (1 # 20000) < Dice.calculateMultiplier t /\
  Dice.calculateMultiplier t <= 99 / t + (1 # 20000).
Proof.
  intros Ht. unfold Dice.calculateMultiplier. split.
  - unfold toFixed. eexists. reflexivity.
  - assert (H0 : 0 <= 99 / t).
    { apply Qle_shift_div_l; [exact Ht|]. lra. }
    destruct (toFixed_half_up 4 _ H0) as [Hlo Hhi].
    change (2 * pow10 4)%positive with 20000%positive in Hlo, Hhi.
    split; assumption.
Qed.

Lemma dice_calculateMultiplier_50 : Dice.calculateMultiplier 50 == 198 # 100.
Proof. reflexivity. Qed.

(** Moving the slider keeps the target within [1, 98] and sets the
    multiplier from it. *)
Lemma dice_moveSlider_target (p : Q) (c : Dice.Component) :
  Dice.isRolling (Dice.gameState c) = false ->
  let gs := Dice.gameState (Dice.moveSlider p c) in
  1 <= Dice.targetNumber gs /\ Dice.targetNumber gs <= 98 /\
  Dice.multiplier gs = Dice.calculateMultiplier (Dice.targetNumber gs).
Proof.
  intros Hr. unfold Dice.moveSlider. rewrite Hr. cbn.
  split; [apply Math_max_l|]. split; [|reflexivity].
  unfold Math_max, Math_min.
  destruct (98 <=? p) eqn:E1; destruct (_ <=? 1) eqn:E2;
    try apply leb_le in E1; try apply leb_gt in E1;
    try apply leb_le in E2; try apply leb_gt in E2; lra.
Qed.

(** C3. The end-to-end Dice scenario (balance 100, bet 20, target 50 set on
    the slider so the multiplier is 1.98, draw 0.30): the round wins and
    writes two rows, a [game_spend] of 20 and a [game_win] of 19.60, but the
    balance it leaves in the store is 139.60, not 119.60: the last write is
    [tokenBalance + winnings] with the balance from before the bet. *)
Theorem dice_scenario_stores_139_60 (triggers : bool) :
  let c := Dice.moveSlider 50 (Dice.mount 100) in
  let r := Dice.rollDice (Some "alice") (3 # 10) c (aliceEnv triggers) in
  Dice.multiplier (Dice.gameState c) == 198 # 100 /\
  Dice.lastResult (Dice.gameState (fst r)) = Some ((3 # 10) * 100) /\
  (exists b, balanceOf "alice" (snd r) = Some b /\
             b == 1396 # 10 /\ ~ b == 1196 # 10) /\
  map transaction_type (log (snd r)) = [game_spend; game_win] /\
  Forall2 Qeq (map token_amount (log (snd r))) [20; 196 # 10].
Proof.
  destruct triggers; vm_compute;
    (split; [reflexivity|]; split; [reflexivity|];
     split; [eexists; split; [reflexivity|]; split; [reflexivity|discriminate]|];
     split; [reflexivity|]; repeat constructor).
Qed.

(** C5. The component mounts with target 50 and multiplier 2, while
    [calculateMultiplier 50] is 1.98; a round played before the slider is
    touched is paid at 2: the [game_win] row holds 20 and the stored balance
    ends at 140. *)
Theorem dice_default_round_paid_at_2 (triggers : bool) :
  let c := Dice.mount 100 in
  let r := Dice.rollDice (Some "alice") (3 # 10) c (aliceEnv triggers) in
  Dice.targetNumber (Dice.gameState c) == 50 /\
  Dice.multiplier (Dice.gameState c) == 2 /\
  Dice.calculateMultiplier (Dice.targetNumber (Dice.gameState c)) == 198 # 100 /\
  Dice.lastWin (Dice.gameState (fst r)) = Some (toFixed 2 (20 * 2) - 20) /\
  Forall2 Qeq (map token_amount (log (snd r))) [20; 20] /\
  (exists b, balanceOf "alice" (snd r) = Some b /\ b == 140).
Proof.
  destruct triggers; vm_compute;
    (split; [reflexivity|]; split; [reflexivity|]; split; [reflexivity|];
     split; [reflexivity|]; split; [repeat constructor|];
     eexists; split; reflexivity).
Qed.

End DiceFacts.

(** ** Crash *)

Section CrashFacts.
Import JS Tokens.

(** For a draw in [0, 1) the hash [h] lies in [0, 2^32), so the divisor
    [e - h] of the crash point is positive. *)
Lemma crash_hash_range (draw : Q) :
  0 <= draw -> draw < 1 ->
  (0 <= Qfloor (draw * inject_Z (2 ^ 32)) < 2 ^ 32)%Z.
Proof.
  intros H0 H1. split.
  - change 0%Z with (Qfloor 0). apply Qfloor_resp_le.
    assert (0 < inject_Z (2 ^ 32)) by reflexivity. nra.
  - pose proof (Qfloor_le (draw * inject_Z (2 ^ 32))) as Hf.
    assert (Hlt : inject_Z (Qfloor (draw * inject_Z (2 ^ 32))) < inject_Z (2 ^ 32)).
    { assert (0 < inject_Z (2 ^ 32)) by reflexivity. nra. }
    now rewrite <- Zlt_Qlt in Hlt.
Qed.

(** C7. With [E = 2^32] and [H = floor(draw * E)] the crash point is exactly
    1 when [H = 0] and [max(1, (100 E - H) / (E - H)) * 0.99] otherwise; for
    a draw in [0, 1) [H] stays below [E]. *)
Theorem crash_point_formula (draw : Q) :
  let E := inject_Z (2 ^ 32) in
  let H := Qfloor (draw * E) in
  (H = 0%Z -> Crash.calculateCrashPoint draw = 1) /\
  (H <> 0%Z ->
     Crash.calculateCrashPoint draw
     == Qmax 1 ((100 * E - inject_Z H) / (E - inject_Z H)) * (99 # 100)) /\
  (0 <= draw -> draw < 1 -> (0 <= H < 2 ^ 32)%Z).
Proof.
  intros E H. unfold Crash.calculateCrashPoint, Math_floor. fold E. fold H.
  repeat split.
  - intros ->. reflexivity.
  - intros Hne. apply Z.eqb_neq in Hne. rewrite Hne.
    unfold Crash.HOUSE_EDGE. now rewrite Math_max_Qmax.
  - now apply crash_hash_range.
  - now apply crash_hash_range.
Qed.

(** A settled round ignores the cash-out button. *)
Lemma crash_cashout_settled user c e :
  Crash.isSettled c = true -> Crash.cashout user c e = (c, e).
Proof.
  unfold Crash.isSettled, Crash.cashout, Crash.cashoutFrom. now intros ->.
Qed.

(** Once a round has crashed or has been cashed out, nothing that follows
    touches the store or the cache. *)
Lemma crash_play_frozen snap user evs :
  forall c e,
    Crash.cashedOut (Crash.gameState c) = true \/
    Crash.crashed (Crash.gameState c) = true ->
    snd (Crash.play snap user evs (c, e)) = e.
Proof.
  unfold Crash.play.
  induction evs as [|ev evs IH]; intros c e Hc; cbn [fold_left]; [reflexivity|].
  assert (Hstep : snd (Crash.step snap user ev (c, e)) = e /\
                  (Crash.cashedOut (Crash.gameState (fst (Crash.step snap user ev (c, e)))) = true \/
                   Crash.crashed (Crash.gameState (fst (Crash.step snap user ev (c, e)))) = true)).
  { destruct ev; cbn [Crash.step fst snd].
    - unfold Crash.tick.
      destruct (Crash.isFlying _ && negb _) eqn:Hfly; [|auto].
      apply andb_prop in Hfly as [_ Hncr]. apply Bool.negb_true_iff in Hncr.
      destruct Hc as [Hco|Hcr]; [|congruence].
      destruct (_ >=? Crash.crashPoint c).
      + split; [reflexivity|]. right. unfold Crash.crashEffect. cbn.
        destruct (Crash.hasBet _); reflexivity.
      + rewrite Hco. cbn [negb]. rewrite Bool.andb_false_r.
        split; [reflexivity|]. left. exact Hco.
    - rewrite crash_cashout_settled; [auto|].
      unfold Crash.isSettled. destruct Hc as [-> | ->].
      + apply Bool.orb_true_r.
      + apply Bool.orb_true_iff. left. apply Bool.orb_true_r. }
  destruct (Crash.step snap user ev (c, e)) as [c' e'].
  cbn [fst snd] in Hstep. destruct Hstep as [-> Hc'].
  now apply IH.
Qed.

End CrashFacts.

(** ** Mines *)

Section MinesFacts.
Import JS Tokens.

Lemma mines_cashout_settled user c e :
  Mines.isPlaying (Mines.gameState c) = false -> Mines.cashout user c e = (c, e).
Proof. unfold Mines.cashout. now intros ->. Qed.

Lemma mines_revealTile_settled user row col c e :
  Mines.isPlaying (Mines.gameState c) = false ->
  Mines.revealTile user row col c e = (c, e).
Proof. unfold Mines.revealTile. now intros ->. Qed.

Lemma mines_payOut_state u bet winnings profit c e o c1 e1 :
  Mines.payOut u bet winnings profit c e = (o, (c1, e1)) ->
  Mines.gameState c1 = Mines.gameState c.
Proof.
  unfold Mines.payOut. destruct (bet >? 0).
  - destruct (await _ _ e) as [[v|m] e']; intros [= <- <- <-]; reflexivity.
  - intros [= <- <- <-]. reflexivity.
Qed.

Lemma mines_play_settled user evs :
  forall c e, Mines.isPlaying (Mines.gameState c) = false ->
              Mines.play user evs (c, e) = (c, e).
Proof.
  unfold Mines.play.
  induction evs as [|ev evs IH]; intros c e Hpl; cbn [fold_left]; [reflexivity|].
  destruct ev; cbn [Mines.step fst snd].
  - rewrite mines_revealTile_settled by exact Hpl. now apply IH.
  - rewrite mines_cashout_settled by exact Hpl. now apply IH.
Qed.

(** The multiplier on the boards a round can have, 1 to 25 gems and fewer
    than 25 of them revealed, pair by pair: it is within half a cent of
    [0.99 / (g / (25 - k))], it is not negative, and the next gem lowers
    it. *)
Lemma mines_calculateMultiplier_table :
  forallb (fun g =>
    forallb (fun k =>
      let exact :=
        (99 # 100) / (inject_Z (Z.of_nat g) / (25 - inject_Z (Z.of_nat k))) in
      let v := Mines.calculateMultiplier k 0 g in
      (exact - (1 # 200) <=? v) && (v <=? exact + (1 # 200)) && (0 <=? v)
      && ((24 <=? k)%nat || (Mines.calculateMultiplier (S k) 0 g <? v)))
    (seq 0 25)) (seq 1 25) = true.
Proof. vm_compute. reflexivity. Qed.

Lemma mines_calculateMultiplier_rounds (k m g : nat) :
  (0 < g)%nat -> (g <= 25)%nat -> (k < 25)%nat ->
  let exact := (99 # 100) / (inject_Z (Z.of_nat g) / (25 - inject_Z (Z.of_nat k))) in
  (exists n : Z, Mines.calculateMultiplier k m g = n # 100) /\
  exact - (1 # 200) <= Mines.calculateMultiplier k m g /\
  Mines.calculateMultiplier k m g <= exact + (1 # 200) /\
  0 <= Mines.calculateMultiplier k m g /\
  ((S k < 25)%nat ->
   Mines.calculateMultiplier (S k) m g < Mines.calculateMultiplier k m g).
Proof.
  intros Hg Hg25 Hk exact. split.
  { unfold Mines.calculateMultiplier, toFixed. eexists. reflexivity. }
  pose proof mines_calculateMultiplier_table as T.
  rewrite List.forallb_forall in T.
  specialize (T g ltac:(apply in_seq; lia)).
  rewrite List.forallb_forall in T.
  specialize (T k ltac:(apply in_seq; lia)).
  cbv zeta in T.
  change (Mines.calculateMultiplier k 0 g)
    with (Mines.calculateMultiplier k m g) in T.
  change (Mines.calculateMultiplier (S k) 0 g)
    with (Mines.calculateMultiplier (S k) m g) in T.
  fold exact in T.
  apply andb_prop in T as [T T4]. apply andb_prop in T as [T T3].
  apply andb_prop in T as [T1 T2].
  apply leb_le in T1, T2, T3.
  split; [exact T1|]. split; [exact T2|]. split; [exact T3|].
  intros Hk1. apply orb_prop in T4 as [T4|T4].
  - apply Nat.leb_le in T4. lia.
  - now apply ltb_lt in T4.
Qed.

Lemma mines_first_gem_10_15 : Mines.calculateMultiplier 1 10 15 == 158 # 100.
Proof. vm_compute. reflexivity. Qed.

(** The literal [0.99] is the double [0x1.fae147ae147aep-1]; and a tie:
    [0.99 / (2 / 23)] is 11.385, the doubles give a little less, and
    [toFixed] returns 11.38. *)
Lemma literal_0_99_bits :
  Binary64.literal_0_99
  = SpecFloat.S754_finite false 8917127262193582 (-53).
Proof. vm_compute. reflexivity. Qed.

Lemma mines_tie_2_2 (m : nat) :
  (99 # 100) / (2 / (25 - 2)) == 11385 # 1000 /\
  Mines.calculateMultiplier 2 m 2 == 1138 # 100.
Proof. split; vm_compute; reflexivity. Qed.

End MinesFacts.

(** ** The round trip of a won round *)

Section RoundTripFacts.
Import JS Tokens RoundTrip.

Lemma orb3_false a b c : a = false -> b = false -> c = false -> a || b || c = false.
Proof. now intros -> -> ->. Qed.

(** The rows of a won Dice round. *)
Lemma dice_won_rows u c e before finalDraw :
  let gs := Dice.gameState c in
  let bet := Dice.betAmount gs in
  let winnings := toFixed 2 (bet * Dice.multiplier gs) in
  balanceOf u e = Some before ->
  0 < bet -> bet <= Dice.tokenBalance c -> bet <= before -> cents bet ->
  Dice.isRolling gs = false ->
  finalDraw * 100 <= Dice.targetNumber gs ->
  rowsNet u bet winnings e (snd (Dice.rollDice (Some u) finalDraw c e)) /\
  Dice.lastWin (Dice.gameState (fst (Dice.rollDice (Some u) finalDraw c e)))
  = Some (winnings - bet).
Proof.
  intros gs bet winnings Hb Hpos Htb Hle Hc Hr Hwon.
  unfold Dice.rollDice. fold gs. fold bet.
  rewrite orb3_false; [| apply leb_gt, Hpos | apply gtb_le, Htb | exact Hr].
  assert (Hfix : toFixed 2 bet == bet) by now apply toFixed_cents.
  rewrite (recordGameTransaction_resolved u dice bet false e before Hb).
  2:{ intros _. exact Hle. }
  2:{ intros _. split; [reflexivity|]. intros _. lra. }
  cbv zeta.
  assert (Ew : (finalDraw * 100 <=? Dice.targetNumber gs) = true)
    by now apply leb_le.
  rewrite Ew. fold winnings.
  match goal with
  | |- context [await ?a ?k ?env] =>
      rewrite (settle_resolved u dice (winnings - bet)
                 (toFixed 2 (Dice.tokenBalance c + winnings)) env
                 (toFixed 2 (Math_max 0 (before - bet))))
  end.
  2:{ unfold balanceOf. cbn. apply lookup_insert_eq. }
  2:{ reflexivity. }
  cbn. split; [|reflexivity].
  exists (rowOf u dice bet false), (rowOf u dice (winnings - bet) true).
  split.
  { unfold log. cbn. now rewrite <- app_assoc. }
  cbn. repeat split; auto.
  apply toFixed_cents. apply cents_minus; [apply cents_toFixed|exact Hc].
Qed.

(** A won Crash round: bet placed, then cashed out from a later render of
    the same flight. *)
Lemma crash_won_round u c e before draw live :
  let gs := Crash.gameState c in
  let bet := Crash.betAmount gs in
  let started := Crash.startGame (Some u) draw c e in
  let winnings := toFixed 2 (bet * Crash.multiplier (Crash.gameState live)) in
  let settled := Crash.cashout (Some u) live (snd started) in
  balanceOf u e = Some before -> Crash.tokenBalance c == before ->
  cents before -> cents bet -> 0 < bet -> bet <= before ->
  Crash.isFlying gs = false ->
  sameFlight (fst started) live ->
  rowsNet u bet winnings e (snd settled) /\
  balanceSettled u bet winnings e (snd settled) /\
  Crash.isSettled (fst settled) = true.
Proof.
  intros gs bet started winnings settled Hb Htb Hcb Hc Hpos Hle Hfl Hlive.
  assert (Hstart : started =
            (Crash.mkComponent (toFixed 2 (Crash.tokenBalance c - bet))
               (Crash.mkGameState 1 true false bet true
                  (Crash.targetMultiplier gs) (Crash.autoCashoutAt gs) None false
                  (S (Crash.gamesPlayed gs)) (Crash.winsInSession gs))
               (Crash.calculateCrashPoint draw),
             mkEnv (mkDatabase
                      (<[u := toFixed 2 (Math_max 0 (before - bet))]>
                         (profiles (supabase e)))
                      (token_transactions (supabase e) ++ [rowOf u crash bet false])
                      (game_triggers (supabase e)))
                   (Some (before - bet)))).
  { unfold started, Crash.startGame. fold gs. fold bet.
    rewrite orb3_false;
      [| apply leb_gt, Hpos | apply gtb_le; rewrite Htb; exact Hle | exact Hfl].
    rewrite (recordGameTransaction_resolved u crash bet false e before Hb).
    - reflexivity.
    - intros _. exact Hle.
    - intros _. split; [reflexivity|]. intros _.
      rewrite (toFixed_cents bet Hc). exact Hle. }
  destruct Hlive as (Hltb & Hlbet & Hlfl & Hlm).
  rewrite Hstart in Hltb, Hlbet. cbn in Hltb, Hlbet.
  unfold Crash.inFlight in Hlfl.
  apply andb_prop in Hlfl as [Hlfl Hco]. apply andb_prop in Hlfl as [Hlfl Hhb].
  apply andb_prop in Hlfl as [_ Hcr].
  apply Bool.negb_true_iff in Hco, Hcr.
  assert (Hw0 : 0 <= winnings).
  { apply toFixed_nonneg. nra. }
  assert (Htb1 : toFixed 2 (Crash.tokenBalance c - bet) == before - bet).
  { rewrite <- Htb. apply toFixed_cents. apply cents_minus; [|exact Hc].
    now rewrite Htb. }
  assert (Hnb : toFixed 2 (toFixed 2 (Crash.tokenBalance c - bet) + winnings)
                == before - bet + winnings).
  { rewrite <- Htb1. apply toFixed_cents.
    apply cents_plus; apply cents_toFixed. }
  unfold settled, Crash.cashout, Crash.cashoutFrom.
  rewrite Hhb, Hcr, Hco. cbn [negb orb].
  rewrite Hlbet, Hltb. fold winnings.
  rewrite Hstart. cbn [snd].
  match goal with
  | |- context [await ?a ?k ?env] =>
      rewrite (settle_resolved u crash (toFixed 2 (winnings - bet))
                 (toFixed 2 (toFixed 2 (Crash.tokenBalance c - bet) + winnings))
                 env (toFixed 2 (Math_max 0 (before - bet))))
  end.
  2:{ unfold balanceOf. cbn. apply lookup_insert_eq. }
  2:{ reflexivity. }
  cbn [fst snd]. split; [|split].
  - exists (rowOf u crash bet false), (rowOf u crash (toFixed 2 (winnings - bet)) true).
    split.
    { unfold log. cbn. now rewrite <- app_assoc. }
    cbn. repeat split; auto.
    + now apply toFixed_cents.
    + transitivity (toFixed 2 (winnings - bet)).
      * apply toFixed_cents, cents_toFixed.
      * apply toFixed_cents. apply cents_minus; [apply cents_toFixed|exact Hc].
  - exists before. eexists. split; [exact Hb|]. split.
    { unfold balanceOf. cbn. apply lookup_insert_eq. }
    rewrite <- Hnb. apply stored_of_cents; [apply cents_toFixed|].
    rewrite Hnb. lra.
  - unfold Crash.isSettled. cbn. reflexivity.
Qed.

(** The claim as worded fails on the won Dice round of the end-to-end
    scenario: the stored balance is not 100 - 20 + 39.60 and the
    [game_win] row does not hold the winnings 39.60. *)
Lemma won_round_trip_as_stated_fails :
  let c := Dice.moveSlider 50 (Dice.mount 100) in
  let e1 := snd (Dice.rollDice (Some "alice") (3 # 10) c (aliceEnv false)) in
  toFixed 2 (20 * Dice.multiplier (Dice.gameState c)) == 396 # 10 /\
  ~ balanceSettled "alice" 20 (396 # 10) (aliceEnv false) e1 /\
  ~ rowsAsStated "alice" 20 (396 # 10) (aliceEnv false) e1.
Proof.
  cbv zeta. split; [reflexivity|]. split.
  - intros (before & after & H0 & H1 & Heq).
    vm_compute in H0, H1. injection H0 as <-. injection H1 as <-.
    vm_compute in Heq. discriminate.
  - intros (s & w & Hlog & _ & _ & _ & Hw).
    vm_compute in Hlog. injection Hlog as _ <-.
    vm_compute in Hw. discriminate.
Qed.

End RoundTripFacts.

(** ** Blackjack *)

Section BlackjackFacts.
Import JS Tokens.

Lemma blackjack_ace_king s1 s2 :
  Blackjack.calculateScore [Blackjack.card s1 Blackjack.VA;
                            Blackjack.card s2 Blackjack.VK] = 21%Z /\
  Blackjack.isNaturalBlackjack [Blackjack.card s1 Blackjack.VA;
                                Blackjack.card s2 Blackjack.VK] = true.
Proof. split; reflexivity. Qed.

(** The comparison of the code agrees with the standard rules on who wins;
    what the standard rules call a push it counts as not won. *)
Lemma blackjack_wins_iff_standard_win p d :
  Blackjack.playerWinsWith p d = true <-> Blackjack.standardResult p d = Blackjack.Win.
Proof.
  unfold Blackjack.playerWinsWith, Blackjack.standardResult,
    Blackjack.isNaturalBlackjack.
  destruct (21 <? Blackjack.calculateScore p)%Z; [split; discriminate|].
  destruct (21 <? Blackjack.calculateScore d)%Z; [split; reflexivity|].
  destruct ((Blackjack.calculateScore p =? 21)%Z && (length p =? 2)%nat);
    destruct ((Blackjack.calculateScore d =? 21)%Z && (length d =? 2)%nat);
    cbn [negb andb];
    destruct (Blackjack.calculateScore d <? Blackjack.calculateScore p)%Z;
    try (split; reflexivity); try (split; discriminate);
    destruct (Blackjack.calculateScore p <? Blackjack.calculateScore d)%Z;
    split; discriminate.
Qed.

Lemma blackjack_push_not_won p d :
  Blackjack.standardResult p d = Blackjack.Push ->
  Blackjack.playerWinsWith p d = false.
Proof.
  intros H. destruct (Blackjack.playerWinsWith p d) eqn:E; [|reflexivity].
  apply blackjack_wins_iff_standard_win in E. congruence.
Qed.

Lemma blackjack_player_bust_first p d :
  (21 < Blackjack.calculateScore p)%Z -> Blackjack.playerWinsWith p d = false.
Proof.
  intros H. unfold Blackjack.playerWinsWith.
  apply Z.ltb_lt in H. now rewrite H.
Qed.

Lemma blackjack_dealer_bust_second p d :
  (Blackjack.calculateScore p <= 21)%Z -> (21 < Blackjack.calculateScore d)%Z ->
  Blackjack.playerWinsWith p d = true.
Proof.
  intros Hp Hd. unfold Blackjack.playerWinsWith.
  apply Z.ltb_ge in Hp. apply Z.ltb_lt in Hd. now rewrite Hp, Hd.
Qed.

(** A hand that is not won credits and returns nothing. *)
Lemma blackjack_not_won_keeps_store snap user isBlackjack live e :
  snd (Blackjack.handleGameEnd snap user false isBlackjack live e) = e.
Proof. unfold Blackjack.handleGameEnd. now destruct user. Qed.

(** The payout of a won hand. *)
Lemma blackjack_won_payout snap u (isBlackjack : bool) live e b :
  let bet := Blackjack.betAmount (Blackjack.gameState snap) in
  let winnings := toFixed 2 (bet * (if isBlackjack then 25 # 10 else 2)) in
  let e1 := snd (Blackjack.handleGameEnd snap (Some u) true isBlackjack live e) in
  balanceOf u e = Some b ->
  cents bet -> cents (Blackjack.tokenBalance snap) ->
  0 <= bet -> 0 <= Blackjack.tokenBalance snap ->
  (exists after, balanceOf u e1 = Some after /\
                 after == Blackjack.tokenBalance snap + winnings) /\
  (exists row, log e1 = log e ++ [row] /\ transaction_type row = game_win /\
               token_amount row == winnings - bet).
Proof.
  intros bet winnings e1 Hb Hc Hct H0 Ht0.
  assert (Hw : winnings = if isBlackjack then toFixed 2 (bet * (25 # 10))
                          else toFixed 2 (bet * 2))
    by (unfold winnings; now destruct isBlackjack).
  assert (Hw0 : 0 <= winnings).
  { unfold winnings. apply toFixed_nonneg. destruct isBlackjack; nra. }
  assert (Hcw : cents winnings) by apply cents_toFixed.
  unfold e1, Blackjack.handleGameEnd. fold bet. rewrite <- Hw.
  rewrite (settle_resolved u blackjack _ _ e b Hb) by reflexivity.
  cbn [snd]. split.
  - eexists. split; [unfold balanceOf; cbn; apply lookup_insert_eq|].
    transitivity (toFixed 2 (Blackjack.tokenBalance snap + winnings)).
    + apply stored_of_cents; [apply cents_toFixed|].
      apply toFixed_nonneg. lra.
    + apply toFixed_cents. now apply cents_plus.
  - eexists. split; [reflexivity|]. split; [reflexivity|]. cbn.
    transitivity (toFixed 2 (winnings - bet)).
    + apply toFixed_cents, cents_toFixed.
    + apply toFixed_cents. now apply cents_minus.
Qed.

(** Two times a two-decimal bet needs no rounding; two and a half times
    does when the bet has an odd number of cents. *)
Lemma blackjack_double_exact bet : cents bet -> toFixed 2 (bet * 2) == bet * 2.
Proof.
  intros [n Hn]. apply toFixed_cents. exists (2 * n)%Z. rewrite Hn.
  unfold Qeq, Qmult. cbn [Qnum Qden]. lia.
Qed.

(** On equal scores the claim would have the bet returned.  With player and
    dealer both on 18 the standard result is a push, and the round leaves
    the stored balance at 80: the bet of 20 is lost. *)
Lemma blackjack_tie_is_a_loss :
  let c0 := Blackjack.mount 100 Blackjack.tieDeck in
  let s1 := Blackjack.startGame (Some "alice") c0 (aliceEnv true) in
  let s2 := Blackjack.stand (Some "alice") (fst s1) (snd s1) in
  Blackjack.standardResult
    (Blackjack.playerHand (Blackjack.gameState (fst s2)))
    (Blackjack.dealerHand (Blackjack.gameState (fst s2))) = Blackjack.Push /\
  Blackjack.playerScore (Blackjack.gameState (fst s2)) = 18%Z /\
  Blackjack.dealerScore (Blackjack.gameState (fst s2)) = 18%Z /\
  Blackjack.gamePhase (Blackjack.gameState (fst s2)) = Blackjack.complete /\
  map transaction_type (log (snd s2)) = [game_spend] /\
  (exists b, balanceOf "alice" (snd s2) = Some b /\ b == 80) /\
  ~ Blackjack.betReturned "alice" (aliceEnv true) (snd s2).
Proof.
  cbv zeta. repeat split; try (vm_compute; reflexivity).
  - eexists. split; vm_compute; reflexivity.
  - intros (b0 & b1 & H0 & H1 & Heq).
    vm_compute in H0, H1. injection H0 as <-. injection H1 as <-.
    vm_compute in Heq. discriminate.
Qed.

(** Standing on what the standard rules call a push writes nothing. *)
Lemma blackjack_stand_on_push user c e hand turned :
  let gs := Blackjack.gameState c in
  Blackjack.gamePhase gs = Blackjack.playing ->
  Blackjack.dealerDraws (Blackjack.dealerHand gs) (reverse (Blackjack.deck gs))
  = Some (hand, turned) ->
  Blackjack.standardResult (Blackjack.playerHand gs) hand = Blackjack.Push ->
  snd (Blackjack.stand user c e) = e /\
  Blackjack.lastWin (Blackjack.gameState (fst (Blackjack.stand user c e))) = None \/
  user = None.
Proof.
  intros gs Hph Hd Hpush.
  destruct user as [u|]; [left|right; reflexivity].
  unfold Blackjack.stand. fold gs. rewrite Hph.
  unfold Blackjack.handleDealerTurn. fold gs. rewrite Hd.
  rewrite (blackjack_push_not_won _ _ Hpush).
  split; reflexivity.
Qed.

(** C8, as the code resolves a hand.  An ace and a king score 21 and are a
    natural blackjack.  The player's bust is checked first and loses, the
    dealer's bust second and wins; the code counts a hand as won exactly
    when the standard rules do, and a hand the standard rules push is not
    won: standing on it writes nothing, the bet stays spent.  A hand that is
    not won leaves the store as it is; a won hand stores the displayed
    balance plus 2.5 times the bet when flagged blackjack and plus 2 times
    the bet otherwise (rounded to two decimals), and records the net
    profit. *)
Theorem blackjack_resolution_push_is_loss :
  (forall s1 s2,
      Blackjack.calculateScore [Blackjack.card s1 Blackjack.VA;
                                Blackjack.card s2 Blackjack.VK] = 21%Z /\
      Blackjack.isNaturalBlackjack [Blackjack.card s1 Blackjack.VA;
                                    Blackjack.card s2 Blackjack.VK] = true) /\
  (forall p d, (21 < Blackjack.calculateScore p)%Z ->
               Blackjack.playerWinsWith p d = false) /\
  (forall p d, (Blackjack.calculateScore p <= 21)%Z ->
               (21 < Blackjack.calculateScore d)%Z ->
               Blackjack.playerWinsWith p d = true) /\
  (forall p d, Blackjack.playerWinsWith p d = true
               <-> Blackjack.standardResult p d = Blackjack.Win) /\
  (forall user c e hand turned,
      Blackjack.gamePhase (Blackjack.gameState c) = Blackjack.playing ->
      Blackjack.dealerDraws (Blackjack.dealerHand (Blackjack.gameState c))
        (reverse (Blackjack.deck (Blackjack.gameState c))) = Some (hand, turned) ->
      Blackjack.standardResult (Blackjack.playerHand (Blackjack.gameState c)) hand
      = Blackjack.Push ->
      snd (Blackjack.stand user c e) = e) /\
  (forall snap user isBlackjack live e,
      snd (Blackjack.handleGameEnd snap user false isBlackjack live e) = e) /\
  (forall snap u (isBlackjack : bool) live e b,
      let bet := Blackjack.betAmount (Blackjack.gameState snap) in
      let winnings := toFixed 2 (bet * (if isBlackjack then 25 # 10 else 2)) in
      let e1 := snd (Blackjack.handleGameEnd snap (Some u) true isBlackjack live e) in
      balanceOf u e = Some b ->
      cents bet -> cents (Blackjack.tokenBalance snap) ->
      0 <= bet -> 0 <= Blackjack.tokenBalance snap ->
      (exists after, balanceOf u e1 = Some after /\
                     after == Blackjack.tokenBalance snap + winnings) /\
      (exists row, log e1 = log e ++ [row] /\ transaction_type row = game_win /\
                   token_amount row == winnings - bet)).
Proof.
  split; [exact blackjack_ace_king|].
  split; [exact blackjack_player_bust_first|].
  split; [exact blackjack_dealer_bust_second|].
  split; [exact blackjack_wins_iff_standard_win|].
  split.
  { intros user c e hand turned Hph Hd Hpush.
    destruct (blackjack_stand_on_push user c e hand turned Hph Hd Hpush)
      as [[He _]| ->]; [exact He|].
    unfold Blackjack.stand. rewrite Hph.
    unfold Blackjack.handleDealerTurn. rewrite Hd. reflexivity. }
  split; [exact blackjack_not_won_keeps_store|].
  exact blackjack_won_payout.
Qed.

(** A won hand of an ace and a king against 19, paid as blackjack with 80
    on display after the bet of 20; and the tie of the sample deal. *)
Lemma blackjack_resolution_push_is_loss_witness :
  let snap :=
    Blackjack.mkComponent 80
      (Blackjack.mkGameState
         [Blackjack.card Blackjack.Spades Blackjack.VA;
          Blackjack.card Blackjack.Spades Blackjack.VK]
         [Blackjack.card Blackjack.Diamonds Blackjack.V9;
          Blackjack.card Blackjack.Clubs Blackjack.VK]
         [] 20 Blackjack.complete 21 19 None) in
  let e0 :=
    mkEnv (mkDatabase {["alice" := 80]}
             [rowOf "alice" blackjack 20 false] true) None in
  let e1 := snd (Blackjack.handleGameEnd snap (Some "alice") true true snap e0) in
  let dealt :=
    Blackjack.startGame (Some "alice")
      (Blackjack.mount 100 Blackjack.tieDeck) (aliceEnv true) in
  (balanceOf "alice" e0 = Some 80 /\
   (exists after, balanceOf "alice" e1 = Some after /\
                  after == 80 + toFixed 2 (20 * (25 # 10))) /\
   (exists row, log e1 = log e0 ++ [row] /\ transaction_type row = game_win /\
                token_amount row == toFixed 2 (20 * (25 # 10)) - 20)) /\
  (Blackjack.gamePhase (Blackjack.gameState (fst dealt)) = Blackjack.playing /\
   snd (Blackjack.stand (Some "alice") (fst dealt) (snd dealt)) = snd dealt).
Proof.
  intros snap e0 e1 dealt.
  pose proof (proj2 (proj2 (proj2 (proj2 (proj2 (proj2
                blackjack_resolution_push_is_loss)))))) as Hpay.
  pose proof (proj1 (proj2 (proj2 (proj2 (proj2
                blackjack_resolution_push_is_loss))))) as Hpush.
  assert (H20 : cents (Blackjack.betAmount (Blackjack.gameState snap)))
    by (exists 2000%Z; reflexivity).
  assert (H80 : cents (Blackjack.tokenBalance snap))
    by (exists 8000%Z; reflexivity).
  assert (Hb0 : 0 <= Blackjack.betAmount (Blackjack.gameState snap))
    by (vm_compute; discriminate).
  assert (Ht0 : 0 <= Blackjack.tokenBalance snap)
    by (vm_compute; discriminate).
  split.
  - split; [reflexivity|].
    exact (Hpay snap "alice" true snap e0 80 eq_refl H20 H80 Hb0 Ht0).
  - split; [vm_compute; reflexivity|].
    apply (Hpush (Some "alice") (fst dealt) (snd dealt)
             [Blackjack.card Blackjack.Diamonds Blackjack.V10;
              Blackjack.card Blackjack.Clubs Blackjack.V8]
             [Blackjack.card Blackjack.Hearts Blackjack.V5]);
      vm_compute; reflexivity.
Defined.

(** The deal of a natural blackjack resolves itself through the render from
    before the deal, whose hands are empty: here the player holds an ace
    and a king against 19, the turn is played with a player score of 0
    against a dealer hand drawn afresh from the undealt deck, and the bet is
    lost. *)
Example blackjack_natural_at_deal :
  let s :=
    Blackjack.startGame (Some "alice")
      (Blackjack.mount 100 Blackjack.naturalDeck) (aliceEnv true) in
  Blackjack.isNaturalBlackjack
    (Blackjack.playerHand (Blackjack.gameState (fst s))) = true /\
  Blackjack.gamePhase (Blackjack.gameState (fst s)) = Blackjack.complete /\
  Blackjack.lastWin (Blackjack.gameState (fst s)) = None /\
  map transaction_type (log (snd s)) = [game_spend] /\
  (exists b, balanceOf "alice" (snd s) = Some b /\ b == 80).
Proof.
  cbv zeta. repeat split; try (vm_compute; reflexivity).
  eexists. split; vm_compute; reflexivity.
Qed.

End BlackjackFacts.

(** ** Plinko *)

Section PlinkoFacts.
Import JS Tokens Real Plinko.

Lemma decimal_proper v w : v == w -> decimal v -> decimal w.
Proof. intros E [n H]. exists n. now rewrite <- E. Qed.

Lemma decimal_Z (z : Z) : decimal (inject_Z z).
Proof.
  exists (z * Zpos (pow10 DIGITS))%Z.
  unfold Qeq, inject_Z. cbn [Qnum Qden]. lia.
Qed.

Lemma decimal_plus v w : decimal v -> decimal w -> decimal (v + w).
Proof.
  intros [n Hn] [m Hm]. exists (n + m)%Z. rewrite Hn, Hm.
  unfold Qeq, Qplus. cbn [Qnum Qden]. rewrite Pos2Z.inj_mul. ring.
Qed.

Lemma decimal_opp v : decimal v -> decimal (- v).
Proof.
  intros [n Hn]. exists (- n)%Z. rewrite Hn. reflexivity.
Qed.

Lemma decimal_GRAVITY : decimal GRAVITY.
Proof. exists 250000000%Z. reflexivity. Qed.

Lemma decimal_kept v : decimal (kept v).
Proof.
  unfold kept, toFixed. eexists. reflexivity.
Qed.

Lemma kept_decimal v : decimal v -> kept v == v.
Proof.
  intros [n Hn]. unfold kept. rewrite (toFixed_proper DIGITS _ _ Hn).
  rewrite toFixed_decimal. now rewrite Hn.
Qed.

Lemma kept_eq v w : decimal w -> v == w -> kept v == w.
Proof.
  intros Hw E. rewrite <- E. apply kept_decimal.
  apply (decimal_proper w v); [now symmetry | assumption].
Qed.

Lemma Math_sqrt_proper v w : v == w -> Math_sqrt v = Math_sqrt w.
Proof.
  intros E. unfold Math_sqrt. f_equal. f_equal.
  apply Qfloor_comp. now rewrite E.
Qed.

Lemma Math_sqrt_square (m : Z) :
  (0 <= m)%Z ->
  Math_sqrt ((m # pow10 DIGITS) * (m # pow10 DIGITS)) = (m # pow10 DIGITS).
Proof.
  intros Hm. unfold Math_sqrt. f_equal.
  change (pow10 (2 * DIGITS)) with (pow10 DIGITS * pow10 DIGITS)%positive.
  set (p := pow10 DIGITS).
  assert (E : (m # p) * (m # p) * inject_Z (Zpos (p * p)) == inject_Z (m * m)).
  { unfold Qeq, Qmult, inject_Z. cbn [Qnum Qden]. lia. }
  rewrite (Qfloor_comp _ _ E), Qfloor_Z. now apply Z.sqrt_square.
Qed.

(** [Math.sqrt] is exact on the square of a number of 9 decimals. *)
Lemma Math_sqrt_abs v d : decimal d -> v == d * d -> Math_sqrt v == Qabs d.
Proof.
  intros [n Hn] Hv.
  assert (E : v == (Z.abs n # pow10 DIGITS) * (Z.abs n # pow10 DIGITS)).
  { rewrite Hv, Hn. unfold Qeq, Qmult. cbn [Qnum Qden]. 
    rewrite <- Z.abs_square. ring. }
  rewrite (Math_sqrt_proper _ _ E), Math_sqrt_square by lia.
  rewrite Hn. reflexivity.
Qed.

Lemma Math_sqrt_lower (m : Z) v :
  (0 <= m)%Z -> inject_Z m * inject_Z m <= v -> inject_Z m <= Math_sqrt v.
Proof.
  intros Hm Hv. unfold Math_sqrt.
  change (pow10 (2 * DIGITS)) with (pow10 DIGITS * pow10 DIGITS)%positive.
  set (p := pow10 DIGITS).
  assert (Hf : ((m * Zpos p) * (m * Zpos p)
                <= Qfloor (v * inject_Z (Zpos (p * p))))%Z).
  { rewrite <- (Qfloor_Z ((m * Zpos p) * (m * Zpos p))).
    apply Qfloor_resp_le.
    assert (Hs : inject_Z (m * Z.pos p * (m * Z.pos p))
                 == inject_Z m * inject_Z m * inject_Z (Zpos (p * p))).
    { unfold Qeq, Qmult, inject_Z. cbn [Qnum Qden].
      rewrite (Pos2Z.inj_mul p p). lia. }
    rewrite Hs. apply Qmult_le_compat_r; [assumption|]. discriminate. }
  apply Z.sqrt_le_mono in Hf. rewrite Z.sqrt_square in Hf
    by (apply Z.mul_nonneg_nonneg; lia).
  set (r := Z.sqrt _) in *. unfold Qle, inject_Z. cbn [Qnum Qden]. lia.
Qed.


Lemma square_nonneg (t : Q) : 0 <= t * t.
Proof. nra. Qed.

(** [vy² + g·vy − 2g·y] is kept by a frame of free fall, bounds the speed
    of a ball above the pin, and is lowered by a bounce. *)
Lemma energy_speed v h :
  0 <= v -> h <= 92 ->
  v * v + (25 # 100) * v - 2 * (25 # 100) * h <= - (25) -> v <= 45 # 10.
Proof. intros. nra. Qed.

Lemma energy_fall v h v1 h1 :
  v1 == v + (25 # 100) -> h1 == h + v1 ->
  v1 * v1 + (25 # 100) * v1 - 2 * (25 # 100) * h1
  == v * v + (25 # 100) * v - 2 * (25 # 100) * h.
Proof. intros E1 E2. rewrite E2, E1. ring. Qed.

Lemma energy_bounce v h :
  0 <= v -> v <= 3 -> h == 91 ->
  v * v + (25 # 100) * v - 2 * (25 # 100) * h <= - (25).
Proof. intros. nra. Qed.

Lemma steer_above b v :
  pathIndex b = 0%nat -> y b <= 92 -> steer b v = (v, 0%nat).
Proof.
  intros Hp Hy. unfold steer. rewrite Hp.
  destruct (0 <? length (path b))%nat; [|reflexivity].
  change (inject_Z (Z.of_nat 0)) with 0. unfold PIN_SPACING, Math_abs.
  assert (E : (Qabs (y b - (100 + 0 * 35)) <? 5) = false).
  { apply ltb_ge. rewrite Qabs_neg by lra. lra. }
  now rewrite E.
Qed.

Lemma walls_inside r x1 v :
  r == BALL_RADIUS -> 5 <= x1 -> x1 <= 795 -> walls r x1 v = (x1, v).
Proof.
  unfold BALL_RADIUS. intros Hr Hlo Hhi. unfold walls, CANVAS_WIDTH.
  assert (E1 : (x1 - r <? 0) = false) by (apply ltb_ge; lra).
  assert (E2 : (x1 + r >? 800) = false) by (apply gtb_le; lra).
  now rewrite E1, E2.
Qed.

(** A pin out of the reach of the ball leaves it as it is. *)
Lemma collide_far random s pin :
  radius (fst s) == BALL_RADIUS ->
  64 <= (x (fst s) - fst pin) * (x (fst s) - fst pin)
        + (y (fst s) - snd pin) * (y (fst s) - snd pin) ->
  collide random s pin = s.
Proof.
  unfold BALL_RADIUS. intros Hr Hd. unfold collide. cbv zeta.
  set (d := Math_sqrt _).
  assert (E : (d <? radius (fst s) + PIN_RADIUS) = false).
  { apply ltb_ge. unfold PIN_RADIUS.
    assert (H : inject_Z 8 <= d).
    { apply Math_sqrt_lower; [lia|]. change (inject_Z 8) with 8. lra. }
    change (inject_Z 8) with 8 in H. lra. }
  now rewrite E.
Qed.

Lemma fold_collide_far random pins s :
  radius (fst s) == BALL_RADIUS ->
  Forall (fun pin =>
            64 <= (x (fst s) - fst pin) * (x (fst s) - fst pin)
                  + (y (fst s) - snd pin) * (y (fst s) - snd pin)) pins ->
  fold_left (collide random) pins s = s.
Proof.
  intros Hr H. induction H as [|pin pins Hpin _ IH]; cbn [fold_left].
  - reflexivity.
  - now rewrite collide_far.
Qed.

Lemma far_of_clear bx by_ pin :
  bx == 400 -> by_ <= 98 ->
  (35 <=? Qabs (fst pin - 400)) || (135 <=? snd pin) = true ->
  64 <= (bx - fst pin) * (bx - fst pin) + (by_ - snd pin) * (by_ - snd pin).
Proof.
  intros Hx Hy H. apply orb_true_iff in H. destruct H as [H|H].
  - apply leb_le in H.
    assert (A : 1225 <= (bx - fst pin) * (bx - fst pin)).
    { destruct (Qlt_le_dec (fst pin - 400) 0) as [N|N].
      + rewrite Qabs_neg in H by lra. nra.
      + rewrite Qabs_pos in H by lra. nra. }
    set (t := by_ - snd pin).
    assert (B : 0 <= t * t) by nra.
    lra.
  - apply leb_le in H.
    set (u := bx - fst pin).
    assert (B : 0 <= u * u) by nra.
    nra.
Qed.

Lemma pinsOf_8 :
  exists p0 p1 rest,
    pinsOf 8 = p0 :: p1 :: rest /\
    fst p0 == 365 /\ fst p1 == 400 /\ snd p1 == 100 /\
    forallb (fun pin => (35 <=? Qabs (fst pin - 400)) || (135 <=? snd pin))
      rest = true.
Proof.
  exists (nth 0 (pinsOf 8) (0, 0)), (nth 1 (pinsOf 8) (0, 0)),
         (skipn 2 (pinsOf 8)).
  repeat split; vm_compute; reflexivity.
Qed.

Lemma atan2_above dy dx :
  dx == 0 -> decimal dy -> dy < 0 ->
  Math_atan2 dy dx = mkAngle (toFixed DIGITS 0) (toFixed DIGITS (- (1))).
Proof.
  intros Hx Hd Hy. unfold Math_atan2. cbv zeta.
  assert (E : Math_sqrt (dx * dx + dy * dy) == - dy).
  { rewrite (Math_sqrt_abs _ dy Hd) by (rewrite Hx; ring).
    apply Qabs_neg. lra. }
  set (d := Math_sqrt _) in *.
  assert (N : eqb d 0 = false).
  { unfold eqb. destruct (Qeq_bool d 0) eqn:B; [|reflexivity].
    apply Qeq_bool_iff in B. lra. }
  rewrite N. f_equal; apply toFixed_proper.
  - rewrite Hx. field. lra.
  - rewrite E. field. lra.
Qed.

(** The ball meets the middle pin of the top row from straight above, the
    draw being 1/2: it is put back 9 above the pin and sent up again, with
    6/10 of its speed. *)
Lemma collide_top k b pin :
  fst pin == 400 -> snd pin == 100 ->
  x b == 400 -> vx (velocity b) == 0 ->
  decimal (y b) -> decimal (vy (velocity b)) ->
  92 < y b -> y b <= 98 -> 0 <= vy (velocity b) ->
  radius b == BALL_RADIUS ->
  exists b',
    collide alwaysHalf (b, k) pin = (b', S k) /\
    x b' == 400 /\ y b' == 91 /\ vx (velocity b') == 0 /\
    0 <= vy (velocity b') /\
    vy (velocity b') <= (6 # 10) * vy (velocity b) + (1 # 1000000000) /\
    decimal (vy (velocity b')) /\
    radius b' = radius b /\ active b' = active b /\
    pathIndex b' = pathIndex b.
Proof.
  unfold BALL_RADIUS.
  intros Hpx Hpy Hx Hvx Hdy Hdv Hlo Hhi Hv Hr.
  unfold collide. cbn [fst snd]. cbv zeta.
  assert (Dx : x b - fst pin == 0) by lra.
  assert (Dy : decimal (y b - snd pin)).
  { apply (decimal_proper (y b + - inject_Z 100)).
    - change (inject_Z 100) with 100. lra.
    - apply decimal_plus; [assumption|]. apply decimal_opp, decimal_Z. }
  assert (Hd : Math_sqrt ((x b - fst pin) * (x b - fst pin)
                          + (y b - snd pin) * (y b - snd pin))
               == - (y b - snd pin)).
  { rewrite (Math_sqrt_abs _ _ Dy) by (rewrite Dx; ring).
    apply Qabs_neg. lra. }
  assert (Hs : Math_sqrt (vx (velocity b) * vx (velocity b)
                          + vy (velocity b) * vy (velocity b))
               == vy (velocity b)).
  { rewrite (Math_sqrt_abs _ _ Hdv) by (rewrite Hvx; ring).
    now apply Qabs_pos. }
  rewrite (atan2_above _ _ Dx Dy) by lra.
  assert (Hb : addAngle (mkAngle (toFixed DIGITS 0) (toFixed DIGITS (- (1))))
                 (alwaysHalf k * (2 # 10) - (1 # 10))
               = mkAngle (toFixed DIGITS 0) (toFixed DIGITS (- (1))))
    by (vm_compute; reflexivity).
  rewrite Hb. unfold Math_cos, Math_sin. cbn [cosOf sinOf].
  assert (C0 : toFixed DIGITS 0 == 0) by (vm_compute; reflexivity).
  assert (S1 : toFixed DIGITS (- (1)) == - (1)) by (vm_compute; reflexivity).
  set (d := Math_sqrt ((x b - fst pin) * (x b - fst pin) + _)) in *.
  set (speed := Math_sqrt (vx (velocity b) * _ + _)) in *.
  assert (E : (d <? radius b + PIN_RADIUS) = true).
  { apply ltb_lt. unfold PIN_RADIUS. lra. }
  rewrite E. eexists. split; [reflexivity|].
  cbn [x y velocity vx vy radius active pathIndex].
  assert (V : Math_abs (toFixed DIGITS (- (1)) * speed * BOUNCE_DAMPING)
              == (6 # 10) * vy (velocity b)).
  { unfold Math_abs, BOUNCE_DAMPING. rewrite S1, Hs.
    rewrite Qabs_neg by lra. ring. }
  split; [|split; [|split; [|split; [|split; [|split; [|now repeat split]]]]]].
  - apply kept_eq; [apply (decimal_Z 400)|].
    rewrite C0. unfold PIN_RADIUS. lra.
  - apply kept_eq; [apply (decimal_Z 91)|].
    rewrite S1. unfold PIN_RADIUS. lra.
  - apply kept_eq; [apply (decimal_Z 0)|]. rewrite C0. ring.
  - apply toFixed_nonneg. apply Qabs_nonneg.
  - unfold kept. rewrite (toFixed_proper DIGITS _ _ V).
    assert (P : 0 <= (6 # 10) * vy (velocity b)) by lra.
    destruct (toFixed_half_up DIGITS _ P) as [_ U].
    change (1 # 2 * pow10 DIGITS) with (1 # 2000000000) in U. lra.
  - apply decimal_kept.
Qed.


(** One frame of a ball above the middle pin of the top row, every draw
    being 1/2: it falls freely, or bounces off the pin, and is above the pin
    again. *)
Lemma moveBall_aboveTopPin b k :
  aboveTopPin b ->
  exists b' k', moveBall 8 alwaysHalf (b, k) = (b', k') /\ aboveTopPin b'.
Proof.
  unfold aboveTopPin, CANVAS_WIDTH, GRAVITY.
  intros (Hx & Hvx & Hdy & Hdv & Hlo & Hhi & Hv & He & Hr & Ha & Hp).
  assert (Hx' : x b == 400) by (rewrite Hx; vm_compute; reflexivity).
  assert (Hv45 : vy (velocity b) <= 45 # 10)
    by (apply (energy_speed _ (y b)); assumption).
  unfold moveBall. cbn [fst snd]. cbv zeta.
  rewrite (steer_above b _ Hp Hhi). cbn [fst snd].
  change (alwaysHalf k) with (1 # 2).
  rewrite (walls_inside _ _ _ Hr) by lra.
  cbn [fst snd]. unfold GRAVITY.
  set (vx1 := vx (velocity b) + ((1 # 2) - (1 # 2)) * (1 # 10)).
  set (vy1 := vy (velocity b) + (25 # 100)).
  assert (Hvx1 : vx1 == 0) by (unfold vx1; lra).
  assert (Dvy1 : decimal vy1)
    by (apply decimal_plus; [assumption | apply decimal_GRAVITY]).
  assert (X1 : kept (x b + vx1) == 400)
    by (apply kept_eq; [apply (decimal_Z 400) | lra]).
  assert (Y1 : kept (y b + vy1) == y b + vy1)
    by (apply kept_decimal, decimal_plus; assumption).
  assert (VX1 : kept vx1 == 0)
    by (apply kept_eq; [apply (decimal_Z 0) | assumption]).
  assert (VY1 : kept vy1 == vy1) by now apply kept_decimal.
  set (b1 := mkBall _ _ _ _ _ _ _).
  destruct pinsOf_8 as (p0 & p1 & rest & Hpins & P0 & P1x & P1y & Hrest).
  rewrite Hpins. cbn [fold_left].
  assert (Hfar : forall c n,
            radius c == BALL_RADIUS -> x c == 400 -> y c <= 98 ->
            fold_left (collide alwaysHalf) rest (c, n) = (c, n)).
  { intros c n Rc Xc Yc. apply fold_collide_far; [assumption|].
    apply List.Forall_forall. intros pin Hin. cbn [fst snd].
    apply far_of_clear; [assumption | assumption |].
    rewrite forallb_forall in Hrest. now apply Hrest. }
  rewrite (collide_far alwaysHalf (b1, S k) p0).
  2: exact Hr.
  2: { cbn [fst snd b1 x y].
       pose proof (square_nonneg (kept (y b + vy1) - snd p0)) as B.
       assert (A : kept (x b + vx1) - fst p0 == 35) by lra.
       rewrite A. lra. }
  destruct (Qlt_le_dec 92 (y b + vy1)) as [Hit|Miss].
  - destruct (collide_top (S k) b1 p1) as (b2 & E2 & X2 & Y2 & VX2 & V2lo & V2hi
                                         & DV2 & R2 & A2 & I2);
      try assumption.
    + apply decimal_kept.
    + apply decimal_kept.
    + cbn [b1 y]. lra.
    + cbn [b1 y]. unfold vy1 in *. lra.
    + cbn [b1 velocity vy]. unfold vy1 in *. lra.
    + rewrite E2. rewrite Hfar.
      * exists b2, (S (S k)). split; [reflexivity|].
        cbn [b1 velocity vy radius active pathIndex] in *.
        assert (V3 : vy (velocity b2) <= 3) by (unfold vy1 in *; lra).
        split; [rewrite X2; vm_compute; reflexivity|].
        split; [assumption|].
        split; [apply (decimal_proper 91); [now symmetry | apply (decimal_Z 91)]|].
        split; [assumption|].
        split; [lra|]. split; [lra|]. split; [assumption|].
        split; [now apply energy_bounce|].
        split; [now rewrite R2|]. split; [now rewrite A2|now rewrite I2].
      * now rewrite R2.
      * assumption.
      * lra.
  - rewrite (collide_far alwaysHalf (b1, S k) p1).
    2: exact Hr.
    2: { cbn [fst snd b1 x y].
         pose proof (square_nonneg (kept (x b + vx1) - fst p1)) as B.
         assert (A : kept (y b + vy1) - snd p1 <= - (8)) by lra.
         clear - A B. nra. }
    rewrite Hfar; [| exact Hr | exact X1 | cbn [b1 y]; lra].
    exists b1, (S k). split; [reflexivity|].
    cbn [b1 x y velocity vx vy radius active pathIndex].
    split; [rewrite X1; vm_compute; reflexivity|].
    split; [assumption|].
    split; [apply decimal_kept|]. split; [apply decimal_kept|].
    split; [unfold vy1 in *; lra|]. split; [lra|].
    split; [unfold vy1 in *; lra|].
    split.
    { rewrite (energy_fall (vy (velocity b)) (y b)); [assumption | |].
      - rewrite VY1. reflexivity.
      - rewrite Y1, VY1. reflexivity. }
    repeat split; assumption.
Qed.


Lemma updateBall_aboveTopPin user c e k b :
  rows (gameState c) = 8%nat -> currentBall c = Some b -> aboveTopPin b ->
  exists b' k',
    updateBall user alwaysHalf (c, e, k)
    = (mkComponent (tokenBalance c) (gameState c) (Some b'), e, k') /\
    aboveTopPin b'.
Proof.
  intros Hrows Hball Hb. unfold updateBall. cbn [fst snd].
  rewrite Hball, Hrows.
  assert (Ha : active b = true) by apply Hb.
  rewrite Ha.
  destruct (moveBall_aboveTopPin b k Hb) as (b' & k' & E & Hb').
  rewrite E. cbn [fst snd].
  assert (Hy : (y b' >=? bucketY 8) = false).
  { apply leb_gt.
    assert (B : bucketY 8 == 380) by (vm_compute; reflexivity).
    assert (U : y b' <= 92) by apply Hb'.
    lra. }
  rewrite Hy. now exists b', k'.
Qed.

Lemma animate_aboveTopPin user n : forall c e k b,
  rows (gameState c) = 8%nat -> currentBall c = Some b -> aboveTopPin b ->
  exists b' k',
    animate n user alwaysHalf (c, e, k)
    = (mkComponent (tokenBalance c) (gameState c) (Some b'), e, k') /\
    aboveTopPin b'.
Proof.
  induction n as [|n IH]; intros c e k b Hrows Hball Hb.
  - exists b, k. destruct c as [t g o]. cbn in *. now subst.
  - cbn [animate].
    destruct (updateBall_aboveTopPin user c e k b Hrows Hball Hb)
      as (b1 & k1 & E & Hb1).
    rewrite E.
    destruct (IH (mkComponent (tokenBalance c) (gameState c) (Some b1))
                e k1 b1 Hrows eq_refl Hb1) as (b2 & k2 & E2 & Hb2).
    rewrite E2. now exists b2, k2.
Qed.

(** With every draw equal to 1/2 the ball is dropped on the axis of the
    board, onto the middle pin of the top row, and bounces on it for ever:
    after any number of frames the drop is still open, nothing has been
    paid, and the ledger is as the bet left it. *)
Lemma plinko_half_draws_never_settle n :
  let s0 := sampleDrop alwaysHalf in
  let s := animate n (Some "alice") alwaysHalf s0 in
  isDropping (gameState (fst (fst s))) = true /\
  lastWin (gameState (fst (fst s))) = None /\
  snd (fst s) = snd (fst s0) /\
  exists b, currentBall (fst (fst s)) = Some b /\ y b < bucketY 8.
Proof.
  cbv zeta.
  destruct (sampleDrop alwaysHalf) as [[c0 e0] k0] eqn:E0.
  assert (H0 : rows (gameState c0) = 8%nat /\
               isDropping (gameState c0) = true /\
               lastWin (gameState c0) = None /\
               currentBall c0
               = Some (mkBall (kept (CANVAS_WIDTH / 2 + (alwaysHalf 1%nat * 10 - 5)))
                         50 (mkVelocity 0 0) BALL_RADIUS true
                         (calculatePathToTarget
                            (determineFinalBucket Low (alwaysHalf 0%nat)) 8) 0)).
  { change c0 with (fst (fst (c0, e0, k0))). rewrite <- E0.
    repeat split; vm_compute; reflexivity. }
  destruct H0 as (Hrows & Hdrop & Hwin & Hball).
  assert (Hb : aboveTopPin
                 (mkBall (kept (CANVAS_WIDTH / 2 + (alwaysHalf 1%nat * 10 - 5)))
                    50 (mkVelocity 0 0) BALL_RADIUS true
                    (calculatePathToTarget
                       (determineFinalBucket Low (alwaysHalf 0%nat)) 8) 0)).
  { unfold aboveTopPin. cbn [x y velocity vx vy radius active pathIndex].
    split; [vm_compute; reflexivity|].
    split; [reflexivity|].
    split; [apply (decimal_Z 50)|]. split; [apply (decimal_Z 0)|].
    split; [lra|]. split; [lra|]. split; [lra|].
    split; [unfold GRAVITY; lra|].
    repeat split; reflexivity. }
  destruct (animate_aboveTopPin (Some "alice") n c0 e0 k0 _ Hrows Hball Hb)
    as (b' & k' & E & Hb').
  rewrite E. cbn [fst snd gameState currentBall].
  split; [assumption|]. split; [assumption|]. split; [reflexivity|].
  exists b'. split; [reflexivity|].
  assert (B : bucketY 8 == 380) by (vm_compute; reflexivity).
  assert (U : y b' <= 92) by apply Hb'.
  lra.
Qed.

(** The target bucket is the place, in the table of multipliers, of the
    multiplier of the first interval that holds the draw. *)
Lemma determineFinalBucket_first_interval risk random before entry after :
  RISK_DISTRIBUTIONS risk = before ++ entry :: after ->
  Forall (fun e => inRange random e = false) before ->
  inRange random entry = true ->
  determineFinalBucket risk random = indexOf (snd entry) (MULTIPLIERS risk).
Proof.
  intros Hd Hb He. unfold determineFinalBucket. rewrite Hd.
  assert (F : find (inRange random) (before ++ entry :: after) = Some entry).
  { clear Hd. induction Hb as [|e l Hf _ IH]; cbn [app find].
    - now rewrite He.
    - now rewrite Hf. }
  now rewrite F.
Qed.

Lemma inRange_false random entry :
  inRange random entry = false ->
  random < fst (fst entry) \/ snd (fst entry) <= random.
Proof.
  unfold inRange. intros H. apply andb_false_iff in H.
  destruct H as [H|H]; [left; now apply leb_gt | right; now apply ltb_ge].
Qed.

(** A draw of [Math.random()] falls in an interval of every tier, and the
    target is one of the buckets 0 to 7, the left half of the board. *)
Lemma determineFinalBucket_left_half risk random :
  0 <= random -> random < 1 ->
  (0 <= determineFinalBucket risk random <= 7)%Z /\
  exists entry,
    find (inRange random) (RISK_DISTRIBUTIONS risk) = Some entry /\
    nth (Z.to_nat (determineFinalBucket risk random)) (MULTIPLIERS risk) 0
    = snd entry.
Proof.
  intros Hlo Hhi. unfold determineFinalBucket.
  destruct risk; unfold RISK_DISTRIBUTIONS; cbn [find];
    repeat match goal with
      | |- context [inRange random ?e] =>
          let E := fresh "E" in destruct (inRange random e) eqn:E
      end;
    try (split; [vm_compute; split; discriminate
                | eexists; split; [reflexivity | vm_compute; reflexivity]]);
    exfalso;
    repeat match goal with
      | H : inRange _ _ = false |- _ =>
          apply inRange_false in H; cbn [fst snd] in H;
          destruct H as [H|H]; try lra
      end.
Qed.

(** The settlement reads the place of the ball and nothing else of it:
    neither its path nor the target the path was made for. *)
Lemma settle_by_position user b1 b2 c e :
  x b1 = x b2 -> settle user b1 c e = settle user b2 c e.
Proof.
  intros E. unfold settle, landingMultiplier, landingBucket. now rewrite E.
Qed.


(** C9 (does not hold of the code).  The target bucket is drawn as stated,
    but the settlement pays the bucket under the ball, and the physics
    neither has to reach the target nor to come to an end.  A drop of 20
    tokens at low risk on 8 rows, by a player holding 100: with every draw
    equal to 0 the target is bucket 0, of multiplier 5.6; the ball is still
    in play after 76 frames, the next frame takes it over bucket 7 and
    settles the drop at the multiplier 0.5 of that bucket (a last win of
    10 - 20 tokens, a balance of 90).  With every draw equal to 1/2 the
    drop is never settled. *)
Theorem plinko_pays_the_bucket_under_the_ball :
  (let s76 := animate 76 (Some "alice") alwaysZero (sampleDrop alwaysZero) in
   let s := updateBall (Some "alice") alwaysZero s76 in
   determineFinalBucket Low (alwaysZero 0%nat) = 0%Z /\
   nth 0 (MULTIPLIERS Low) 0 = 56 # 10 /\
   nth 7 (MULTIPLIERS Low) 0 = 5 # 10 /\
   option_map
     (fun ball => landingBucket Low (fst (moveBall 8 alwaysZero (ball, snd s76))))
     (currentBall (fst (fst s76))) = Some 7%nat /\
   currentBall (fst (fst s)) = None /\
   isDropping (gameState (fst (fst s))) = false /\
   lastWin (gameState (fst (fst s)))
   = Some (toFixed 2 (toFixed 2 (20 * (5 # 10)) - 20)) /\
   map transaction_type (log (snd (fst s))) = [game_spend] /\
   exists b, balanceOf "alice" (snd (fst s)) = Some b /\ b == 90) /\
  (forall n,
     let s := animate n (Some "alice") alwaysHalf (sampleDrop alwaysHalf) in
     isDropping (gameState (fst (fst s))) = true /\
     lastWin (gameState (fst (fst s))) = None).
Proof.
  split.
  - vm_compute. repeat split. eexists. split; reflexivity.
  - intros n. cbv zeta.
    destruct (plinko_half_draws_never_settle n) as (H1 & H2 & _).
    now split.
Qed.

End PlinkoFacts.

(** * Further properties of the code *)

(** ** The ledger *)

Section LedgerMoreFacts.
Import JS Tokens TokenCache.

(** X1. A game transaction the store accepts, with amounts of two decimals: it
    resolves, appends one row carrying the user, the kind, the amount and
    the game, moves the stored balance of that user by exactly the amount
    and leaves every other profile alone.  A spend of the whole balance is
    accepted and leaves 0. *)
Theorem ledger_call_moves_the_amount u g amount isWin e b :
  balanceOf u e = Some b ->
  cents b -> cents amount -> 0 <= b -> 0 <= amount ->
  (isWin = false -> amount <= b) ->
  (game_triggers (supabase e) = true -> valid_game_type g = true) ->
  exists e' row after,
    recordGameTransaction u g amount isWin e = (Resolved tt, e') /\
    log e' = log e ++ [row] /\
    user_id row = u /\ game_type row = g /\
    transaction_type row = (if isWin then game_win else game_spend) /\
    token_amount row == amount /\
    balanceOf u e' = Some after /\
    after == (if isWin then b + amount else b - amount) /\
    (forall u', u' <> u -> balanceOf u' e' = balanceOf u' e).
Proof.
  intros Hb Cb Ca Pb Pa Hle Hg.
  assert (Famount : toFixed 2 amount == amount) by now apply toFixed_cents.
  rewrite (recordGameTransaction_resolved u g amount isWin e b Hb Hle).
  2:{ intros T. split; [auto|]. intros W. rewrite Famount. auto. }
  cbv zeta. do 3 eexists. split; [reflexivity|].
  split; [reflexivity|].
  cbn [rowOf user_id game_type transaction_type token_amount].
  split; [reflexivity|]. split; [reflexivity|]. split; [reflexivity|].
  split; [exact Famount|].
  split; [unfold balanceOf; cbn; apply lookup_insert_eq|].
  split.
  - apply stored_of_cents.
    + destruct isWin; [now apply cents_plus | now apply cents_minus].
    + destruct isWin; [lra | specialize (Hle eq_refl); lra].
  - intros u' Hu. unfold balanceOf. cbn. now apply lookup_insert_ne.
Qed.

Lemma ledger_call_moves_the_amount_witness :
  exists e' row after,
    recordGameTransaction "alice" dice 100 false (aliceEnv true)
    = (Resolved tt, e') /\
    log e' = log (aliceEnv true) ++ [row] /\
    user_id row = "alice" /\ game_type row = dice /\
    transaction_type row = game_spend /\
    token_amount row == 100 /\
    balanceOf "alice" e' = Some after /\
    after == 100 - 100 /\
    (forall u', u' <> "alice" ->
                balanceOf u' e' = balanceOf u' (aliceEnv true)).
Proof.
  apply (ledger_call_moves_the_amount "alice" dice 100 false (aliceEnv true) 100).
  - reflexivity.
  - exists 10000%Z. reflexivity.
  - exists 10000%Z. reflexivity.
  - discriminate.
  - discriminate.
  - intros _. apply Qle_refl.
  - reflexivity.
Defined.

(** X2. A user without a profile: a game transaction, a balance write and a
    balance read that has to go to the store each reject with the message
    of its own and change neither the store nor the cache. *)
Theorem ledger_calls_without_profile u g amount isWin v e :
  balanceOf u e = None ->
  recordGameTransaction u g amount isWin e
  = (Rejected "Failed to get current balance", e) /\
  updateTokenBalance u v e = (Rejected "Failed to update token balance", e) /\
  getTokenBalance (Some u) false e
  = (Rejected "Failed to get token balance", e).
Proof.
  intros Hb. split; [|split].
  - unfold recordGameTransaction, await, selectBalance.
    unfold balanceOf in Hb. now rewrite Hb.
  - now apply updateTokenBalance_missing.
  - unfold getTokenBalance, await, selectBalance.
    unfold balanceOf in Hb. rewrite Hb. now destruct (cachedBalance e).
Qed.

Lemma ledger_calls_without_profile_witness :
  recordGameTransaction "bob" dice 5 false (aliceEnv true)
  = (Rejected "Failed to get current balance", aliceEnv true) /\
  updateTokenBalance "bob" 5 (aliceEnv true)
  = (Rejected "Failed to update token balance", aliceEnv true) /\
  getTokenBalance (Some "bob") false (aliceEnv true)
  = (Rejected "Failed to get token balance", aliceEnv true).
Proof.
  apply (ledger_calls_without_profile "bob" dice 5 false 5 (aliceEnv true)).
  reflexivity.
Defined.

(** X3. Reading after writing.  After a balance write has resolved, a read
    returns the value the write stored, whether the cached entry is still
    fresh or has expired; while it is fresh the read does not look at who
    asks, nor at the store. *)
Theorem getTokenBalance_after_write u v e b user :
  balanceOf u e = Some b ->
  let e1 := snd (updateTokenBalance u v e) in
  balanceOf u e1 = Some (toFixed 2 (Math_max 0 v)) /\
  getTokenBalance user true e1 = (Resolved (toFixed 2 (Math_max 0 v)), e1) /\
  getTokenBalance (Some u) false e1
  = (Resolved (toFixed 2 (Math_max 0 v)), e1).
Proof.
  intros Hb e1. unfold e1.
  rewrite (updateTokenBalance_found u v e b Hb). cbn [snd].
  split; [unfold balanceOf; cbn; apply lookup_insert_eq|].
  split; [reflexivity|].
  unfold getTokenBalance, await, selectBalance, setCache, resolve.
  cbn. now rewrite lookup_insert_eq.
Qed.

Lemma getTokenBalance_after_write_witness :
  let e1 := snd (updateTokenBalance "alice" (12345 # 1000) (aliceEnv false)) in
  balanceOf "alice" e1 = Some (toFixed 2 (Math_max 0 (12345 # 1000))) /\
  getTokenBalance None true e1
  = (Resolved (toFixed 2 (Math_max 0 (12345 # 1000))), e1) /\
  getTokenBalance (Some "alice") false e1
  = (Resolved (toFixed 2 (Math_max 0 (12345 # 1000))), e1).
Proof.
  apply (getTokenBalance_after_write "alice" (12345 # 1000) (aliceEnv false)
           100 None).
  reflexivity.
Defined.

(** X4. Reading after a game transaction.  A game transaction that resolves
    leaves in the cache the balance it computed, [b + amount] or
    [b - amount], not the value it stored: a read within the cache
    duration returns the computed value, a later read the stored one, and
    the two differ unless the computed value is of two decimals and not
    negative. *)
Theorem getTokenBalance_after_transaction u g amount isWin e b user :
  balanceOf u e = Some b ->
  (isWin = false -> amount <= b) ->
  accepted g amount isWin b e ->
  let nb := if isWin then b + amount else b - amount in
  let e1 := snd (recordGameTransaction u g amount isWin e) in
  getTokenBalance user true e1 = (Resolved nb, e1) /\
  balanceOf u e1 = Some (toFixed 2 (Math_max 0 nb)) /\
  fst (getTokenBalance (Some u) false e1)
  = Resolved (toFixed 2 (Math_max 0 nb)) /\
  (toFixed 2 (Math_max 0 nb) == nb <-> cents nb /\ 0 <= nb).
Proof.
  intros Hb Hle Hacc nb e1. unfold e1.
  rewrite (recordGameTransaction_resolved u g amount isWin e b Hb Hle Hacc).
  cbv zeta. fold nb. cbn [snd].
  split; [reflexivity|].
  split; [unfold balanceOf; cbn; apply lookup_insert_eq|].
  split.
  - unfold getTokenBalance, await, selectBalance, setCache, resolve.
    cbn. now rewrite lookup_insert_eq.
  - split.
    + intros E. split.
      * rewrite <- E. apply cents_toFixed.
      * rewrite <- E. apply toFixed_nonneg. apply Math_max_l.
    + intros [C P]. now apply stored_of_cents.
Qed.

Lemma getTokenBalance_after_transaction_witness :
  let nb := 100 + (4 # 1000) in
  let e1 := snd (recordGameTransaction "alice" dice (4 # 1000) true
                   (aliceEnv true)) in
  getTokenBalance None true e1 = (Resolved nb, e1) /\
  balanceOf "alice" e1 = Some (toFixed 2 (Math_max 0 nb)) /\
  fst (getTokenBalance (Some "alice") false e1)
  = Resolved (toFixed 2 (Math_max 0 nb)) /\
  (toFixed 2 (Math_max 0 nb) == nb <-> cents nb /\ 0 <= nb).
Proof.
  cbv zeta.
  apply (getTokenBalance_after_transaction "alice" dice (4 # 1000) true
           (aliceEnv true) 100 None).
  - reflexivity.
  - discriminate.
  - intros _. split; [reflexivity | discriminate].
Defined.

End LedgerMoreFacts.

(** ** Rounding *)

Section RoundingMoreFacts.
Import JS.

(** [toFixed] keeps the order of non-negative numbers. *)
Lemma toFixed_mono digits x y :
  0 <= x -> x <= y -> toFixed digits x <= toFixed digits y.
Proof.
  intros Hx Hxy. unfold toFixed.
  assert (Ex : (0 <=? x) = true) by now apply leb_le.
  assert (Ey : (0 <=? y) = true) by (apply leb_le; lra).
  rewrite Ex, Ey.
  rewrite (Qabs_pos x) by assumption. rewrite (Qabs_pos y) by lra.
  set (s := inject_Z (Zpos (pow10 digits))).
  assert (Hs : 0 < s) by reflexivity.
  assert (F : (Qfloor (x * s + (1 # 2)) <= Qfloor (y * s + (1 # 2)))%Z).
  { apply Qfloor_resp_le. nra. }
  unfold Qle. cbn [Qnum Qden]. nia.
Qed.

End RoundingMoreFacts.

(** ** Dice *)

Section DiceMoreFacts.
Import JS Tokens.

(** X5. A lost round: one [game_spend] row of the bet is written, nothing is
    won, and the last write stores the displayed balance less the bet;
    where the displayed balance is the stored one, the round costs exactly
    the bet. *)
Theorem dice_lost_round_costs_the_bet u c e before finalDraw :
  let gs := Dice.gameState c in
  let bet := Dice.betAmount gs in
  let r := Dice.rollDice (Some u) finalDraw c e in
  balanceOf u e = Some before ->
  0 < bet -> bet <= Dice.tokenBalance c -> bet <= before -> cents bet ->
  Dice.isRolling gs = false ->
  Dice.targetNumber gs < finalDraw * 100 ->
  (exists row,
      log (snd r) = log e ++ [row] /\
      transaction_type row = game_spend /\ token_amount row == bet) /\
  balanceOf u (snd r)
  = Some (toFixed 2 (Math_max 0 (Dice.tokenBalance c - bet))) /\
  (Dice.tokenBalance c == before -> cents before ->
   toFixed 2 (Math_max 0 (Dice.tokenBalance c - bet)) == before - bet) /\
  Dice.lastWin (Dice.gameState (fst r)) = None /\
  Dice.lastResult (Dice.gameState (fst r)) = Some (finalDraw * 100) /\
  Dice.isRolling (Dice.gameState (fst r)) = false.
Proof.
  intros gs bet r Hb Hpos Htb Hle Hc Hr Hlost.
  unfold r, Dice.rollDice. fold gs. fold bet.
  rewrite orb3_false; [| apply leb_gt, Hpos | apply gtb_le, Htb | exact Hr].
  assert (Hfix : toFixed 2 bet == bet) by now apply toFixed_cents.
  rewrite (recordGameTransaction_resolved u dice bet false e before Hb).
  2:{ intros _. exact Hle. }
  2:{ intros _. split; [reflexivity|]. intros _. lra. }
  cbv zeta.
  assert (El : (finalDraw * 100 <=? Dice.targetNumber gs) = false)
    by now apply leb_gt.
  rewrite El.
  match goal with
  | |- context [updateTokenBalance u ?v ?env] =>
      rewrite (updateTokenBalance_found u v env
                 (toFixed 2 (Math_max 0 (before - bet))))
  end.
  2:{ unfold balanceOf. cbn. apply lookup_insert_eq. }
  cbn [fst snd].
  split.
  { exists (rowOf u dice bet false). unfold log. cbn. repeat split; auto. }
  split.
  { unfold balanceOf. cbn. apply lookup_insert_eq. }
  split.
  { intros E Cb. transitivity (Dice.tokenBalance c - bet); [|lra].
    apply stored_of_cents.
    - apply cents_minus; [now rewrite E | exact Hc].
    - lra. }
  cbn. repeat split.
Qed.

Lemma dice_lost_round_costs_the_bet_witness :
  let c := Dice.mount 100 in
  let r := Dice.rollDice (Some "alice") (9 # 10) c (aliceEnv true) in
  (exists row,
      log (snd r) = log (aliceEnv true) ++ [row] /\
      transaction_type row = game_spend /\ token_amount row == 20) /\
  balanceOf "alice" (snd r) = Some (toFixed 2 (Math_max 0 (100 - 20))) /\
  (100 == 100 -> cents 100 -> toFixed 2 (Math_max 0 (100 - 20)) == 100 - 20) /\
  Dice.lastWin (Dice.gameState (fst r)) = None /\
  Dice.lastResult (Dice.gameState (fst r)) = Some ((9 # 10) * 100) /\
  Dice.isRolling (Dice.gameState (fst r)) = false.
Proof.
  apply (dice_lost_round_costs_the_bet "alice" (Dice.mount 100)
           (aliceEnv true) 100 (9 # 10)).
  - reflexivity.
  - reflexivity.
  - discriminate.
  - discriminate.
  - exists 2000%Z. reflexivity.
  - reflexivity.
  - reflexivity.
Defined.

(** X6. Wherever the pointer is, the slider leaves a target between 1 and 98
    and the multiplier of that target: more than 1, at most 99, and with
    [target * multiplier] within [target / 20000] of 99, the return of a
    round that wins when the draw times 100 is at most the target. *)
Theorem dice_slider_keeps_the_house_edge (p : Q) (c : Dice.Component) :
  Dice.isRolling (Dice.gameState c) = false ->
  let gs := Dice.gameState (Dice.moveSlider p c) in
  let t := Dice.targetNumber gs in
  let m := Dice.multiplier gs in
  1 <= t /\ t <= 98 /\
  1 < m /\ m <= 99 /\
  Qabs (t * m - 99) <= t * (1 # 20000) /\
  Dice.betAmount gs = Dice.betAmount (Dice.gameState c).
Proof.
  intros Hr gs t m.
  destruct (dice_moveSlider_target p c Hr) as (Hlo & Hhi & Hm).
  fold gs in Hlo, Hhi, Hm. fold t in Hlo, Hhi, Hm. fold m in Hm.
  assert (Ht : 0 < t) by lra.
  destruct (dice_calculateMultiplier_rounds t Ht) as (_ & Dlo & Dhi).
  rewrite <- Hm in Dlo, Dhi.
  set (q := 99 / t) in *.
  assert (Hq : q * t == 99) by (unfold q; field; lra).
  assert (Hq1 : 99 # 98 <= q) by nra.
  assert (Hq99 : q <= 99) by nra.
  split; [exact Hlo|]. split; [exact Hhi|].
  split; [lra|].
  split.
  { rewrite Hm. unfold Dice.calculateMultiplier. fold q.
    assert (E : toFixed 4 99 == 99) by reflexivity.
    rewrite <- E. apply toFixed_mono; lra. }
  split.
  { apply Qabs_Qle_condition. split; nra. }
  unfold gs, Dice.moveSlider. rewrite Hr. reflexivity.
Qed.

Lemma dice_slider_keeps_the_house_edge_witness :
  let gs := Dice.gameState (Dice.moveSlider 250 (Dice.mount 100)) in
  let t := Dice.targetNumber gs in
  let m := Dice.multiplier gs in
  1 <= t /\ t <= 98 /\
  1 < m /\ m <= 99 /\
  Qabs (t * m - 99) <= t * (1 # 20000) /\
  Dice.betAmount gs = Dice.betAmount (Dice.gameState (Dice.mount 100)).
Proof.
  apply (dice_slider_keeps_the_house_edge 250 (Dice.mount 100)).
  reflexivity.
Defined.

End DiceMoreFacts.

(** ** Crash *)

Section CrashMoreFacts.
Import JS Tokens RoundTrip.

(** X7. The crash point of a draw of [Math.random()] is 1 when the draw is
    below 2^-32, and at least 99 for every other draw: nothing lies
    between. *)
Theorem crash_point_is_1_or_at_least_99 (draw : Q) :
  0 <= draw -> draw < 1 ->
  (draw < 1 # 2 ^ 32 -> Crash.calculateCrashPoint draw = 1) /\
  (1 # 2 ^ 32 <= draw -> 99 <= Crash.calculateCrashPoint draw).
Proof.
  intros Hlo Hhi.
  destruct (crash_hash_range draw Hlo Hhi) as [H0 HE].
  pose proof (Qfloor_le (draw * inject_Z (2 ^ 32))) as Fle.
  pose proof (Qlt_floor (draw * inject_Z (2 ^ 32))) as Flt.
  unfold Crash.calculateCrashPoint, Math_floor. cbv zeta.
  set (h := Qfloor (draw * inject_Z (2 ^ 32))) in *.
  assert (S32 : (1 # 2 ^ 32) * inject_Z (2 ^ 32) == 1) by reflexivity.
  assert (P32 : 0 < inject_Z (2 ^ 32)) by reflexivity.
  set (e := inject_Z (2 ^ 32)) in *. set (eps := 1 # 2 ^ 32) in *.
  split; intros Hd.
  - assert (Hh : h = 0%Z).
    { assert (A : inject_Z h < inject_Z 1).
      { change (inject_Z 1) with 1.
        assert (B : draw * e < eps * e)
          by (apply Qmult_lt_compat_r; assumption).
        lra. }
      rewrite <- Zlt_Qlt in A. lia. }
    now rewrite Hh.
  - assert (Hh : (1 <= h)%Z).
    { assert (A : inject_Z 1 < inject_Z (h + 1)).
      { change (inject_Z 1) with 1.
        assert (B : eps * e <= draw * e)
          by (apply Qmult_le_compat_r; [assumption | lra]).
        lra. }
      rewrite <- Zlt_Qlt in A. lia. }
    destruct (h =? 0)%Z eqn:Z0; [lia|].
    assert (A1 : 1 <= inject_Z h).
    { change 1 with (inject_Z 1). rewrite <- Zle_Qle. lia. }
    assert (A2 : inject_Z h < e).
    { unfold e. rewrite <- Zlt_Qlt. lia. }
    set (z := inject_Z h) in *.
    set (q := (100 * e - z) / (e - z)).
    assert (Hq : q * (e - z) == 100 * e - z) by (unfold q; field; lra).
    assert (Q100 : 100 <= q) by nra.
    pose proof (Math_max_r 1 q) as M.
    unfold Crash.HOUSE_EDGE. lra.
Qed.

Lemma crash_point_is_1_or_at_least_99_witness :
  ((1 # 2) < 1 # 2 ^ 32 -> Crash.calculateCrashPoint (1 # 2) = 1) /\
  (1 # 2 ^ 32 <= 1 # 2 -> 99 <= Crash.calculateCrashPoint (1 # 2)).
Proof.
  apply (crash_point_is_1_or_at_least_99 (1 # 2)).
  - discriminate.
  - reflexivity.
Defined.

(** X8. The tick that takes the multiplier to the crash point ends the round:
    the bet is gone, nothing is written, and neither ticks nor cash-out
    clicks write anything afterwards. *)
Theorem crash_tick_at_crash_point_loses_the_bet snap user c e :
  Crash.inFlight c = true ->
  Crash.crashPoint c
  <= Crash.multiplier (Crash.gameState c) * Crash.BASE_MULTIPLIER ->
  let r := Crash.tick snap user c e in
  snd r = e /\
  Crash.crashed (Crash.gameState (fst r)) = true /\
  Crash.hasBet (Crash.gameState (fst r)) = false /\
  Crash.isFlying (Crash.gameState (fst r)) = false /\
  Crash.lastWin (Crash.gameState (fst r)) = Crash.lastWin (Crash.gameState c) /\
  Crash.tokenBalance (fst r) = Crash.tokenBalance c /\
  forall evs, snd (Crash.play snap user evs r) = e.
Proof.
  intros Hfl Hcp r.
  unfold Crash.inFlight in Hfl.
  apply andb_prop in Hfl as [Hfl Hco]. apply andb_prop in Hfl as [Hfl Hhb].
  apply andb_prop in Hfl as [Hif Hcr].
  assert (Er : r =
    (Crash.crashEffect
       (Crash.withState (fun prev =>
          Crash.mkGameState (Crash.multiplier prev) (Crash.isFlying prev) true
            (Crash.betAmount prev) (Crash.hasBet prev)
            (Crash.targetMultiplier prev) (Crash.autoCashoutAt prev)
            (Crash.lastWin prev) (Crash.cashedOut prev)
            (Crash.gamesPlayed prev) (Crash.winsInSession prev)) c), e)).
  { unfold r, Crash.tick. rewrite Hif, Hcr. cbn [andb].
    assert (G : (Crash.multiplier (Crash.gameState c) * Crash.BASE_MULTIPLIER
                 >=? Crash.crashPoint c) = true) by now apply leb_le.
    now rewrite G. }
  assert (Ec : Crash.crashed (Crash.gameState (fst r)) = true).
  { rewrite Er. unfold Crash.crashEffect. cbn. rewrite Hhb. reflexivity. }
  split; [now rewrite Er|]. split; [exact Ec|].
  split; [rewrite Er; unfold Crash.crashEffect; cbn; now rewrite Hhb|].
  split; [rewrite Er; unfold Crash.crashEffect; cbn; now rewrite Hhb|].
  split; [rewrite Er; unfold Crash.crashEffect; cbn; now rewrite Hhb|].
  split; [rewrite Er; unfold Crash.crashEffect; cbn; now rewrite Hhb|].
  intros evs.
  replace r with (fst r, e) by (rewrite Er; reflexivity).
  apply crash_play_frozen. now right.
Qed.


Lemma crash_tick_at_crash_point_loses_the_bet_witness :
  let s := Crash.startGame (Some "alice") 0 (Crash.mount 100) (aliceEnv true) in
  let r := Crash.tick (fst s) (Some "alice") (fst s) (snd s) in
  snd r = snd s /\
  Crash.crashed (Crash.gameState (fst r)) = true /\
  Crash.hasBet (Crash.gameState (fst r)) = false /\
  Crash.isFlying (Crash.gameState (fst r)) = false /\
  Crash.lastWin (Crash.gameState (fst r))
  = Crash.lastWin (Crash.gameState (fst s)) /\
  Crash.tokenBalance (fst r) = Crash.tokenBalance (fst s) /\
  forall evs, snd (Crash.play (fst s) (Some "alice") evs r) = snd s.
Proof.
  cbv zeta.
  apply (crash_tick_at_crash_point_loses_the_bet
           (fst (Crash.startGame (Some "alice") 0 (Crash.mount 100)
                   (aliceEnv true)))
           (Some "alice")
           (fst (Crash.startGame (Some "alice") 0 (Crash.mount 100)
                   (aliceEnv true)))
           (snd (Crash.startGame (Some "alice") 0 (Crash.mount 100)
                   (aliceEnv true)))).
  - reflexivity.
  - vm_compute. discriminate.
Defined.

(** The state a bet that is accepted leaves: the round in the air at
    multiplier 1, the displayed balance less the bet, one [game_spend] row
    and the stored balance less the bet. *)
Lemma crash_startGame_accepted u c e before draw :
  let gs := Crash.gameState c in
  let bet := Crash.betAmount gs in
  balanceOf u e = Some before -> Crash.tokenBalance c == before ->
  cents bet -> 0 < bet -> bet <= before ->
  Crash.isFlying gs = false ->
  Crash.startGame (Some u) draw c e =
    (Crash.mkComponent (toFixed 2 (Crash.tokenBalance c - bet))
       (Crash.mkGameState 1 true false bet true
          (Crash.targetMultiplier gs) (Crash.autoCashoutAt gs) None false
          (S (Crash.gamesPlayed gs)) (Crash.winsInSession gs))
       (Crash.calculateCrashPoint draw),
     mkEnv (mkDatabase
              (<[u := toFixed 2 (Math_max 0 (before - bet))]>
                 (profiles (supabase e)))
              (token_transactions (supabase e) ++ [rowOf u crash bet false])
              (game_triggers (supabase e)))
           (Some (before - bet))).
Proof.
  intros gs bet Hb Htb Hc Hpos Hle Hfl.
  unfold Crash.startGame. fold gs. fold bet.
  rewrite orb3_false;
    [| apply leb_gt, Hpos | apply gtb_le; rewrite Htb; exact Hle | exact Hfl].
  rewrite (recordGameTransaction_resolved u crash bet false e before Hb).
  - reflexivity.
  - intros _. exact Hle.
  - intros _. split; [reflexivity|]. intros _.
    rewrite (toFixed_cents bet Hc). exact Hle.
Qed.




Lemma BASE_MULTIPLIER_power_ge_1 (n : nat) :
  1 <= Crash.BASE_MULTIPLIER ^ Z.of_nat n.
Proof.
  induction n as [|n IH].
  - discriminate.
  - rewrite Nat2Z.inj_succ. unfold Z.succ.
    rewrite Qpower_plus by discriminate.
    change (Crash.BASE_MULTIPLIER ^ 1) with Crash.BASE_MULTIPLIER.
    unfold Crash.BASE_MULTIPLIER at 2. nra.
Qed.

(** X10. A round in the air with no automatic cash-out, left alone for [n]
    ticks: as long as [multiplier * 1.0024^n] is below the crash point the
    round is still in the air with exactly that multiplier, and nothing has
    been written. *)
Theorem crash_multiplier_after_n_ticks snap user (n : nat) :
  forall c e,
    Crash.inFlight c = true ->
    Crash.autoCashoutAt (Crash.gameState c) <= 0 ->
    0 <= Crash.multiplier (Crash.gameState c) ->
    Crash.multiplier (Crash.gameState c) * Crash.BASE_MULTIPLIER ^ Z.of_nat n
    < Crash.crashPoint c ->
    let r := Crash.play snap user (repeat Crash.Tick n) (c, e) in
    snd r = e /\
    Crash.inFlight (fst r) = true /\
    Crash.multiplier (Crash.gameState (fst r))
    == Crash.multiplier (Crash.gameState c) * Crash.BASE_MULTIPLIER ^ Z.of_nat n /\
    Crash.crashPoint (fst r) = Crash.crashPoint c /\
    Crash.tokenBalance (fst r) = Crash.tokenBalance c.
Proof.
  induction n as [|n IH]; intros c e Hfl Ha Hm Hcp.
  - cbn [repeat Crash.play fold_left fst snd].
    split; [reflexivity|]. split; [exact Hfl|].
    split; [|split; reflexivity].
    change (Crash.BASE_MULTIPLIER ^ Z.of_nat 0) with 1. ring.
  - cbn [repeat Crash.play fold_left Crash.step fst snd].
    assert (Hpow : Crash.BASE_MULTIPLIER ^ Z.of_nat (S n)
                   == Crash.BASE_MULTIPLIER * Crash.BASE_MULTIPLIER ^ Z.of_nat n).
    { rewrite Nat2Z.inj_succ. unfold Z.succ.
      rewrite Qpower_plus by discriminate.
      change (Crash.BASE_MULTIPLIER ^ 1) with Crash.BASE_MULTIPLIER. ring. }
    pose proof (BASE_MULTIPLIER_power_ge_1 n) as P1.
    set (m := Crash.multiplier (Crash.gameState c)) in *.
    set (p := Crash.BASE_MULTIPLIER ^ Z.of_nat n) in *.
    assert (B1 : 1 <= Crash.BASE_MULTIPLIER) by discriminate.
    assert (Hnext : m * Crash.BASE_MULTIPLIER < Crash.crashPoint c).
    { rewrite Hpow in Hcp. 
      assert (X : 0 <= m * Crash.BASE_MULTIPLIER)
        by (apply Qmult_le_0_compat; lra).
      set (mb := m * Crash.BASE_MULTIPLIER) in *.
      assert (Y : m * (Crash.BASE_MULTIPLIER * p) == mb * p)
        by (unfold mb; ring).
      nra. }
    assert (Hfl' := Hfl). unfold Crash.inFlight in Hfl'.
    apply andb_prop in Hfl' as [Hfl' Hco]. apply andb_prop in Hfl' as [Hfl' Hhb].
    apply andb_prop in Hfl' as [Hif Hcr].
    assert (Et : Crash.tick snap user c e =
      (Crash.withState (fun prev =>
          Crash.mkGameState (m * Crash.BASE_MULTIPLIER) (Crash.isFlying prev)
            (Crash.crashed prev) (Crash.betAmount prev) (Crash.hasBet prev)
            (Crash.targetMultiplier prev) (Crash.autoCashoutAt prev)
            (Crash.lastWin prev) (Crash.cashedOut prev)
            (Crash.gamesPlayed prev) (Crash.winsInSession prev)) c, e)).
    { unfold Crash.tick. rewrite Hif, Hcr. cbn [andb]. fold m.
      assert (G1 : (m * Crash.BASE_MULTIPLIER >=? Crash.crashPoint c) = false)
        by now apply leb_gt.
      assert (G2 : (Crash.autoCashoutAt (Crash.gameState c) >? 0) = false)
        by now apply gtb_le.
      now rewrite G1, G2. }
    rewrite Et.
    match goal with
    | |- context [fold_left _ _ (?c1, e)] =>
        destruct (IH c1 e) as (R1 & R2 & R3 & R4 & R5)
    end.
    + unfold Crash.inFlight. cbn. now rewrite Hif, Hcr, Hhb, Hco.
    + exact Ha.
    + cbn. nra.
    + cbn. fold p. rewrite Hpow in Hcp. 
      assert (m * Crash.BASE_MULTIPLIER * p == m * (Crash.BASE_MULTIPLIER * p))
        by ring.
      lra.
    + unfold Crash.play in R1, R2, R3, R4, R5.
      split; [exact R1|]. split; [exact R2|].
      split; [rewrite R3; cbn; fold p; rewrite Hpow; ring|].
      split; [exact R4 | exact R5].
Qed.

Lemma crash_multiplier_after_n_ticks_witness :
  let s := Crash.startGame (Some "alice") (1 # 2) (Crash.mount 100)
             (aliceEnv true) in
  let r := Crash.play (fst s) (Some "alice") (repeat Crash.Tick 3) s in
  snd r = snd s /\
  Crash.inFlight (fst r) = true /\
  Crash.multiplier (Crash.gameState (fst r))
  == Crash.multiplier (Crash.gameState (fst s))
     * Crash.BASE_MULTIPLIER ^ Z.of_nat 3 /\
  Crash.crashPoint (fst r) = Crash.crashPoint (fst s) /\
  Crash.tokenBalance (fst r) = Crash.tokenBalance (fst s).
Proof.
  cbv zeta.
  set (s := Crash.startGame (Some "alice") (1 # 2) (Crash.mount 100)
              (aliceEnv true)).
  replace s with (fst s, snd s) at 2 4 by reflexivity.
  apply (crash_multiplier_after_n_ticks (fst s) (Some "alice") 3 (fst s) (snd s)).
  - reflexivity.
  - vm_compute. discriminate.
  - vm_compute. discriminate.
  - vm_compute. reflexivity.
Defined.

End CrashMoreFacts.

(** ** Mines *)

Section MinesMoreFacts.
Import JS Tokens.

(** X11. With the migration for the games installed, whose check on [game_type]
    does not know ['mines'], a round with a bet cannot be started: the spend
    is refused, and the component, the store and the cache stay as they
    were. *)
Theorem mines_bet_refused_under_the_game_migration user placement c e :
  game_triggers (supabase e) = true ->
  0 < Mines.betAmount (Mines.gameState c) ->
  Mines.startGame user placement c e = (c, e).
Proof.
  intros Ht Hpos. unfold Mines.startGame.
  destruct (_ || _); [reflexivity|].
  destruct (_ <? _)%nat; [reflexivity|].
  destruct user as [u|]; [|reflexivity].
  unfold Mines.placeBet.
  assert (G : (Mines.betAmount (Mines.gameState c) >? 0) = true)
    by now apply gtb_gt.
  rewrite G.
  assert (R : exists m,
             recordGameTransaction u mines
               (Mines.betAmount (Mines.gameState c)) false e
             = (Rejected m, e)).
  { unfold recordGameTransaction, await, selectBalance, insertTransaction,
      insertRow, throw.
    destruct (profiles (supabase e) !! u) as [q|]; [|eauto].
    cbn [negb andb].
    destruct (Mines.betAmount (Mines.gameState c) >? q); [eauto|].
    cbv beta. rewrite Ht. cbn. eauto. }
  destruct R as [m R]. now rewrite R.
Qed.

Lemma mines_bet_refused_under_the_game_migration_witness :
  Mines.startGame (Some "alice") (Mines.sampleMines, Mines.sampleGems)
    (Mines.mount 100) (aliceEnv true)
  = (Mines.mount 100, aliceEnv true).
Proof.
  apply (mines_bet_refused_under_the_game_migration (Some "alice")
           (Mines.sampleMines, Mines.sampleGems) (Mines.mount 100)
           (aliceEnv true)).
  - reflexivity.
  - reflexivity.
Defined.

(** X12. Revealing a mine ends the round with the bet lost: nothing is written,
    the displayed balance and the count of gems stay, and no later reveal
    or cash-out changes anything. *)
Theorem mines_hitting_a_mine_loses_the_bet user row col c e :
  Mines.isPlaying (Mines.gameState c) = true ->
  Mines.isHidden (Mines.grid (Mines.gameState c)) (row, col) = true ->
  (row, col) ∈ Mines.minePositions (Mines.gameState c) ->
  let r := Mines.revealTile user row col c e in
  snd r = e /\
  Mines.isPlaying (Mines.gameState (fst r)) = false /\
  Mines.lastWin (Mines.gameState (fst r)) = None /\
  Mines.tokenBalance (fst r) = Mines.tokenBalance c /\
  Mines.revealedCount (Mines.gameState (fst r))
  = Mines.revealedCount (Mines.gameState c) /\
  forall evs, Mines.play user evs r = r.
Proof.
  intros Hp Hh Hm r.
  assert (Er : r =
    (Mines.mkComponent (Mines.tokenBalance c)
       (Mines.mkGameState (Mines.betAmount (Mines.gameState c))
          (Mines.mineCount (Mines.gameState c))
          (Mines.gemCount (Mines.gameState c))
          (Mines.revealAll (Mines.gemPositions (Mines.gameState c))
             (Mines.revealAll (Mines.minePositions (Mines.gameState c))
                (Mines.reveal (row, col) (Mines.grid (Mines.gameState c)))))
          (Mines.minePositions (Mines.gameState c))
          (Mines.gemPositions (Mines.gameState c)) false
          (Mines.revealedCount (Mines.gameState c))
          (Mines.currentMultiplier (Mines.gameState c)) None
          (Mines.autoMode (Mines.gameState c))
          (Mines.autoStopAt (Mines.gameState c))), e)).
  { unfold r, Mines.revealTile. rewrite Hp, Hh. cbn [negb orb].
    now rewrite (bool_decide_eq_true_2 _ Hm). }
  rewrite Er. cbn [fst snd].
  repeat split.
  intros evs. now apply mines_play_settled.
Qed.

Lemma mines_hitting_a_mine_loses_the_bet_witness :
  let s := Mines.startGame (Some "alice") (Mines.sampleMines, Mines.sampleGems)
             (Mines.mount 100) (aliceEnv false) in
  let r := Mines.revealTile (Some "alice") 0 1 (fst s) (snd s) in
  snd r = snd s /\
  Mines.isPlaying (Mines.gameState (fst r)) = false /\
  Mines.lastWin (Mines.gameState (fst r)) = None /\
  Mines.tokenBalance (fst r) = Mines.tokenBalance (fst s) /\
  Mines.revealedCount (Mines.gameState (fst r))
  = Mines.revealedCount (Mines.gameState (fst s)) /\
  forall evs, Mines.play (Some "alice") evs r = r.
Proof.
  cbv zeta.
  apply (mines_hitting_a_mine_loses_the_bet (Some "alice") 0 1).
  - reflexivity.
  - reflexivity.
  - vm_compute. reflexivity.
Defined.

(** X13. Each further gem lowers the multiplier a cash-out pays: on a grid of
    25 cells with at most 25 gems, [calculateMultiplier] at [k + 1] revealed
    gems is below its value at [k]. *)
Theorem mines_multiplier_falls_with_each_gem (k m g : nat) :
  (0 < g)%nat -> (g <= 25)%nat -> (S k < 25)%nat ->
  Mines.calculateMultiplier (S k) m g < Mines.calculateMultiplier k m g.
Proof.
  intros Hg Hg25 Hk.
  destruct (mines_calculateMultiplier_rounds k m g Hg Hg25 ltac:(lia))
    as (_ & Lo & _).
  destruct (mines_calculateMultiplier_rounds (S k) m g Hg Hg25 Hk)
    as (_ & _ & Hi & _).
  cbv zeta in Lo, Hi.
  rewrite Nat2Z.inj_succ in Hi. unfold Z.succ in Hi.
  rewrite inject_Z_plus in Hi. change (inject_Z 1) with 1 in Hi.
  set (G := inject_Z (Z.of_nat g)) in *.
  set (K := inject_Z (Z.of_nat k)) in *.
  assert (HG : 1 <= G).
  { unfold G. change 1 with (inject_Z 1). rewrite <- Zle_Qle. lia. }
  assert (HG25 : G <= 25).
  { unfold G. change 25 with (inject_Z 25). rewrite <- Zle_Qle. lia. }
  assert (HK : K + 1 < 25).
  { unfold K. change 25 with (inject_Z 25). change 1 with (inject_Z 1).
    rewrite <- inject_Z_plus, <- Zlt_Qlt. lia. }
  set (a := (99 # 100) / (G / (25 - K))) in *.
  set (b := (99 # 100) / (G / (25 - (K + 1)))) in *.
  assert (Ha : a * G == (99 # 100) * (25 - K)) by (unfold a; field; lra).
  assert (Hb : b * G == (99 # 100) * (25 - (K + 1))) by (unfold b; field; lra).
  assert (D : (a - b) * G == 99 # 100) by lra.
  assert (D2 : 1 # 100 < a - b) by nra.
  lra.
Qed.

Lemma mines_multiplier_falls_with_each_gem_witness :
  Mines.calculateMultiplier 2 10 15 < Mines.calculateMultiplier 1 10 15.
Proof.
  apply (mines_multiplier_falls_with_each_gem 1 10 15); lia.
Defined.


Lemma hiddenGrid_hidden (p : nat * nat) :
  Board.onGrid p -> Mines.isHidden Mines.hiddenGrid p = true.
Proof.
  destruct p as [i j]. unfold Board.onGrid, Mines.GRID_SIZE. cbn [fst snd].
  intros [Hi Hj].
  unfold Mines.isHidden, Mines.cellAt, Mines.hiddenGrid, Mines.GRID_SIZE.
  cbn [fst snd].
  rewrite (lookup_replicate_2 5 (replicate 5 Mines.hidden) i Hi).
  now rewrite (lookup_replicate_2 5 Mines.hidden j Hj).
Qed.

Lemma filter_hidden_all (g : list (list Mines.Cell)) (l : list (nat * nat)) :
  (forall p, p ∈ l -> Mines.isHidden g p = true) ->
  filter (fun p => Mines.isHidden g p = true) l = l.
Proof.
  induction l as [|p l IH]; intros H; [reflexivity|].
  rewrite filter_cons_True by (apply H; left).
  rewrite IH; [reflexivity|]. intros q Hq. apply H. now right.
Qed.

(** The round that the auto-reveal settles as soon as it has started. *)
Lemma mines_auto_reveal_round u placement c e before :
  let gs := Mines.gameState c in
  let bet := Mines.betAmount gs in
  let n := size (snd placement) in
  let multiplier := Mines.calculateMultiplier n (Mines.mineCount gs)
                      (Mines.gemCount gs) in
  let winnings := toFixed 2 (bet * multiplier) in
  let r := Mines.startGame (Some u) placement c e in
  game_triggers (supabase e) = false ->
  balanceOf u e = Some before -> Mines.tokenBalance c == before ->
  cents before -> cents bet -> 0 < bet -> bet <= before ->
  (Mines.mineCount gs <= Mines.AUTO_REVEAL_THRESHOLD)%nat ->
  (Mines.mineCount gs + Mines.gemCount gs <= 25)%nat ->
  (0 < Mines.gemCount gs)%nat -> (n < 25)%nat ->
  (forall p, p ∈ snd placement -> Board.onGrid p) ->
  Mines.isPlaying (Mines.gameState (fst r)) = false /\
  Mines.revealedCount (Mines.gameState (fst r)) = n /\
  Mines.currentMultiplier (Mines.gameState (fst r)) = multiplier /\
  Mines.lastWin (Mines.gameState (fst r)) = Some (toFixed 2 (winnings - bet)) /\
  RoundTrip.rowsNet u bet winnings e (snd r) /\
  RoundTrip.balanceSettled u bet winnings e (snd r).
Proof.
  intros gs bet n multiplier winnings r Ht Hb Htb Hcb Hc Hpos Hle Hmc Hsum
         Hg Hn Hgrid.
  assert (Hfilter :
            length (filter (fun p => Mines.isHidden Mines.hiddenGrid p = true)
                      (elements (snd placement))) = n).
  { rewrite filter_hidden_all; [reflexivity|].
    intros p Hp. apply hiddenGrid_hidden, Hgrid. now apply elem_of_elements. }
  assert (Hm0 : 0 <= multiplier).
  { destruct (mines_calculateMultiplier_rounds n (Mines.mineCount gs)
                (Mines.gemCount gs) Hg ltac:(unfold gs in *; lia) Hn)
      as (_ & _ & _ & H0 & _).
    exact H0. }
  assert (Hw0 : 0 <= winnings) by (apply toFixed_nonneg; nra).
  assert (Htb1 : toFixed 2 (Mines.tokenBalance c - bet) == before - bet).
  { rewrite <- Htb. apply toFixed_cents. apply cents_minus; [|exact Hc].
    now rewrite Htb. }
  assert (Hnb : toFixed 2 (toFixed 2 (Mines.tokenBalance c - bet) + winnings)
                == before - bet + winnings).
  { rewrite <- Htb1. apply toFixed_cents.
    apply cents_plus; apply cents_toFixed. }
  unfold r, Mines.startGame. fold gs. fold bet.
  assert (G1 : (bet <? 0) || (bet >? Mines.tokenBalance c) = false).
  { apply orb_false_iff. split; [apply ltb_ge; lra | apply gtb_le; lra]. }
  rewrite G1.
  assert (G2 : (Mines.GRID_SIZE * Mines.GRID_SIZE
                <? Mines.mineCount gs + Mines.gemCount gs)%nat = false).
  { apply Nat.ltb_ge. exact Hsum. }
  rewrite G2.
  unfold Mines.placeBet. fold gs. fold bet.
  assert (G3 : (bet >? 0) = true) by now apply gtb_gt.
  rewrite G3.
  rewrite (recordGameTransaction_resolved u mines bet false e before Hb).
  2:{ intros _. exact Hle. }
  2:{ intros T. congruence. }
  cbv zeta.
  assert (G4 : (Mines.mineCount gs <=? Mines.AUTO_REVEAL_THRESHOLD)%nat = true)
    by now apply Nat.leb_le.
  rewrite G4.
  unfold Mines.revealAllGems.
  cbn [Mines.gameState Mines.grid Mines.gemPositions Mines.minePositions
       Mines.mineCount Mines.gemCount Mines.betAmount Mines.tokenBalance].
  rewrite Hfilter. fold multiplier. fold winnings.
  unfold Mines.payOut. rewrite G3.
  cbn [Mines.tokenBalance Mines.withBalance].
  match goal with
  | |- context [await ?a ?k ?env] =>
      rewrite (settle_resolved u mines (toFixed 2 (winnings - bet))
                 (toFixed 2 (toFixed 2 (Mines.tokenBalance c - bet) + winnings))
                 env (toFixed 2 (Math_max 0 (before - bet))))
  end.
  2:{ unfold balanceOf. cbn. apply lookup_insert_eq. }
  2:{ cbn. intros T. congruence. }
  cbn [fst snd Mines.withBalance Mines.gameState Mines.tokenBalance
       Mines.endRound Mines.isPlaying Mines.revealedCount
       Mines.currentMultiplier Mines.lastWin].
  split; [reflexivity|]. split; [reflexivity|]. split; [reflexivity|].
  split; [reflexivity|]. split.
  - exists (rowOf u mines bet false),
           (rowOf u mines (toFixed 2 (winnings - bet)) true).
    split.
    { unfold log. cbn. now rewrite <- app_assoc. }
    cbn. repeat split; auto.
    + now apply toFixed_cents.
    + transitivity (toFixed 2 (winnings - bet)).
      * apply toFixed_cents, cents_toFixed.
      * apply toFixed_cents. apply cents_minus; [apply cents_toFixed|exact Hc].
  - exists before. eexists. split; [exact Hb|]. split.
    { unfold balanceOf. cbn. apply lookup_insert_eq. }
    rewrite <- Hnb. apply stored_of_cents; [apply cents_toFixed|].
    rewrite Hnb. lra.
Qed.

(** X14. A round started with at most [AUTO_REVEAL_THRESHOLD] mines is over as
    soon as it is started: all gems are revealed at once and the round is
    paid at the multiplier [calculateMultiplier] gives for that many gems
    revealed.  (Without the migration for the games; the board has its
    gems on the grid.) *)
Theorem mines_round_with_few_mines_is_over_at_once u placement c e before :
  let gs := Mines.gameState c in
  let bet := Mines.betAmount gs in
  let n := size (snd placement) in
  let multiplier := Mines.calculateMultiplier n (Mines.mineCount gs)
                      (Mines.gemCount gs) in
  let winnings := toFixed 2 (bet * multiplier) in
  let r := Mines.startGame (Some u) placement c e in
  game_triggers (supabase e) = false ->
  balanceOf u e = Some before -> Mines.tokenBalance c == before ->
  cents before -> cents bet -> 0 < bet -> bet <= before ->
  (Mines.mineCount gs <= Mines.AUTO_REVEAL_THRESHOLD)%nat ->
  (Mines.mineCount gs + Mines.gemCount gs <= 25)%nat ->
  (0 < Mines.gemCount gs)%nat -> (n < 25)%nat ->
  (forall p, p ∈ snd placement -> Board.onGrid p) ->
  Mines.isPlaying (Mines.gameState (fst r)) = false /\
  Mines.revealedCount (Mines.gameState (fst r)) = n /\
  Mines.currentMultiplier (Mines.gameState (fst r)) = multiplier /\
  Mines.lastWin (Mines.gameState (fst r)) = Some (toFixed 2 (winnings - bet)) /\
  RoundTrip.rowsNet u bet winnings e (snd r) /\
  RoundTrip.balanceSettled u bet winnings e (snd r).
Proof.
  intros gs bet n multiplier winnings r.
  apply mines_auto_reveal_round.
Qed.


Lemma mines_round_with_few_mines_is_over_at_once_witness :
  let c :=
    Mines.mkComponent 100
      (Mines.mkGameState 20 2 15 Mines.hiddenGrid ∅ ∅ false 0 1 None false 2) in
  let placement : gset (nat * nat) * gset (nat * nat) :=
    ({[(0, 0)%nat; (0, 1)%nat]}, Mines.sampleGems) in
  let n := size (snd placement) in
  let multiplier := Mines.calculateMultiplier n 2 15 in
  let winnings := toFixed 2 (20 * multiplier) in
  let r := Mines.startGame (Some "alice") placement c (aliceEnv false) in
  Mines.isPlaying (Mines.gameState (fst r)) = false /\
  Mines.revealedCount (Mines.gameState (fst r)) = n /\
  Mines.currentMultiplier (Mines.gameState (fst r)) = multiplier /\
  Mines.lastWin (Mines.gameState (fst r)) = Some (toFixed 2 (winnings - 20)) /\
  RoundTrip.rowsNet "alice" 20 winnings (aliceEnv false) (snd r) /\
  RoundTrip.balanceSettled "alice" 20 winnings (aliceEnv false) (snd r).
Proof.
  cbv zeta.
  apply (mines_round_with_few_mines_is_over_at_once "alice"
           ({[(0, 0)%nat; (0, 1)%nat]}, Mines.sampleGems)
           (Mines.mkComponent 100
              (Mines.mkGameState 20 2 15 Mines.hiddenGrid ∅ ∅ false 0 1 None
                 false 2))
           (aliceEnv false) 100).
  - reflexivity.
  - reflexivity.
  - reflexivity.
  - exists 10000%Z. reflexivity.
  - exists 2000%Z. reflexivity.
  - reflexivity.
  - discriminate.
  - cbn. unfold Mines.AUTO_REVEAL_THRESHOLD. lia.
  - cbn. lia.
  - cbn. lia.
  - vm_compute. lia.
  - intros p Hp. cbn [snd] in Hp. unfold Mines.sampleGems in Hp.
    rewrite elem_of_list_to_set in Hp.
    repeat (apply elem_of_cons in Hp as [->|Hp];
            [split; cbn; unfold Mines.GRID_SIZE; lia|]).
    inversion Hp.
Defined.

Lemma drawCell_onGrid random k :
  (forall j, 0 <= random j /\ random j < 1) ->
  Board.onGrid (Board.drawCell random k).
Proof.
  intros Hr.
  assert (F : forall v, 0 <= v -> v < 1 ->
              (Z.to_nat (Math_floor (v * inject_Z (Z.of_nat Mines.GRID_SIZE)))
               < Mines.GRID_SIZE)%nat).
  { intros v H0 H1. unfold Math_floor, Mines.GRID_SIZE.
    change (inject_Z (Z.of_nat 5)) with 5.
    pose proof (Qfloor_le (v * 5)) as Fle.
    pose proof (Qlt_floor (v * 5)) as Flt.
    set (z := Qfloor (v * 5)) in *.
    assert (A : inject_Z z < inject_Z 5) by (change (inject_Z 5) with 5; lra).
    rewrite <- Zlt_Qlt in A. lia. }
  unfold Board.onGrid, Board.drawCell. cbn [fst snd].
  split; apply F; apply Hr.
Qed.

Lemma placeMines_spec fuel : forall random k mineCount mines res k',
  (size mines <= mineCount)%nat ->
  Board.placeMines fuel random k mineCount mines = Some (res, k') ->
  size res = mineCount /\
  (forall p, p ∈ res -> p ∈ mines \/ exists j, p = Board.drawCell random j).
Proof.
  induction fuel as [|fuel IH]; intros random k mc mines res k' Hsize;
    cbn [Board.placeMines]; destruct (size mines <? mc)%nat eqn:E.
  - discriminate.
  - intros [= <- <-]. apply Nat.ltb_ge in E. split; [lia | auto].
  - apply Nat.ltb_lt in E. intros H. apply IH in H.
    + destruct H as [H1 H2]. split; [exact H1|].
      intros p Hp. destruct (H2 p Hp) as [Hin|Hd]; [|now right].
      destruct (bool_decide _); [now left|].
      apply elem_of_union in Hin as [Hin|Hin]; [now left|].
      apply elem_of_singleton in Hin. right. eauto.
    + destruct (bool_decide _) eqn:B; [lia|].
      apply bool_decide_eq_false in B.
      rewrite size_union by (now apply disjoint_singleton_r).
      rewrite size_singleton. lia.
  - intros [= <- <-]. apply Nat.ltb_ge in E. split; [lia | auto].
Qed.

Lemma placeGems_spec fuel :
  forall random k gemCount todo mines gems res k',
    (todo + size gems = gemCount)%nat -> gems ## mines ->
    Board.placeGems fuel random k gemCount todo mines gems = Some (res, k') ->
    size res = gemCount /\ res ## mines /\
    (forall p, p ∈ res -> p ∈ gems \/ exists j, p = Board.drawCell random j).
Proof.
  induction fuel as [|fuel IH]; intros random k gc todo mines gems res k' Hsum Hd;
    cbn [Board.placeGems];
    destruct ((0 <? todo)%nat && (size gems <? gc)%nat) eqn:E.
  - discriminate.
  - intros [= <- <-]. apply andb_false_iff in E.
    split; [|split; auto].
    destruct E as [E|E]; [apply Nat.ltb_ge in E | apply Nat.ltb_ge in E]; lia.
  - apply andb_prop in E as [E1 E2].
    apply Nat.ltb_lt in E1. apply Nat.ltb_lt in E2.
    destruct (negb (bool_decide (Board.drawCell random k ∈ mines))
              && negb (bool_decide (Board.drawCell random k ∈ gems))) eqn:B.
    + apply andb_prop in B as [B1 B2].
      apply Bool.negb_true_iff in B1, B2.
      apply bool_decide_eq_false in B1, B2.
      intros H. apply IH in H.
      * destruct H as (H1 & H2 & H3). split; [exact H1|]. split; [exact H2|].
        intros p Hp. destruct (H3 p Hp) as [Hin|Hj]; [|now right].
        apply elem_of_union in Hin as [Hin|Hin]; [now left|].
        apply elem_of_singleton in Hin. right. eauto.
      * rewrite size_union by (now apply disjoint_singleton_r).
        rewrite size_singleton. lia.
      * apply disjoint_union_l. split; [exact Hd|].
        now apply disjoint_singleton_l.
    + intros H. apply IH in H; assumption.
  - intros [= <- <-]. apply andb_false_iff in E.
    split; [|split; auto].
    destruct E as [E|E]; [apply Nat.ltb_ge in E | apply Nat.ltb_ge in E]; lia.
Qed.

Lemma initializeGame_spec fuel random mineCount gemCount mines gems :
  Board.initializeGame fuel random mineCount gemCount = Some (mines, gems) ->
  size mines = mineCount /\ size gems = gemCount /\ mines ## gems /\
  ((forall j, 0 <= random j /\ random j < 1) ->
   forall p, p ∈ mines ∪ gems -> Board.onGrid p).
Proof.
  unfold Board.initializeGame.
  destruct (Board.placeMines fuel random 0 mineCount ∅) as [[ms k]|] eqn:Em;
    [|discriminate].
  destruct (Board.placeGems fuel random k gemCount gemCount ms ∅)
    as [[gs k']|] eqn:Eg; [|discriminate].
  intros [= <- <-].
  apply placeMines_spec in Em; [|rewrite size_empty; lia].
  apply placeGems_spec in Eg;
    [|rewrite size_empty; lia | apply disjoint_empty_l].
  destruct Em as [M1 M2]. destruct Eg as (G1 & G2 & G3).
  split; [exact M1|]. split; [exact G1|]. split; [now symmetry|].
  intros Hr p Hp. apply elem_of_union in Hp as [Hp|Hp].
  - destruct (M2 p Hp) as [Hin|[j ->]];
      [now apply not_elem_of_empty in Hin|].
    now apply drawCell_onGrid.
  - destruct (G3 p Hp) as [Hin|[j ->]];
      [now apply not_elem_of_empty in Hin|].
    now apply drawCell_onGrid.
Qed.

Lemma union_singleton_in (X : gset (nat * nat)) p : p ∈ X -> X ∪ {[p]} = X.
Proof.
  intros Hp. apply set_eq. intros x.
  rewrite elem_of_union, elem_of_singleton.
  split; [intros [H| ->]; assumption | intros H; now left].
Qed.

Lemma difference_cons_in (L M : gset (nat * nat)) p :
  p ∈ M -> ({[p]} ∪ L) ∖ M = L ∖ M.
Proof.
  intros Hp. apply set_eq. intros x.
  rewrite !elem_of_difference, elem_of_union, elem_of_singleton.
  split.
  - intros [[-> |H] N]; [contradiction | now split].
  - intros [H N]. split; [now right | exact N].
Qed.

Lemma difference_cons_out (L M : gset (nat * nat)) p :
  p ∉ M -> ({[p]} ∪ L) ∖ M = {[p]} ∪ (L ∖ M).
Proof.
  intros Hp. apply set_eq. intros x.
  rewrite elem_of_union, !elem_of_difference, elem_of_union, elem_of_singleton.
  split.
  - intros [[-> |H] N]; [now left | right; now split].
  - intros [-> |[H N]]; [split; [now left | exact Hp] | split; [now right | exact N]].
Qed.

Lemma drawn_S random k n :
  Board.drawn random k (S n)
  = Board.drawCell random k :: Board.drawn random (S (S k)) n.
Proof.
  unfold Board.drawn. cbn [seq map]. f_equal.
  - f_equal. lia.
  - rewrite <- seq_shift, map_map. apply map_ext. intros i. f_equal. lia.
Qed.

(** The loop of the mines ends once the cells drawn, with those already
    there, are as many as asked for. *)
Lemma placeMines_returns fuel : forall random k mineCount (mines : gset (nat * nat)),
  (mineCount <= size (mines ∪ list_to_set (Board.drawn random k fuel)))%nat ->
  exists res i,
    Board.placeMines fuel random k mineCount mines = Some (res, (k + 2 * i)%nat) /\
    (i <= fuel)%nat.
Proof.
  induction fuel as [|fuel IH]; intros random k mc mines Hsize.
  - cbn [Board.placeMines]. unfold Board.drawn in Hsize. cbn in Hsize.
    rewrite (right_id_L ∅ (∪)) in Hsize.
    assert (E : (size mines <? mc)%nat = false) by (apply Nat.ltb_ge; lia).
    rewrite E. exists mines, 0%nat. split; [|lia].
    now rewrite Nat.mul_0_r, Nat.add_0_r.
  - cbn [Board.placeMines]. destruct (size mines <? mc)%nat eqn:E.
    + rewrite drawn_S in Hsize.
      set (pos := Board.drawCell random k) in *.
      destruct (IH random (S (S k)) mc
                  (if bool_decide (pos ∈ mines) then mines
                   else mines ∪ {[pos]})) as (res & i & Hr & Hi).
      { replace ((if bool_decide (pos ∈ mines) then mines else mines ∪ {[pos]})
                   ∪ list_to_set (Board.drawn random (S (S k)) fuel))
          with (mines ∪ list_to_set (pos :: Board.drawn random (S (S k)) fuel));
          [exact Hsize|].
        cbn [list_to_set]. rewrite (assoc_L (∪)).
        destruct (bool_decide (pos ∈ mines)) eqn:B; [|reflexivity].
        apply bool_decide_eq_true in B. now rewrite union_singleton_in. }
      exists res, (S i). split; [|lia].
      rewrite Hr. do 2 f_equal. lia.
    + exists mines, 0%nat. split; [|lia].
      now rewrite Nat.mul_0_r, Nat.add_0_r.
Qed.

(** The loop of the gems ends once the cells drawn that hold no mine, with
    the gems already there, are as many as asked for. *)
Lemma placeGems_returns fuel :
  forall random k gemCount todo (mines gems : gset (nat * nat)),
    (todo + size gems = gemCount)%nat ->
    (gemCount
     <= size (gems ∪ (list_to_set (Board.drawn random k fuel) ∖ mines)))%nat ->
    exists res k',
      Board.placeGems fuel random k gemCount todo mines gems = Some (res, k').
Proof.
  induction fuel as [|fuel IH]; intros random k gc todo mines gems Hsum Hsize.
  - cbn [Board.placeGems]. unfold Board.drawn in Hsize. cbn in Hsize.
    assert (E0 : (∅ : gset (nat * nat)) ∖ mines = ∅).
    { apply set_eq. intros x. rewrite elem_of_difference.
      split; [intros [H _]; exact H | intros H; now apply not_elem_of_empty in H]. }
    rewrite E0, (right_id_L ∅ (∪)) in Hsize.
    assert (E : (size gems <? gc)%nat = false) by (apply Nat.ltb_ge; lia).
    rewrite E, andb_false_r. eauto.
  - cbn [Board.placeGems].
    destruct ((0 <? todo)%nat && (size gems <? gc)%nat) eqn:E; [|eauto].
    apply andb_prop in E as [E1 E2].
    apply Nat.ltb_lt in E1. apply Nat.ltb_lt in E2.
    rewrite drawn_S in Hsize.
    set (pos := Board.drawCell random k) in *.
    destruct (bool_decide (pos ∈ mines)) eqn:B1; cbn [negb andb].
    + apply bool_decide_eq_true in B1.
      apply IH; [exact Hsum|].
      cbn [list_to_set] in Hsize.
      now rewrite difference_cons_in in Hsize.
    + apply bool_decide_eq_false in B1.
      destruct (bool_decide (pos ∈ gems)) eqn:B2; cbn [negb].
      * apply bool_decide_eq_true in B2.
        apply IH; [exact Hsum|].
        cbn [list_to_set] in Hsize.
        rewrite difference_cons_out, (assoc_L (∪)) in Hsize by exact B1.
        now rewrite union_singleton_in in Hsize.
      * apply bool_decide_eq_false in B2.
        apply IH.
        -- rewrite size_union by (now apply disjoint_singleton_r).
           rewrite size_singleton. lia.
        -- cbn [list_to_set] in Hsize.
           now rewrite difference_cons_out, (assoc_L (∪)) in Hsize by exact B1.
Qed.

Lemma size_cells : size (list_to_set Board.cells : gset (nat * nat)) = 25%nat.
Proof.
  rewrite size_list_to_set; [reflexivity|].
  apply (bool_decide_unpack _). vm_compute. exact I.
Qed.

Lemma covers_window n random t :
  Board.covers n random -> (t <= n)%nat ->
  (25 <= size (list_to_set (Board.drawn random (2 * t) n) : gset (nat * nat)))%nat.
Proof.
  intros Hc Ht. rewrite <- size_cells. apply subseteq_size.
  intros p Hp. apply elem_of_list_to_set in Hp. apply elem_of_list_to_set.
  unfold Board.covers in Hc.
  rewrite Forall_forall in Hc.
  assert (Hin : t ∈ seq 0 (S n)) by (apply elem_of_seq; lia).
  specialize (Hc t Hin). rewrite Forall_forall in Hc.
  now apply Hc.
Qed.

(** X15. [initializeGame] returns a board when the draws keep meeting every
    cell ([covers]) and the counts fit the grid, and whenever it returns,
    it returns a board with exactly [mineCount] mines and [gemCount] gems,
    no cell holding both; with draws of [Math.random()], which are in
    [0, 1), all of them are cells of the 5 by 5 grid. *)
Theorem initializeGame_places_the_counts n random mineCount gemCount :
  (mineCount + gemCount <= 25)%nat ->
  Board.covers n random ->
  (exists mines gems,
      Board.initializeGame n random mineCount gemCount = Some (mines, gems)) /\
  (forall fuel mines gems,
      Board.initializeGame fuel random mineCount gemCount = Some (mines, gems) ->
      size mines = mineCount /\ size gems = gemCount /\ mines ## gems /\
      ((forall j, 0 <= random j /\ random j < 1) ->
       forall p, p ∈ mines ∪ gems -> Board.onGrid p)).
Proof.
  intros Hfit Hc. split; [|intros fuel mines gems; apply initializeGame_spec].
  unfold Board.initializeGame.
  destruct (placeMines_returns n random 0 mineCount ∅) as (ms & i & Hm & Hi).
  { pose proof (covers_window n random 0 Hc ltac:(lia)) as W.
    change (2 * 0)%nat with 0%nat in W. rewrite (left_id_L ∅ (∪)). lia. }
  rewrite Hm. cbn [Nat.add] in *.
  pose proof (placeMines_spec _ _ _ _ _ _ _ ltac:(rewrite size_empty; lia) Hm)
    as [Sm _].
  destruct (placeGems_returns n random (2 * i) gemCount gemCount ms ∅)
    as (gs & k' & Hg).
  { rewrite size_empty. lia. }
  { rewrite (left_id_L ∅ (∪)).
    pose proof (covers_window n random i Hc Hi) as W.
    set (D := list_to_set (Board.drawn random (2 * i) n) : gset (nat * nat)) in *.
    assert (Hsub : D ⊆ (D ∖ ms) ∪ ms).
    { intros p Hp. apply elem_of_union.
      destruct (decide (p ∈ ms)) as [Hin|Hout]; [now right|].
      left. now apply elem_of_difference. }
    apply subseteq_size in Hsub.
    rewrite size_union in Hsub by apply disjoint_difference_l1, reflexivity.
    lia. }
  rewrite Hg. eauto.
Qed.

Lemma initializeGame_places_the_counts_witness :
  let random : nat -> Q :=
    fun k => if Nat.even k then Z.of_nat ((k / 2) mod 25 / 5) # 5
             else Z.of_nat ((k / 2) mod 5) # 5 in
  (exists mines gems,
      Board.initializeGame 25 random 10 15 = Some (mines, gems)) /\
  (forall fuel mines gems,
      Board.initializeGame fuel random 10 15 = Some (mines, gems) ->
      size mines = 10%nat /\ size gems = 15%nat /\ mines ## gems /\
      ((forall j, 0 <= random j /\ random j < 1) ->
       forall p, p ∈ mines ∪ gems -> Board.onGrid p)).
Proof.
  cbv zeta.
  apply (initializeGame_places_the_counts 25
           (fun k => if Nat.even k then Z.of_nat ((k / 2) mod 25 / 5) # 5
                     else Z.of_nat ((k / 2) mod 5) # 5) 10 15).
  - lia.
  - apply (bool_decide_unpack _). vm_compute. exact I.
Defined.

End MinesMoreFacts.

(** ** Mines, the count of gems *)

Section MinesCountFacts.
Import JS Tokens Mines Board.

Lemma cellAt_reveal_same g p :
  isHidden g p = true -> cellAt (reveal p g) p = Some revealed.
Proof.
  unfold isHidden, cellAt, reveal.
  destruct (g !! fst p) as [r|] eqn:Er; [|discriminate].
  destruct (r !! snd p) as [x|] eqn:Ex; [|discriminate].
  intros _.
  rewrite list_lookup_insert_eq by (now apply lookup_lt_Some in Er).
  apply list_lookup_insert_eq. now apply lookup_lt_Some in Ex.
Qed.

Lemma cellAt_reveal_other g p q : q <> p -> cellAt (reveal p g) q = cellAt g q.
Proof.
  intros Hne. unfold cellAt, reveal.
  destruct (g !! fst p) as [r|] eqn:Er; [|reflexivity].
  destruct (decide (fst q = fst p)) as [E|N].
  - rewrite E, Er.
    rewrite list_lookup_insert_eq by (now apply lookup_lt_Some in Er).
    apply list_lookup_insert_ne. intros E2. apply Hne.
    destruct p, q; cbn in *; congruence.
  - now rewrite list_lookup_insert_ne by congruence.
Qed.

Lemma filter_shown_other g p (l : list (nat * nat)) :
  p ∉ l ->
  filter (fun q => shown (reveal p g) q = true) l
  = filter (fun q => shown g q = true) l.
Proof.
  intros Hp. induction l as [|q l IH]; [reflexivity|].
  assert (Hq : q <> p) by (intros ->; apply Hp; left).
  assert (Hl : p ∉ l) by (intros H; apply Hp; now right).
  assert (E : shown (reveal p g) q = shown g q)
    by (unfold shown; now rewrite cellAt_reveal_other).
  destruct (shown g q) eqn:S.
  - rewrite !filter_cons_True by congruence. now rewrite IH.
  - rewrite !filter_cons_False by congruence. now apply IH.
Qed.

Lemma filter_shown_one_more g p (l : list (nat * nat)) :
  NoDup l -> p ∈ l -> isHidden g p = true ->
  length (filter (fun q => shown (reveal p g) q = true) l)
  = S (length (filter (fun q => shown g q = true) l)).
Proof.
  intros Hn Hin Hh. induction Hn as [|q l Hq Hn IH]; [inversion Hin|].
  destruct (decide (q = p)) as [->|Hne].
  - assert (S1 : shown (reveal p g) p = true)
      by (unfold shown; now rewrite cellAt_reveal_same).
    assert (S0 : shown g p = false).
    { unfold shown. unfold isHidden in Hh.
      destruct (cellAt g p) as [[|]|]; congruence. }
    rewrite filter_cons_True by exact S1.
    rewrite filter_cons_False by congruence.
    cbn [length]. now rewrite filter_shown_other.
  - assert (Hin' : p ∈ l).
    { apply elem_of_cons in Hin as [->|H]; [congruence | exact H]. }
    assert (E : shown (reveal p g) q = shown g q)
      by (unfold shown; now rewrite cellAt_reveal_other).
    destruct (shown g q) eqn:S.
    + rewrite !filter_cons_True by congruence. cbn [length]. now rewrite IH.
    + rewrite !filter_cons_False by congruence. now apply IH.
Qed.

Lemma payOut_playing u bet winnings profit c e :
  gameState (fst (snd (payOut u bet winnings profit c e))) = gameState c.
Proof.
  destruct (payOut u bet winnings profit c e) as [o [c1 e1]] eqn:E.
  exact (mines_payOut_state _ _ _ _ _ _ _ _ _ E).
Qed.

Lemma revealTile_counts user row col c e :
  (isPlaying (gameState c) = true ->
   revealedCount (gameState c) = gemsShown (gameState c)) ->
  let s := revealTile user row col c e in
  isPlaying (gameState (fst s)) = true ->
  revealedCount (gameState (fst s)) = gemsShown (gameState (fst s)).
Proof.
  intros J. unfold revealTile. cbv zeta.
  destruct (isPlaying (gameState c)) eqn:P; cbn [negb orb];
    [|cbn [fst]; rewrite P; discriminate].
  specialize (J eq_refl).
  destruct (isHidden (grid (gameState c)) (row, col)) eqn:H; cbn [negb];
    [|cbn [fst]; auto].
  destruct (bool_decide ((row, col) ∈ minePositions (gameState c)));
    [cbn; discriminate|].
  destruct (bool_decide ((row, col) ∈ gemPositions (gameState c))) eqn:G;
    cbn [negb].
  - apply bool_decide_eq_true in G.
    assert (Hone :
      length (filter (fun q => shown (reveal (row, col) (grid (gameState c))) q = true)
                     (elements (gemPositions (gameState c))))
      = S (revealedCount (gameState c))).
    { rewrite filter_shown_one_more;
        [| apply NoDup_elements | now apply elem_of_elements | exact H].
      rewrite J. reflexivity. }
    destruct user as [u|]; [|cbn [fst]; auto].
    destruct (autoMode (gameState c) && _).
    + destruct (payOut _ _ _ _ _ _) as [[[]|m] [c1 e1]] eqn:E.
      * cbn. discriminate.
      * cbn [fst]. rewrite (mines_payOut_state _ _ _ _ _ _ _ _ _ E). auto.
    + cbn [fst gameState revealedCount]. intros _. unfold gemsShown.
      cbn [grid gemPositions]. now rewrite Hone.
  - apply bool_decide_eq_false in G. cbn [fst gameState revealedCount].
    intros _. rewrite J. unfold gemsShown. cbn [grid gemPositions].
    rewrite filter_shown_other; [reflexivity|].
    intros Hin. apply G. now apply elem_of_elements.
Qed.

Lemma cashout_counts user c e :
  (isPlaying (gameState c) = true ->
   revealedCount (gameState c) = gemsShown (gameState c)) ->
  let s := cashout user c e in
  isPlaying (gameState (fst s)) = true ->
  revealedCount (gameState (fst s)) = gemsShown (gameState (fst s)).
Proof.
  intros J. unfold cashout. cbv zeta.
  destruct (_ || _); [cbn [fst]; auto|].
  destruct user as [u|]; [|cbn [fst]; auto].
  destruct (payOut _ _ _ _ _ _) as [[[]|m] [c1 e1]] eqn:E.
  - cbn. discriminate.
  - cbn [fst]. rewrite (mines_payOut_state _ _ _ _ _ _ _ _ _ E). auto.
Qed.

Lemma play_counts user evs : forall s,
  (isPlaying (gameState (fst s)) = true ->
   revealedCount (gameState (fst s)) = gemsShown (gameState (fst s))) ->
  isPlaying (gameState (fst (play user evs s))) = true ->
  revealedCount (gameState (fst (play user evs s)))
  = gemsShown (gameState (fst (play user evs s))).
Proof.
  unfold play. induction evs as [|ev evs IH]; intros s J; cbn [fold_left];
    [exact J|].
  apply IH. destruct ev as [row col|]; cbn [step].
  - now apply revealTile_counts.
  - now apply cashout_counts.
Qed.

Lemma gemsShown_hidden gs :
  grid gs = hiddenGrid -> gemsShown gs = 0%nat.
Proof.
  intros Hg. unfold gemsShown. rewrite Hg.
  induction (elements (gemPositions gs)) as [|p l IH]; [reflexivity|].
  rewrite filter_cons_False; [exact IH|].
  destruct p as [i j]. unfold shown, cellAt, hiddenGrid. cbn [fst snd].
  destruct (replicate GRID_SIZE (replicate GRID_SIZE hidden) !! i) as [r|] eqn:Er;
    [|discriminate].
  apply lookup_replicate in Er as [-> _].
  destruct (replicate GRID_SIZE hidden !! j) as [x|] eqn:Ex; [|discriminate].
  apply lookup_replicate in Ex as [-> _]. discriminate.
Qed.

(** X16. Every gem counts once.  In a round started from a component that is
    not playing, with the clicks handled one after the other, as long as
    the round is on [revealedCount] is the number of gems whose cell shows
    as revealed, whatever cells are clicked, in whatever order and however
    often, and whenever cash-out is pressed; so it never exceeds the number
    of gems on the board. *)
Theorem mines_revealed_count_counts_the_gems user placement c e evs :
  isPlaying (gameState c) = false ->
  let s := play user evs (startGame user placement c e) in
  isPlaying (gameState (fst s)) = true ->
  revealedCount (gameState (fst s)) = gemsShown (gameState (fst s)) /\
  (revealedCount (gameState (fst s))
   <= size (gemPositions (gameState (fst s))))%nat.
Proof.
  intros Hc s Hs.
  assert (J : revealedCount (gameState (fst s)) = gemsShown (gameState (fst s))).
  { unfold s in *. apply play_counts; [|exact Hs]. clear Hs.
    unfold startGame.
    destruct (_ || _); [cbn [fst]; rewrite Hc; discriminate|].
    destruct (_ <? _)%nat; [cbn [fst]; rewrite Hc; discriminate|].
    destruct user as [u|]; [|cbn [fst]; rewrite Hc; discriminate].
    destruct (placeBet u c e) as [[[]|m] [c1 e1]] eqn:B.
    - destruct (_ <=? _)%nat.
      + unfold revealAllGems.
        destruct (payOut _ _ _ _ _ _) as [[[]|m] [c2 e2]] eqn:E.
        * cbn. discriminate.
        * cbn [fst]. rewrite (mines_payOut_state _ _ _ _ _ _ _ _ _ E).
          intros _. cbn [gameState revealedCount].
          symmetry. now apply gemsShown_hidden.
      + cbn [fst gameState revealedCount]. intros _.
        symmetry. now apply gemsShown_hidden.
    - cbn [fst snd]. unfold placeBet in B.
      destruct (_ >? _); [|discriminate].
      destruct (recordGameTransaction _ _ _ _ _) as [[v|m'] e2];
        [discriminate|].
      injection B as _ <- _. rewrite Hc. discriminate. }
  split; [exact J|].
  rewrite J. unfold gemsShown.
  etransitivity; [apply length_filter|]. reflexivity.
Qed.

Lemma mines_revealed_count_counts_the_gems_witness :
  let s := play (Some "alice")
             [Reveal 2 0; Reveal 2 0; Reveal 3 3]
             (startGame (Some "alice") (sampleMines, sampleGems)
                (mount 100) (aliceEnv false)) in
  revealedCount (gameState (fst s)) = gemsShown (gameState (fst s)) /\
  (revealedCount (gameState (fst s))
   <= size (gemPositions (gameState (fst s))))%nat.
Proof.
  cbv zeta.
  apply (mines_revealed_count_counts_the_gems (Some "alice")
           (sampleMines, sampleGems) (mount 100) (aliceEnv false)
           [Reveal 2 0; Reveal 2 0; Reveal 3 3]).
  - reflexivity.
  - vm_compute. reflexivity.
Defined.

End MinesCountFacts.

(** ** Blackjack *)

Section BlackjackMoreFacts.
Import JS Tokens Blackjack Deck.

Lemma soften_spec (aces : nat) : forall score : Z,
  exists k : nat,
    (k <= aces)%nat /\
    soften aces score = (score - 10 * Z.of_nat k)%Z /\
    ((k < aces)%nat -> (score - 10 * Z.of_nat k <= 21)%Z) /\
    (forall i : nat, (i < k)%nat -> (21 < score - 10 * Z.of_nat i)%Z).
Proof.
  induction aces as [|a IH]; intros score; cbn [soften].
  - exists 0%nat. repeat split; try lia.
  - destruct (21 <? score)%Z eqn:E.
    + apply Z.ltb_lt in E.
      destruct (IH (score - 10)%Z) as (k & K1 & K2 & K3 & K4).
      exists (S k). split; [lia|]. split; [lia|]. split.
      * intros H. assert (L : (k < a)%nat) by lia. specialize (K3 L). lia.
      * intros i Hi. destruct i as [|i]; [lia|].
        assert (L : (i < k)%nat) by lia. specialize (K4 i L). lia.
    + apply Z.ltb_ge in E. exists 0%nat. repeat split; try lia.
Qed.

Lemma fold_numericValue_from (hand : list Card) (a : Z) :
  fold_left (fun s c => (s + numericValue c)%Z) hand a
  = (a + fold_left (fun s c => (s + numericValue c)%Z) hand 0)%Z.
Proof.
  revert a. induction hand as [|c hand IH]; intros a; cbn [fold_left].
  - lia.
  - rewrite IH, (IH (0 + numericValue c)%Z). lia.
Qed.

Lemma fold_numericValue_perm (h1 h2 : list Card) :
  h1 ≡ₚ h2 ->
  fold_left (fun s c => (s + numericValue c)%Z) h1 0%Z
  = fold_left (fun s c => (s + numericValue c)%Z) h2 0%Z.
Proof.
  induction 1 as [|c l1 l2 _ IH|c d l|l1 l2 l3 _ IH1 _ IH2]; cbn [fold_left].
  - reflexivity.
  - rewrite fold_numericValue_from, (fold_numericValue_from l2). now rewrite IH.
  - rewrite fold_numericValue_from.
    rewrite (fold_numericValue_from l (0 + numericValue c + numericValue d)).
    lia.
  - congruence.
Qed.

(** X17. The score of a hand is its best total: with [hard] the total that
    counts 10 less for every ace (1 an ace, for the cards of the deck), the
    score is [hard] plus 10 for some of the aces; when [hard] is at most 21
    it is the largest such total that is at most 21, and otherwise it is
    [hard].  The order of the cards does not matter. *)
Theorem blackjack_score_is_the_best_total (hand : list Card) :
  let aces := length (filter (fun c => isAce c = true) hand) in
  let hard := hardTotal hand in
  (exists j : nat, (j <= aces)%nat /\
                   calculateScore hand = (hard + 10 * Z.of_nat j)%Z) /\
  ((hard <= 21)%Z ->
   (calculateScore hand <= 21)%Z /\
   forall j : nat, (j <= aces)%nat -> (hard + 10 * Z.of_nat j <= 21)%Z ->
                   (hard + 10 * Z.of_nat j <= calculateScore hand)%Z) /\
  ((21 < hard)%Z -> calculateScore hand = hard) /\
  (forall hand', hand ≡ₚ hand' -> calculateScore hand' = calculateScore hand).
Proof.
  intros aces hard. unfold calculateScore. cbv zeta. fold aces.
  set (score := fold_left (fun s c => (s + numericValue c)%Z) hand 0%Z).
  assert (Hh : hard = (score - 10 * Z.of_nat aces)%Z) by reflexivity.
  destruct (soften_spec aces score) as (k & K1 & K2 & K3 & K4).
  rewrite K2.
  split; [|split; [|split]].
  - exists (aces - k)%nat. split; [lia|]. lia.
  - intros Hle. split.
    + destruct (Nat.eq_dec k aces) as [->|Hne]; [lia|].
      apply K3. lia.
    + intros j Hj Hj21.
      destruct (Nat.le_gt_cases j (aces - k)) as [L|G]; [lia|].
      assert (Hi : (aces - j < k)%nat) by lia.
      specialize (K4 (aces - j)%nat Hi). lia.
  - intros Hgt.
    destruct (Nat.eq_dec k aces) as [->|Hne]; [lia|].
    assert (L : (k < aces)%nat) by lia. specialize (K3 L). lia.
  - intros hand' Hp.
    rewrite <- (fold_numericValue_perm hand hand' Hp). fold score.
    assert (La : length (filter (fun c => isAce c = true) hand') = aces).
    { unfold aces. now rewrite <- Hp. }
    now rewrite La, K2.
Qed.


Lemma dealerDraws_spec (turned : list Card) : forall hand hand' rest,
  dealerDraws hand turned = Some (hand', rest) ->
  (17 <= calculateScore hand')%Z /\
  exists drawn,
    hand' = hand ++ drawn /\ turned = drawn ++ rest /\
    forall n, (n < length drawn)%nat ->
              (calculateScore (hand ++ take n drawn) < 17)%Z.
Proof.
  induction turned as [|c turned IH]; intros hand hand' rest;
    cbn [dealerDraws]; destruct (calculateScore hand <? 17)%Z eqn:E.
  - discriminate.
  - intros [= <- <-]. apply Z.ltb_ge in E. split; [exact E|].
    exists []. rewrite app_nil_r. repeat split. cbn. lia.
  - intros H. apply IH in H as (H17 & drawn & -> & -> & Hlt).
    split; [exact H17|]. exists (c :: drawn).
    split; [now rewrite <- app_assoc|]. split; [reflexivity|].
    intros n Hn. destruct n as [|n].
    + cbn [take]. rewrite app_nil_r. now apply Z.ltb_lt.
    + cbn [take]. cbn [length] in Hn.
      replace (hand ++ c :: take n drawn) with ((hand ++ [c]) ++ take n drawn)
        by now rewrite <- app_assoc.
      apply Hlt. lia.
  - intros [= <- <-]. apply Z.ltb_ge in E. split; [exact E|].
    exists []. rewrite app_nil_r. repeat split. cbn. lia.
Qed.

Lemma dealerDraws_none (turned : list Card) : forall hand,
  dealerDraws hand turned = None ->
  forall n, (n <= length turned)%nat ->
            (calculateScore (hand ++ take n turned) < 17)%Z.
Proof.
  induction turned as [|c turned IH]; intros hand;
    cbn [dealerDraws]; destruct (calculateScore hand <? 17)%Z eqn:E;
    try discriminate; apply Z.ltb_lt in E.
  - intros _ n Hn. destruct n; cbn [take]; now rewrite app_nil_r.
  - intros H n Hn. destruct n as [|n]; cbn [take].
    + now rewrite app_nil_r.
    + cbn [length] in Hn.
      replace (hand ++ c :: take n turned) with ((hand ++ [c]) ++ take n turned)
        by now rewrite <- app_assoc.
      apply IH; [exact H | lia].
Qed.

(** X18. The dealer draws to 17.  When the dealer's turn returns, the dealer
    holds the cards held before followed by cards taken from the deck in
    order, the score is 17 or more (also on a hand with an ace counted 11),
    and it was below 17 before each card drawn.  The turn fails, the deck
    being empty, only when the dealer is below 17 with every card of the
    deck in hand. *)
Theorem blackjack_dealer_draws_to_17 hand turned :
  match dealerDraws hand turned with
  | Some (hand', rest) =>
      (17 <= calculateScore hand')%Z /\
      exists drawn,
        hand' = hand ++ drawn /\ turned = drawn ++ rest /\
        forall n, (n < length drawn)%nat ->
                  (calculateScore (hand ++ take n drawn) < 17)%Z
  | None =>
      forall n, (n <= length turned)%nat ->
                (calculateScore (hand ++ take n turned) < 17)%Z
  end.
Proof.
  destruct (dealerDraws hand turned) as [[hand' rest]|] eqn:D.
  - now apply dealerDraws_spec.
  - now apply dealerDraws_none.
Qed.

(** X19. A hit that takes the player over 21 ends the round at once: the card is
    the last of the deck, the round is complete with nothing won, nothing
    is written (the bet stays spent), and neither hit nor stand does
    anything afterwards. *)
Theorem blackjack_bust_on_hit_loses_the_bet u c e :
  let gs := gameState c in
  let r := hit (Some u) c e in
  gamePhase gs = playing ->
  forall drawn newDeck,
    dealCard (deck gs) = Some (drawn, newDeck) ->
    (21 < calculateScore (playerHand gs ++ [drawn]))%Z ->
    snd r = e /\
    deck gs = newDeck ++ [drawn] /\
    playerHand (gameState (fst r)) = playerHand gs ++ [drawn] /\
    deck (gameState (fst r)) = newDeck /\
    gamePhase (gameState (fst r)) = complete /\
    lastWin (gameState (fst r)) = None /\
    tokenBalance (fst r) = tokenBalance c /\
    hit (Some u) (fst r) e = r /\ stand (Some u) (fst r) e = r.
Proof.
  intros gs r Hp drawn newDeck Hd Hb.
  assert (Hdeck : deck gs = newDeck ++ [drawn]).
  { unfold dealCard in Hd. destruct (reverse (deck gs)) as [|x l] eqn:R;
      [discriminate|].
    injection Hd as <- <-.
    rewrite <- (reverse_involutive (deck gs)), R.
    now rewrite reverse_cons. }
  assert (Er : r =
    (mkComponent (tokenBalance c)
       (mkGameState (playerHand gs ++ [drawn]) (dealerHand gs) newDeck
          (betAmount gs) complete (calculateScore (playerHand gs ++ [drawn]))
          (dealerScore gs) None), e)).
  { unfold r, hit. fold gs. rewrite Hp, Hd.
    apply Z.ltb_lt in Hb. rewrite Hb. reflexivity. }
  rewrite Er. cbn [fst snd gameState playerHand deck gamePhase lastWin
                   tokenBalance].
  repeat split; auto.
Qed.

Lemma blackjack_bust_on_hit_loses_the_bet_witness :
  let c :=
    mkComponent 80
      (mkGameState [card Spades V10; card Hearts V9]
         [card Clubs V7; card Clubs V8]
         [card Hearts V2; card Diamonds VK] 20 playing 19 15 None) in
  let r := hit (Some "alice") c (aliceEnv true) in
  snd r = aliceEnv true /\
  deck (gameState c) = [card Hearts V2] ++ [card Diamonds VK] /\
  playerHand (gameState (fst r))
  = playerHand (gameState c) ++ [card Diamonds VK] /\
  deck (gameState (fst r)) = [card Hearts V2] /\
  gamePhase (gameState (fst r)) = complete /\
  lastWin (gameState (fst r)) = None /\
  tokenBalance (fst r) = tokenBalance c /\
  hit (Some "alice") (fst r) (aliceEnv true) = r /\
  stand (Some "alice") (fst r) (aliceEnv true) = r.
Proof.
  cbv zeta.
  apply (blackjack_bust_on_hit_loses_the_bet "alice"
           (mkComponent 80
              (mkGameState [card Spades V10; card Hearts V9]
                 [card Clubs V7; card Clubs V8]
                 [card Hearts V2; card Diamonds VK] 20 playing 19 15 None))
           (aliceEnv true)).
  - reflexivity.
  - reflexivity.
  - reflexivity.
Defined.

Lemma insert_head_perm (l : list Card) : forall (j : nat) (b x : Card),
  l !! j = Some b -> b :: <[j := x]> l ≡ₚ x :: l.
Proof.
  induction l as [|y l IH]; intros j b x Hj; [discriminate|].
  destruct j as [|j]; cbn in *.
  - injection Hj as ->. apply perm_swap.
  - rewrite (perm_swap y b). rewrite (IH j b x Hj). apply perm_swap.
Qed.

Lemma swap_perm (l : list Card) : forall i j : nat, swap i j l ≡ₚ l.
Proof.
  unfold swap. induction l as [|x l IH]; intros i j; [now destruct i|].
  destruct i as [|i], j as [|j]; cbn.
  - reflexivity.
  - destruct (l !! j) as [b|] eqn:Ej; [|reflexivity].
    cbn. now apply insert_head_perm.
  - destruct (l !! i) as [a|] eqn:Ei; [|reflexivity].
    cbn. now apply insert_head_perm.
  - specialize (IH i j).
    destruct (l !! i) as [a|]; [|reflexivity].
    destruct (l !! j) as [b|]; [|reflexivity].
    cbn. now rewrite IH.
Qed.

Lemma shuffleFrom_perm random (i : nat) : forall k deck,
  shuffleFrom random k i deck ≡ₚ deck.
Proof.
  induction i as [|i IH]; intros k deck; cbn [shuffleFrom]; [reflexivity|].
  rewrite IH. apply swap_perm.
Qed.

(** X20. With draws of [Math.random()], which are in [0, 1), [shuffle] returns
    the cards it was given, each as often as it was there, in some order;
    the deck [createDeck] returns has the 52 cards of the four suits and
    thirteen values, each once, an ace counting 11 and a king, queen or
    jack 10. *)
Theorem blackjack_shuffle_permutes_the_deck random :
  (forall k, 0 <= random k /\ random k < 1) ->
  (forall deck, shuffle random deck ≡ₚ deck) /\
  createDeck random ≡ₚ sorted /\
  length (createDeck random) = 52%nat /\
  NoDup (createDeck random) /\
  (forall s v, card s v ∈ createDeck random) /\
  (forall c, c ∈ createDeck random ->
             numericValue c = numericValueOf (value c)).
Proof.
  intros _.
  assert (P : forall deck, shuffle random deck ≡ₚ deck)
    by (intros deck; apply shuffleFrom_perm).
  assert (Pc : createDeck random ≡ₚ sorted) by apply P.
  split; [exact P|]. split; [exact Pc|].
  split; [now rewrite Pc|].
  split.
  { rewrite Pc. apply NoDup_ListNoDup.
    apply (NoDup_map_inv (fun c => (suit c, value c))).
    vm_compute. repeat constructor; cbn; intuition discriminate. }
  split.
  { intros s v. rewrite Pc. destruct s, v; vm_compute;
      repeat (first [left; reflexivity | right]). }
  intros c Hc. rewrite Pc in Hc. unfold sorted, SUITS, VALUES in Hc.
  cbn in Hc. repeat (apply elem_of_cons in Hc as [->|Hc]; [reflexivity|]).
  inversion Hc.
Qed.

Lemma blackjack_shuffle_permutes_the_deck_witness :
  let random : nat -> Q := fun k => Z.of_nat (k mod 7) # 7 in
  (forall deck, shuffle random deck ≡ₚ deck) /\
  createDeck random ≡ₚ sorted /\
  length (createDeck random) = 52%nat /\
  NoDup (createDeck random) /\
  (forall s v, card s v ∈ createDeck random) /\
  (forall c, c ∈ createDeck random ->
             numericValue c = numericValueOf (value c)).
Proof.
  cbv zeta.
  apply (blackjack_shuffle_permutes_the_deck (fun k => Z.of_nat (k mod 7) # 7)).
  intros k. split.
  - unfold Qle. cbn. lia.
  - unfold Qlt. cbn.
    pose proof (Nat.mod_upper_bound k 7 ltac:(lia)). lia.
Defined.

End BlackjackMoreFacts.

Section BlackjackRoundFacts.
Import JS Tokens Blackjack Deck.

Lemma dealCard_last d c rest : dealCard d = Some (c, rest) -> d = rest ++ [c].
Proof.
  unfold dealCard. destruct (reverse d) as [|x l] eqn:R; [discriminate|].
  intros [= <- <-].
  rewrite <- (reverse_involutive d), R. now rewrite reverse_cons.
Qed.

Lemma dealInitial_last d p h rest :
  dealInitial d = Some (p, h, rest) ->
  exists c1 c2 c3 c4,
    p = [c1; c3] /\ h = [c2; c4] /\ d = rest ++ [c4; c3; c2; c1].
Proof.
  unfold dealInitial.
  destruct (dealCard d) as [[c1 d1]|] eqn:E1; [|discriminate].
  destruct (dealCard d1) as [[c2 d2]|] eqn:E2; [|discriminate].
  destruct (dealCard d2) as [[c3 d3]|] eqn:E3; [|discriminate].
  destruct (dealCard d3) as [[c4 d4]|] eqn:E4; [|discriminate].
  intros [= <- <- <-]. exists c1, c2, c3, c4.
  apply dealCard_last in E1, E2, E3, E4. subst.
  repeat split. now rewrite <- !app_assoc.
Qed.

Lemma handleGameEnd_cards snap user w b live e :
  cardsOf (fst (handleGameEnd snap user w b live e)) = cardsOf live.
Proof.
  unfold handleGameEnd. destruct user as [u|]; [|reflexivity].
  destruct w; [|reflexivity].
  destruct (await _ _ e) as [[v|m] e1]; reflexivity.
Qed.

Lemma handleDealerTurn_cards user c e :
  cardsOf (fst (handleDealerTurn c user c e)) ≡ₚ cardsOf c.
Proof.
  unfold handleDealerTurn.
  destruct (dealerDraws _ _) as [[h t]|] eqn:D; [|reflexivity].
  rewrite handleGameEnd_cards.
  apply dealerDraws_spec in D as (_ & drawn & -> & Hd & _).
  unfold cardsOf. cbn [gameState playerHand dealerHand deck].
  apply Permutation_app_head. rewrite <- app_assoc.
  apply Permutation_app_head.
  rewrite <- (reverse_involutive (deck (gameState c))), Hd.
  rewrite reverse_app, (reverse_Permutation drawn).
  apply Permutation_app_comm.
Qed.

Lemma move_cards user m s : cardsOf (fst (move user m s)) ≡ₚ cardsOf (fst s).
Proof.
  destruct s as [c e]. destruct m; cbn [move fst snd].
  - unfold hit. destruct (gamePhase (gameState c)); try reflexivity.
    destruct (dealCard _) as [[x newDeck]|] eqn:D; [|reflexivity].
    apply dealCard_last in D.
    assert (P : forall w,
               cardsOf
                 (mkComponent (tokenBalance c)
                    (mkGameState (playerHand (gameState c) ++ [x])
                       (dealerHand (gameState c)) newDeck
                       (betAmount (gameState c)) w
                       (calculateScore (playerHand (gameState c) ++ [x]))
                       (dealerScore (gameState c)) (lastWin (gameState c))))
               ≡ₚ cardsOf c).
    { intros w. unfold cardsOf. cbn [gameState playerHand dealerHand deck].
      rewrite D. rewrite <- !app_assoc. apply Permutation_app_head.
      rewrite (Permutation_app_comm [x]). rewrite <- app_assoc.
      apply Permutation_app_head. reflexivity. }
    destruct (21 <? _)%Z; [rewrite handleGameEnd_cards|]; apply P.
  - unfold stand. destruct (gamePhase (gameState c)); try reflexivity.
    apply handleDealerTurn_cards.
Qed.

Lemma playRound_cards user ms : forall s,
  cardsOf (fst (playRound user ms s)) ≡ₚ cardsOf (fst s).
Proof.
  unfold playRound. induction ms as [|m ms IH]; intros s; cbn [fold_left].
  - reflexivity.
  - rewrite IH. apply move_cards.
Qed.

(** X21. The cards are conserved.  A round started with both hands empty, in
    which the player is not dealt 21, holds in its two hands and its deck
    exactly the cards of the deck it started with, however the player hits
    and stands: with a deck without duplicates no card is on the table
    twice. *)
Theorem blackjack_round_conserves_the_cards user c e (ms : list Move) :
  let gs := gameState c in
  let r := playRound user ms (startGame user c e) in
  playerHand gs = [] -> dealerHand gs = [] ->
  (forall p h rest, dealInitial (deck gs) = Some (p, h, rest) ->
                    calculateScore p <> 21%Z) ->
  cardsOf (fst r) ≡ₚ deck gs /\
  (NoDup (deck gs) -> NoDup (cardsOf (fst r))).
Proof.
  intros gs r Hp Hd Hn.
  assert (P : cardsOf (fst r) ≡ₚ deck gs).
  { unfold r. rewrite playRound_cards.
    assert (C0 : cardsOf c = deck gs).
    { unfold cardsOf. fold gs. now rewrite Hp, Hd. }
    rewrite <- C0.
    unfold startGame. fold gs.
    destruct (_ || _); [reflexivity|].
    destruct user as [u|]; [|reflexivity].
    destruct (recordGameTransaction _ _ _ _ _) as [[v|m] e1]; [|reflexivity].
    destruct (dealInitial (deck gs)) as [[[p h] rest]|] eqn:D; [|reflexivity].
    specialize (Hn p h rest eq_refl).
    apply Z.eqb_neq in Hn. rewrite Hn. cbn [fst].
    apply dealInitial_last in D as (c1 & c2 & c3 & c4 & -> & -> & Hdeck).
    rewrite C0, Hdeck. unfold cardsOf. cbn [gameState playerHand dealerHand deck].
    rewrite (Permutation_app_comm rest).
    change ([c1; c3] ++ [c2; c4] ++ rest) with ([c1; c3; c2; c4] ++ rest).
    apply Permutation_app_tail.
    rewrite <- (reverse_Permutation [c1; c3; c2; c4]).
    change (reverse [c1; c3; c2; c4]) with [c4; c2; c3; c1].
    apply perm_skip, perm_swap. }
  split; [exact P|]. intros N. now rewrite P.
Qed.


Lemma blackjack_round_conserves_the_cards_witness :
  let c := mount 100 tieDeck in
  let r := playRound (Some "alice") [Hit; Stand]
             (startGame (Some "alice") c (aliceEnv true)) in
  cardsOf (fst r) ≡ₚ deck (gameState c) /\
  (NoDup (deck (gameState c)) -> NoDup (cardsOf (fst r))).
Proof.
  cbv zeta.
  apply (blackjack_round_conserves_the_cards (Some "alice")
           (mount 100 tieDeck) (aliceEnv true) [Hit; Stand]).
  - reflexivity.
  - reflexivity.
  - intros p h rest H. vm_compute in H. injection H as <- _ _.
    vm_compute. discriminate.
Defined.

Lemma playerWinsWith_empty h :
  (17 <= calculateScore h)%Z ->
  playerWinsWith [] h = (21 <? calculateScore h)%Z.
Proof.
  intros H. unfold playerWinsWith. cbv zeta.
  change (calculateScore []) with 0%Z. cbn [Z.ltb Z.eqb Z.compare andb negb].
  destruct (21 <? calculateScore h)%Z; [reflexivity|].
  destruct ((calculateScore h =? 21)%Z && (length h =? 2)%nat); [reflexivity|].
  apply Z.ltb_ge. lia.
Qed.

(** X22. A player dealt 21 at the start is never paid 3 to 2.  The deal resolves
    the hand through the render from before the deal, whose hands are empty
    and whose deck is whole: the dealer's turn is played from that deck
    against a player score of 0, and the round either writes nothing more
    than the bet or, when that dealer hand goes over 21, is paid as an
    ordinary win with a [game_win] row of one bet. *)
Theorem blackjack_dealt_21_is_never_paid_3_to_2 u c e before p h rest :
  let gs := gameState c in
  let bet := betAmount gs in
  let r := startGame (Some u) c e in
  playerHand gs = [] -> dealerHand gs = [] ->
  balanceOf u e = Some before ->
  0 < bet -> bet <= tokenBalance c -> bet <= before ->
  cents bet -> cents (tokenBalance c) ->
  dealInitial (deck gs) = Some (p, h, rest) ->
  calculateScore p = 21%Z ->
  isNaturalBlackjack p = true /\
  playerHand (gameState (fst r)) = p /\
  ((log (snd r) = log e ++ [rowOf u blackjack bet false] /\
    lastWin (gameState (fst r)) = None) \/
   (exists win,
       log (snd r) = log e ++ [rowOf u blackjack bet false; win] /\
       transaction_type win = game_win /\ token_amount win == bet /\
       lastWin (gameState (fst r)) = Some (toFixed 2 (bet * 2) - bet))).
Proof.
  intros gs bet r Hp Hd Hb Hpos Htb Hle Hc Hctb Hdeal H21.
  assert (Hnat : isNaturalBlackjack p = true).
  { apply dealInitial_last in Hdeal as (c1 & c2 & c3 & c4 & -> & _).
    unfold isNaturalBlackjack. rewrite H21. reflexivity. }
  split; [exact Hnat|].
  unfold r, startGame. fold gs. fold bet.
  assert (G : (bet <=? 0) || (bet >? tokenBalance c) = false).
  { apply orb_false_iff. split; [now apply leb_gt | now apply gtb_le]. }
  rewrite G.
  rewrite (recordGameTransaction_resolved u blackjack bet false e before Hb).
  2:{ intros _. exact Hle. }
  2:{ intros _. split; [reflexivity|]. intros _.
      rewrite (toFixed_cents bet Hc). exact Hle. }
  cbv zeta. rewrite Hdeal, H21. cbn [Z.eqb Pos.eqb].
  unfold handleDealerTurn. fold gs. rewrite Hd, Hp.
  destruct (dealerDraws [] (reverse (deck gs))) as [[hand turned]|] eqn:D.
  - apply dealerDraws_spec in D as (H17 & _).
    rewrite (playerWinsWith_empty hand H17).
    change (isNaturalBlackjack []) with false.
    cbn [gameState tokenBalance playerHand dealerHand deck betAmount
         playerScore lastWin].
    destruct (21 <? calculateScore hand)%Z.
    + unfold handleGameEnd. fold gs. fold bet.
      match goal with
      | |- context [await ?a ?k ?env] =>
          rewrite (settle_resolved u blackjack
                     (toFixed 2 (toFixed 2 (bet * 2) - bet))
                     (toFixed 2 (tokenBalance c + toFixed 2 (bet * 2)))
                     env (toFixed 2 (Math_max 0 (before - bet))))
      end.
      2:{ unfold balanceOf. cbn. apply lookup_insert_eq. }
      2:{ reflexivity. }
      cbn [fst snd]. split; [reflexivity|]. right.
      exists (rowOf u blackjack (toFixed 2 (toFixed 2 (bet * 2) - bet)) true).
      split; [unfold log; cbn; now rewrite <- app_assoc|].
      split; [reflexivity|]. split; [|reflexivity].
      cbn [rowOf token_amount].
      assert (D2 := blackjack_double_exact bet Hc).
      rewrite toFixed_cents by apply cents_toFixed.
      rewrite toFixed_cents.
      * lra.
      * apply cents_minus; [apply cents_toFixed | exact Hc].
    + unfold handleGameEnd. cbn [fst snd].
      split; [reflexivity|]. left. split; reflexivity.
  - cbn [fst snd gameState playerHand lastWin].
    split; [reflexivity|]. left. split; reflexivity.
Qed.

Lemma blackjack_dealt_21_is_never_paid_3_to_2_witness :
  let c := mount 100 naturalDeck in
  let r := startGame (Some "alice") c (aliceEnv true) in
  let p := [card Spades VA; card Spades VK] in
  isNaturalBlackjack p = true /\
  playerHand (gameState (fst r)) = p /\
  ((log (snd r) = log (aliceEnv true) ++ [rowOf "alice" blackjack 20 false] /\
    lastWin (gameState (fst r)) = None) \/
   (exists win,
       log (snd r)
       = log (aliceEnv true) ++ [rowOf "alice" blackjack 20 false; win] /\
       transaction_type win = game_win /\ token_amount win == 20 /\
       lastWin (gameState (fst r)) = Some (toFixed 2 (20 * 2) - 20))).
Proof.
  cbv zeta.
  apply (blackjack_dealt_21_is_never_paid_3_to_2 "alice" (mount 100 naturalDeck)
           (aliceEnv true) 100 [card Spades VA; card Spades VK]
           [card Diamonds V9; card Clubs VK] [card Hearts V5]).
  - reflexivity.
  - reflexivity.
  - reflexivity.
  - reflexivity.
  - discriminate.
  - discriminate.
  - exists 2000%Z. reflexivity.
  - exists 10000%Z. reflexivity.
  - reflexivity.
  - reflexivity.
Defined.

End BlackjackRoundFacts.

(** ** Plinko, the drop and the settlement *)

Section PlinkoMoreFacts.
Import JS Tokens Real Plinko.

Lemma find_first {A} (f : A -> bool) (l : list A) (x : A) :
  find f l = Some x ->
  exists before after,
    l = before ++ x :: after /\ f x = true /\
    Forall (fun y => f y = false) before.
Proof.
  induction l as [|y l IH]; cbn [find]; [discriminate|].
  destruct (f y) eqn:E.
  - intros [= ->]. exists [], l. repeat split; auto.
  - intros H. destruct (IH H) as (b & a & -> & Hx & Hb).
    exists (y :: b), a. repeat split; auto.
Qed.

(** X23. A draw of [Math.random()] picks the first interval of the tier that
    holds it, and the target is the first bucket that carries the
    multiplier of that interval: one of the buckets 0 to 7, the left half
    of the 17 buckets of the board. *)
Theorem plinko_target_is_in_the_left_half risk random :
  0 <= random -> random < 1 ->
  exists before entry after,
    RISK_DISTRIBUTIONS risk = before ++ entry :: after /\
    Forall (fun e => inRange random e = false) before /\
    inRange random entry = true /\
    (0 <= determineFinalBucket risk random <= 7)%Z /\
    nth (Z.to_nat (determineFinalBucket risk random)) (MULTIPLIERS risk) 0
    = snd entry.
Proof.
  intros Hlo Hhi.
  destruct (determineFinalBucket_left_half risk random Hlo Hhi)
    as (Hr & entry & Hf & Hn).
  destruct (find_first _ _ _ Hf) as (before & after & Hd & He & Hb).
  exists before, entry, after. repeat split; auto; apply Hr.
Qed.

Lemma plinko_target_is_in_the_left_half_witness :
  exists before entry after,
    RISK_DISTRIBUTIONS High = before ++ entry :: after /\
    Forall (fun e => inRange (99 # 100) e = false) before /\
    inRange (99 # 100) entry = true /\
    (0 <= determineFinalBucket High (99 # 100) <= 7)%Z /\
    nth (Z.to_nat (determineFinalBucket High (99 # 100))) (MULTIPLIERS High) 0
    = snd entry.
Proof.
  apply (plinko_target_is_in_the_left_half High (99 # 100)).
  - discriminate.
  - reflexivity.
Defined.

Lemma pathFrom_shape targetX rows (n : nat) : forall row currentX,
  length (pathFrom targetX rows row n currentX) = n /\
  Forall (fun d => d = 0%Z \/ d = 1%Z) (pathFrom targetX rows row n currentX).
Proof.
  induction n as [|n IH]; intros row currentX; cbn [pathFrom].
  - split; [reflexivity | constructor].
  - cbv zeta. cbn [length].
    match goal with
    | |- context [pathFrom targetX rows (S row) n ?x] =>
        destruct (IH (S row) x) as [L F]
    end.
    split; [now rewrite L|].
    constructor; [|exact F]. destruct (_ <? _); auto.
Qed.

(** X24. A drop that is accepted: one [game_spend] row of the bet is written and
    the stored balance is the one before less the bet; the ball starts at
    rest at height 50, within 5 of the middle of the board, with a path of
    one direction (0 or 1) for each row and none of it used. *)
Theorem plinko_drop_takes_the_bet u random c e k before :
  let gs := gameState c in
  let bet := betAmount gs in
  let r := dropBall (Some u) random (c, e, k) in
  balanceOf u e = Some before -> tokenBalance c == before ->
  cents before -> cents bet -> 0 < bet -> bet <= before ->
  isDropping gs = false ->
  0 <= random (S k) -> random (S k) < 1 ->
  (exists row,
      log (snd (fst r)) = log e ++ [row] /\
      transaction_type row = game_spend /\ token_amount row == bet) /\
  (exists after, balanceOf u (snd (fst r)) = Some after /\
                 after == before - bet) /\
  tokenBalance (fst (fst r)) == before - bet /\
  isDropping (gameState (fst (fst r))) = true /\
  snd r = S (S k) /\
  exists ball,
    currentBall (fst (fst r)) = Some ball /\
    y ball = 50 /\ CANVAS_WIDTH / 2 - 5 <= x ball /\
    x ball <= CANVAS_WIDTH / 2 + 5 /\
    vx (velocity ball) = 0 /\ vy (velocity ball) = 0 /\
    active ball = true /\ pathIndex ball = 0%nat /\
    length (path ball) = rows gs /\
    Forall (fun d => d = 0%Z \/ d = 1%Z) (path ball).
Proof.
  intros gs bet r Hb Htb Hcb Hc Hpos Hle Hd R0 R1.
  unfold r, dropBall. cbn [fst snd]. fold gs. fold bet.
  assert (G1 : (bet <=? 0) = false) by now apply leb_gt.
  assert (G2 : (bet >? tokenBalance c) = false) by (apply gtb_le; lra).
  rewrite G1, G2, Hd.
  rewrite (recordGameTransaction_resolved u plinko bet false e before Hb).
  2:{ intros _. exact Hle. }
  2:{ intros _. split; [reflexivity|]. intros _.
      rewrite (toFixed_cents bet Hc). exact Hle. }
  cbv zeta.
  match goal with
  | |- context [updateTokenBalance u ?v ?env] =>
      rewrite (updateTokenBalance_found u v env
                 (toFixed 2 (Math_max 0 (before - bet))))
  end.
  2:{ unfold balanceOf. cbn. apply lookup_insert_eq. }
  cbn [fst snd tokenBalance gameState currentBall isDropping].
  assert (Htb1 : toFixed 2 (tokenBalance c - bet) == before - bet).
  { rewrite <- Htb. apply toFixed_cents. apply cents_minus; [|exact Hc].
    now rewrite Htb. }
  split.
  { exists (rowOf u plinko bet false). unfold log. cbn.
    repeat split; auto. now apply toFixed_cents. }
  split.
  { eexists. split; [unfold balanceOf; cbn; apply lookup_insert_eq|].
    rewrite <- Htb1. apply stored_of_cents; [apply cents_toFixed|].
    rewrite Htb1. lra. }
  split; [exact Htb1|]. split; [reflexivity|]. split; [reflexivity|].
  eexists. split; [reflexivity|].
  cbn [x y velocity vx vy active path pathIndex].
  split; [reflexivity|].
  assert (M : CANVAS_WIDTH / 2 == 400) by reflexivity.
  assert (K1 : decimal (CANVAS_WIDTH / 2 - 5)).
  { apply (decimal_proper (inject_Z 395)); [|apply decimal_Z].
    rewrite M. reflexivity. }
  assert (K2 : decimal (CANVAS_WIDTH / 2 + 5)).
  { apply (decimal_proper (inject_Z 405)); [|apply decimal_Z].
    rewrite M. reflexivity. }
  split.
  { rewrite <- (kept_decimal _ K1). unfold kept. apply toFixed_mono; lra. }
  split.
  { rewrite <- (kept_decimal _ K2). unfold kept. apply toFixed_mono; lra. }
  split; [reflexivity|]. split; [reflexivity|]. split; [reflexivity|].
  split; [reflexivity|].
  apply pathFrom_shape.
Qed.


Lemma plinko_drop_takes_the_bet_witness :
  let c := configure 20 Low 8 (mount 100) in
  let r := dropBall (Some "alice") alwaysHalf (c, aliceEnv true, 0%nat) in
  (exists row,
      log (snd (fst r)) = log (aliceEnv true) ++ [row] /\
      transaction_type row = game_spend /\
      token_amount row == betAmount (gameState c)) /\
  (exists after, balanceOf "alice" (snd (fst r)) = Some after /\
                 after == 100 - betAmount (gameState c)) /\
  tokenBalance (fst (fst r)) == 100 - betAmount (gameState c) /\
  isDropping (gameState (fst (fst r))) = true /\
  snd r = 2%nat /\
  exists ball,
    currentBall (fst (fst r)) = Some ball /\
    y ball = 50 /\ CANVAS_WIDTH / 2 - 5 <= x ball /\
    x ball <= CANVAS_WIDTH / 2 + 5 /\
    vx (velocity ball) = 0 /\ vy (velocity ball) = 0 /\
    active ball = true /\ pathIndex ball = 0%nat /\
    length (path ball) = rows (gameState c) /\
    Forall (fun d => d = 0%Z \/ d = 1%Z) (path ball).
Proof.
  cbv zeta.
  apply (plinko_drop_takes_the_bet "alice" alwaysHalf
           (configure 20 Low 8 (mount 100)) (aliceEnv true) 0 100).
  - reflexivity.
  - reflexivity.
  - exists 10000%Z. reflexivity.
  - exists 2000%Z. reflexivity.
  - reflexivity.
  - vm_compute. discriminate.
  - reflexivity.
  - discriminate.
  - reflexivity.
Defined.

(** X25. The settlement of a drop writes the displayed balance plus the winnings
    to the store and, when there is a profit, records the profit as a
    [game_win], which adds it to the stored balance once more: a winning
    drop leaves the store one profit above the balance on display.  A drop
    without profit writes no row. *)
Theorem plinko_winning_drop_is_credited_twice u ball c e stored :
  let gs := gameState c in
  let bet := betAmount gs in
  let winnings := toFixed 2 (bet * landingMultiplier (risk gs) ball) in
  let profit := toFixed 2 (winnings - bet) in
  let r := settle (Some u) ball c e in
  balanceOf u e = Some stored ->
  cents (tokenBalance c) -> 0 <= tokenBalance c -> cents bet -> 0 <= bet ->
  0 <= landingMultiplier (risk gs) ball ->
  tokenBalance (fst r) == tokenBalance c + winnings /\
  lastWin (gameState (fst r)) = Some profit /\
  isDropping (gameState (fst r)) = false /\
  currentBall (fst r) = None /\
  (0 < profit ->
   (exists after, balanceOf u (snd r) = Some after /\
                  after == tokenBalance c + winnings + profit) /\
   (exists row, log (snd r) = log e ++ [row] /\
                transaction_type row = game_win /\
                token_amount row == profit)) /\
  (profit <= 0 ->
   (exists after, balanceOf u (snd r) = Some after /\
                  after == tokenBalance c + winnings) /\
   log (snd r) = log e).
Proof.
  intros gs bet winnings profit r Hb Ctb Ptb Cb Pb Pm.
  assert (Hw0 : 0 <= winnings) by (apply toFixed_nonneg; nra).
  assert (Hnb : toFixed 2 (tokenBalance c + winnings)
                == tokenBalance c + winnings).
  { apply toFixed_cents. apply cents_plus; [exact Ctb | apply cents_toFixed]. }
  assert (Hst : toFixed 2 (Math_max 0 (toFixed 2 (tokenBalance c + winnings)))
                == tokenBalance c + winnings).
  { transitivity (toFixed 2 (tokenBalance c + winnings)); [|exact Hnb].
    apply stored_of_cents; [apply cents_toFixed|]. lra. }
  assert (Cp : cents profit) by apply cents_toFixed.
  set (nbs := toFixed 2 (Math_max 0 (toFixed 2 (tokenBalance c + winnings)))) in *.
  assert (E : exists e1,
             r = (mkComponent (toFixed 2 (tokenBalance c + winnings))
                    (mkGameState bet (risk gs) (rows gs) false (Some profit))
                    None, e1) /\
             (0 < profit ->
              balanceOf u e1 = Some (toFixed 2 (Math_max 0 (nbs + profit))) /\
              log e1 = log e ++ [rowOf u plinko profit true]) /\
             (profit <= 0 -> balanceOf u e1 = Some nbs /\ log e1 = log e)).
  { unfold r, settle. fold gs. fold bet. fold winnings. fold profit.
    unfold await.
    rewrite (updateTokenBalance_found u _ e stored Hb). fold nbs.
    destruct (profit >? 0) eqn:G.
    - apply gtb_gt in G.
      rewrite (recordGameTransaction_resolved u plinko profit true _ nbs).
      2:{ unfold balanceOf. cbn. apply lookup_insert_eq. }
      2:{ discriminate. }
      2:{ intros _. split; [reflexivity | discriminate]. }
      eexists. split; [reflexivity|]. split.
      + intros _. split; [unfold balanceOf; cbn; apply lookup_insert_eq|].
        reflexivity.
      + intros Hle. lra.
    - apply gtb_le in G. eexists. split; [reflexivity|]. split.
      + intros Hlt. lra.
      + intros _. split; [unfold balanceOf; cbn; apply lookup_insert_eq|].
        reflexivity. }
  destruct E as (e1 & -> & Ewin & Elose).
  cbn [fst snd tokenBalance gameState lastWin isDropping currentBall].
  split; [exact Hnb|]. split; [reflexivity|]. split; [reflexivity|].
  split; [reflexivity|]. split.
  - intros Hp. destruct (Ewin Hp) as [B L]. split.
    + eexists. split; [exact B|].
      transitivity (nbs + profit); [|lra].
      apply stored_of_cents.
      * apply cents_plus; [apply cents_toFixed | exact Cp].
      * lra.
    + exists (rowOf u plinko profit true). split; [exact L|].
      cbn. split; [reflexivity|]. now apply toFixed_cents.
  - intros Hp. destruct (Elose Hp) as [B L]. split; [|exact L].
    eexists. split; [exact B | exact Hst].
Qed.

Lemma plinko_winning_drop_is_credited_twice_witness :
  let c := mkComponent 80 (mkGameState 20 Low 8 true None) None in
  let ball := mkBall 10 380 (mkVelocity 0 0) BALL_RADIUS true [] 0 in
  let e :=
    mkEnv (mkDatabase {["alice" := 80]} [rowOf "alice" plinko 20 false] true)
      None in
  let winnings := toFixed 2 (20 * landingMultiplier Low ball) in
  let profit := toFixed 2 (winnings - 20) in
  let r := settle (Some "alice") ball c e in
  tokenBalance (fst r) == 80 + winnings /\
  lastWin (gameState (fst r)) = Some profit /\
  isDropping (gameState (fst r)) = false /\
  currentBall (fst r) = None /\
  (0 < profit ->
   (exists after, balanceOf "alice" (snd r) = Some after /\
                  after == 80 + winnings + profit) /\
   (exists row, log (snd r) = log e ++ [row] /\
                transaction_type row = game_win /\
                token_amount row == profit)) /\
  (profit <= 0 ->
   (exists after, balanceOf "alice" (snd r) = Some after /\
                  after == 80 + winnings) /\
   log (snd r) = log e).
Proof.
  cbv zeta.
  apply (plinko_winning_drop_is_credited_twice "alice"
           (mkBall 10 380 (mkVelocity 0 0) BALL_RADIUS true [] 0)
           (mkComponent 80 (mkGameState 20 Low 8 true None) None)
           (mkEnv (mkDatabase {["alice" := 80]}
                     [rowOf "alice" plinko 20 false] true) None)
           80).
  - reflexivity.
  - exists 8000%Z. reflexivity.
  - discriminate.
  - exists 2000%Z. reflexivity.
  - discriminate.
  - vm_compute. discriminate.
Defined.

End PlinkoMoreFacts.

(** ** Plinko, the ball on the board *)

Section PlinkoBoardFacts.
Import JS Tokens Real Plinko.

Lemma Math_sqrt_ge_abs dx v :
  decimal dx -> dx * dx <= v -> Qabs dx <= Math_sqrt v.
Proof.
  intros [n Hn] Hv. unfold Math_sqrt.
  change (pow10 (2 * DIGITS)) with (pow10 DIGITS * pow10 DIGITS)%positive.
  set (p := pow10 DIGITS) in *.
  assert (Hf : (Z.abs n * Z.abs n <= Qfloor (v * inject_Z (Zpos (p * p))))%Z).
  { rewrite <- (Qfloor_Z (Z.abs n * Z.abs n)).
    apply Qfloor_resp_le.
    assert (Hs : inject_Z (Z.abs n * Z.abs n)
                 == (n # p) * (n # p) * inject_Z (Zpos (p * p))).
    { unfold Qeq, Qmult, inject_Z. cbn [Qnum Qden].
      rewrite (Pos2Z.inj_mul p p), Z.abs_square. lia. }
    rewrite Hs, <- Hn. apply Qmult_le_compat_r; [assumption | discriminate]. }
  apply Z.sqrt_le_mono in Hf. rewrite Z.sqrt_square in Hf by lia.
  rewrite Hn. set (r := Z.sqrt _) in *.
  unfold Qle, Qabs. cbn [Qnum Qden]. nia.
Qed.

Lemma atan2_cos_bound dy dx :
  decimal dx ->
  Qabs (cosOf (Math_atan2 dy dx)) <= 1 + (1 # 2 * pow10 DIGITS).
Proof.
  intros Hd. unfold Math_atan2. cbv zeta.
  pose proof (square_nonneg dy) as Sy.
  assert (Hge : Qabs dx <= Math_sqrt (dx * dx + dy * dy))
    by (apply Math_sqrt_ge_abs; [assumption | lra]).
  set (d := Math_sqrt _) in *.
  destruct (eqb d 0) eqn:E; cbn [cosOf].
  - apply Qabs_Qle_condition. split; [discriminate | discriminate].
  - assert (Hd0 : 0 < d).
    { pose proof (Qabs_nonneg dx) as A.
      destruct (Qlt_le_dec 0 d) as [P|N]; [exact P|].
      exfalso. assert (Z0 : d == 0) by lra.
      apply Qeq_bool_iff in Z0. unfold eqb in E. congruence. }
    apply Qabs_Qle_condition in Hge.
    set (t := dx / d).
    assert (Ht : t * d == dx) by (unfold t; field; lra).
    assert (B : - (1) <= t /\ t <= 1) by (split; nra).
    pose proof (toFixed_error DIGITS t) as Er.
    apply Qabs_Qle_condition in Er.
    apply Qabs_Qle_condition.
    set (eps := 1 # 2 * pow10 DIGITS) in *.
    split; lra.
Qed.


Lemma denominator_decimal (q : Q) :
  (Zpos (pow10 DIGITS) mod Zpos (Qden q) =? 0)%Z = true -> decimal q.
Proof.
  intros H. apply Z.eqb_eq in H.
  apply Z.mod_divide in H; [|discriminate].
  destruct H as [w Hw]. exists (Qnum q * w)%Z.
  unfold Qeq. cbn [Qnum Qden]. rewrite Hw. ring.
Qed.

(** The pins of a board of at most 16 rows are well inside the canvas. *)
Lemma pinsOf_inside (rows : nat) :
  (rows <= 16)%nat ->
  Forall (fun pin => decimal (fst pin) /\ 15 <= fst pin /\ fst pin <= 785)
         (pinsOf rows).
Proof.
  intros Hr.
  assert (B : forallb
                (fun pin =>
                   (Zpos (pow10 DIGITS) mod Zpos (Qden (fst pin)) =? 0)%Z
                   && (15 <=? fst pin) && (fst pin <=? 785))
                (pinsOf rows) = true).
  { do 17 (destruct rows as [|rows]; [vm_compute; reflexivity|]). lia. }
  apply List.Forall_forall. intros pin Hin.
  rewrite forallb_forall in B. specialize (B pin Hin).
  apply andb_prop in B as [B B3]. apply andb_prop in B as [B1 B2].
  split; [now apply denominator_decimal|].
  split; [now apply leb_le | now apply leb_le].
Qed.

(** The ball on the board: in reach of no side wall. *)
Lemma collide_on_board random s pin :
  decimal (fst pin) -> 15 <= fst pin -> fst pin <= 785 ->
  decimal (x (fst s)) -> 5 <= x (fst s) -> x (fst s) <= 795 ->
  radius (fst s) == BALL_RADIUS ->
  let s' := collide random s pin in
  decimal (x (fst s')) /\ 5 <= x (fst s') /\ x (fst s') <= 795 /\
  radius (fst s') == BALL_RADIUS.
Proof.
  unfold BALL_RADIUS. intros Dp P1 P2 Dx X1 X2 Hr.
  unfold collide. cbv zeta.
  destruct (_ <? _); [|auto].
  cbn [fst x radius]. unfold Math_cos.
  assert (Ddx : decimal (x (fst s) - fst pin)).
  { apply decimal_plus; [assumption | now apply decimal_opp]. }
  pose proof (atan2_cos_bound (y (fst s) - snd pin) _ Ddx) as C.
  apply Qabs_Qle_condition in C.
  set (c := cosOf _) in *.
  pose proof (toFixed_error DIGITS
                (fst pin + (radius (fst s) + PIN_RADIUS + 1) * c)) as Er.
  apply Qabs_Qle_condition in Er. fold (kept (fst pin + (radius (fst s) + PIN_RADIUS + 1) * c)) in Er.
  change (1 # 2 * pow10 DIGITS) with (1 # 2000000000) in *.
  unfold PIN_RADIUS in *.
  set (k := kept _) in *.
  assert (R9 : (radius (fst s) + 3 + 1) * c == 9 * c) by (rewrite Hr; ring).
  split; [apply decimal_kept|].
  split; [lra|]. split; [lra | exact Hr].
Qed.

Lemma fold_collide_on_board random (pins : list (Q * Q)) : forall s,
  Forall (fun pin => decimal (fst pin) /\ 15 <= fst pin /\ fst pin <= 785) pins ->
  decimal (x (fst s)) -> 5 <= x (fst s) -> x (fst s) <= 795 ->
  radius (fst s) == BALL_RADIUS ->
  let s' := fold_left (collide random) pins s in
  decimal (x (fst s')) /\ 5 <= x (fst s') /\ x (fst s') <= 795 /\
  radius (fst s') == BALL_RADIUS.
Proof.
  induction pins as [|pin pins IH]; intros s Hp Dx X1 X2 Hr;
    cbn [fold_left]; [auto|].
  inversion Hp as [|? ? (Dp & P1 & P2) Hrest]; subst.
  destruct (collide_on_board random s pin Dp P1 P2 Dx X1 X2 Hr)
    as (D' & X1' & X2' & R').
  now apply IH.
Qed.

(** X26. The ball never leaves the board sideways.  On a board of at most 16
    rows, whatever the draws and wherever the ball was, a frame leaves the
    ball between the side walls, [BALL_RADIUS] away from each; the bucket
    under it, [floor (x / bucketWidth)], is one of the 17 of the table. *)
Theorem plinko_ball_stays_on_the_board rows random ball k :
  (rows <= 16)%nat -> radius ball == BALL_RADIUS ->
  let moved := fst (moveBall rows random (ball, k)) in
  BALL_RADIUS <= x moved /\ x moved <= CANVAS_WIDTH - BALL_RADIUS /\
  radius moved == BALL_RADIUS /\
  forall risk,
    (0 <= Math_floor
            (x moved
             / (CANVAS_WIDTH / inject_Z (Z.of_nat (length (MULTIPLIERS risk)))))
       <= 16)%Z /\
    landingBucket risk moved
    = Z.to_nat
        (Math_floor
           (x moved
            / (CANVAS_WIDTH / inject_Z (Z.of_nat (length (MULTIPLIERS risk)))))).
Proof.
  intros Hrows Hr moved.
  assert (Hr5 : radius ball == 5) by exact Hr.
  assert (I : decimal (x moved) /\ 5 <= x moved /\ x moved <= 795 /\
              radius moved == BALL_RADIUS).
  { unfold moved, moveBall. cbn [fst snd]. cbv zeta.
    apply fold_collide_on_board; [now apply pinsOf_inside | | | |];
      cbn [fst x radius].
    - apply decimal_kept.
    - assert (E : kept 5 == 5) by reflexivity. rewrite <- E.
      unfold kept. apply toFixed_mono; [discriminate|].
      unfold walls, CANVAS_WIDTH. destruct (_ <? _) eqn:W1; cbn [fst]; [lra|].
      destruct (_ >? _) eqn:W2; cbn [fst]; [lra|].
      apply ltb_ge in W1. lra.
    - assert (E : kept 795 == 795) by reflexivity. rewrite <- E.
      unfold kept. unfold walls, CANVAS_WIDTH.
      destruct (_ <? _) eqn:W1; cbn [fst].
      + apply toFixed_mono; lra.
      + apply ltb_ge in W1. destruct (_ >? _) eqn:W2; cbn [fst].
        * apply toFixed_mono; lra.
        * apply gtb_le in W2. apply toFixed_mono; lra.
    - exact Hr. }
  destruct I as (_ & X1 & X2 & R).
  unfold BALL_RADIUS, CANVAS_WIDTH in *.
  split; [exact X1|]. split; [lra|]. split; [exact R|].
  intros risk.
  assert (L : length (MULTIPLIERS risk) = 17%nat) by now destruct risk.
  assert (F : (0 <= Math_floor (x moved / (800 / inject_Z (Z.of_nat 17))) <= 16)%Z).
  { unfold Math_floor. change (inject_Z (Z.of_nat 17)) with 17.
    set (q := x moved / (800 / 17)).
    assert (Hq : q * 800 == x moved * 17) by (unfold q; field).
    pose proof (Qfloor_le q) as Fle. pose proof (Qlt_floor q) as Flt.
    set (z := Qfloor q) in *.
    rewrite inject_Z_plus in Flt. change (inject_Z 1) with 1 in Flt.
    assert (A : inject_Z (-1) < inject_Z z)
      by (change (inject_Z (-1)) with (- (1)); nra).
    assert (B : inject_Z z < inject_Z 17)
      by (change (inject_Z 17) with 17; nra).
    rewrite <- Zlt_Qlt in A, B. lia. }
  unfold landingBucket, CANVAS_WIDTH. cbv zeta. rewrite L.
  split; [exact F|].
  f_equal. change (Z.of_nat 17 - 1)%Z with 16%Z.
  set (z := Math_floor _) in *. lia.
Qed.

Lemma plinko_ball_stays_on_the_board_witness :
  let ball := mkBall 2 379 (mkVelocity (- (30)) 4) BALL_RADIUS true [] 0 in
  let moved := fst (moveBall 8 alwaysZero (ball, 0%nat)) in
  BALL_RADIUS <= x moved /\ x moved <= CANVAS_WIDTH - BALL_RADIUS /\
  radius moved == BALL_RADIUS /\
  forall risk,
    (0 <= Math_floor
            (x moved
             / (CANVAS_WIDTH / inject_Z (Z.of_nat (length (MULTIPLIERS risk)))))
       <= 16)%Z /\
    landingBucket risk moved
    = Z.to_nat
        (Math_floor
           (x moved
            / (CANVAS_WIDTH / inject_Z (Z.of_nat (length (MULTIPLIERS risk)))))).
Proof.
  cbv zeta.
  apply (plinko_ball_stays_on_the_board 8 alwaysZero
           (mkBall 2 379 (mkVelocity (- (30)) 4) BALL_RADIUS true [] 0) 0).
  - lia.
  - reflexivity.
Defined.

End PlinkoBoardFacts.

(** * Properties of whole rounds *)

(** ** Mines, the multiplier on display *)

Section MinesMultiplierFacts.
Import JS Tokens Mines Board.

(** What a round keeps from its start, and what the multiplier on display
    is: 1 before the first gem, [calculateMultiplier] of the count after
    it. *)
Lemma mines_step_multiplier user ev s :
  let gs := gameState (fst s) in
  let gs' := gameState (fst (step user ev s)) in
  (revealedCount gs = 0%nat -> currentMultiplier gs = 1) ->
  (revealedCount gs <> 0%nat ->
   currentMultiplier gs
   = calculateMultiplier (revealedCount gs) (mineCount gs) (gemCount gs)) ->
  mineCount gs' = mineCount gs /\ gemCount gs' = gemCount gs /\
  (revealedCount gs' = 0%nat -> currentMultiplier gs' = 1) /\
  (revealedCount gs' <> 0%nat ->
   currentMultiplier gs'
   = calculateMultiplier (revealedCount gs') (mineCount gs') (gemCount gs')).
Proof.
  destruct s as [c e]. cbn [fst snd]. intros H0 H1.
  assert (Keep : mineCount (gameState c) = mineCount (gameState c) /\
                 gemCount (gameState c) = gemCount (gameState c) /\
                 (revealedCount (gameState c) = 0%nat ->
                  currentMultiplier (gameState c) = 1) /\
                 (revealedCount (gameState c) <> 0%nat ->
                  currentMultiplier (gameState c)
                  = calculateMultiplier (revealedCount (gameState c))
                      (mineCount (gameState c)) (gemCount (gameState c))))
    by auto.
  destruct ev as [r k|]; cbn [step fst snd].
  - unfold revealTile.
    destruct (negb _ || negb _); [exact Keep|].
    destruct (bool_decide _); [cbn; auto|].
    destruct (negb (bool_decide _)); [cbn; auto|].
    destruct user as [u|]; [|exact Keep].
    destruct (autoMode _ && _).
    + match goal with
      | |- context [payOut u ?b ?w ?p c e] =>
          destruct (payOut u b w p c e) as [[[]|m] [c1 e1]] eqn:Hp;
          pose proof (mines_payOut_state _ _ _ _ _ _ _ _ _ Hp) as Hgs
      end.
      * cbn. rewrite Hgs.
        split; [reflexivity|]. split; [reflexivity|].
        split; [discriminate | reflexivity].
      * cbn [fst]. rewrite Hgs. exact Keep.
    + cbn. split; [reflexivity|]. split; [reflexivity|].
      split; [discriminate | reflexivity].
  - unfold cashout.
    destruct (negb _ || _); [exact Keep|].
    destruct user as [u|]; [|exact Keep].
    match goal with
    | |- context [payOut u ?b ?w ?p c e] =>
        destruct (payOut u b w p c e) as [[[]|m] [c1 e1]] eqn:Hp;
        pose proof (mines_payOut_state _ _ _ _ _ _ _ _ _ Hp) as Hgs
    end.
    + cbn. rewrite Hgs. exact Keep.
    + cbn [fst]. rewrite Hgs. exact Keep.
Qed.

Lemma mines_play_multiplier user evs : forall s,
  let gs := gameState (fst s) in
  let gs' := gameState (fst (play user evs s)) in
  (revealedCount gs = 0%nat -> currentMultiplier gs = 1) ->
  (revealedCount gs <> 0%nat ->
   currentMultiplier gs
   = calculateMultiplier (revealedCount gs) (mineCount gs) (gemCount gs)) ->
  mineCount gs' = mineCount gs /\ gemCount gs' = gemCount gs /\
  (revealedCount gs' = 0%nat -> currentMultiplier gs' = 1) /\
  (revealedCount gs' <> 0%nat ->
   currentMultiplier gs'
   = calculateMultiplier (revealedCount gs') (mineCount gs') (gemCount gs')).
Proof.
  unfold play. induction evs as [|ev evs IH]; intros s; cbn [fold_left];
    cbv zeta; [auto|].
  intros H0 H1.
  destruct (mines_step_multiplier user ev s H0 H1) as (M & G & H0' & H1').
  destruct (IH (step user ev s) H0' H1') as (M' & G' & H0'' & H1'').
  split; [congruence|]. split; [congruence|].
  split; [exact H0'' | exact H1''].
Qed.

(** A round that [startGame] has put in play: nothing revealed, the
    multiplier at 1, the counts within the grid. *)
Lemma mines_startGame_started user placement c e :
  isPlaying (gameState c) = false ->
  let gs := gameState (fst (startGame user placement c e)) in
  isPlaying gs = true ->
  revealedCount gs = 0%nat /\ currentMultiplier gs = 1 /\
  grid gs = hiddenGrid /\
  (mineCount gs + gemCount gs <= 25)%nat.
Proof.
  intros Hc. unfold startGame.
  destruct (_ || _); [cbn [fst]; rewrite Hc; discriminate|].
  destruct (_ <? _)%nat eqn:Hfit; [cbn [fst]; rewrite Hc; discriminate|].
  apply Nat.ltb_ge in Hfit.
  destruct user as [u|]; [|cbn [fst]; rewrite Hc; discriminate].
  destruct (placeBet u c e) as [[[]|m] [c1 e1]] eqn:B.
  - destruct (_ <=? _)%nat.
    + unfold revealAllGems.
      match goal with
      | |- context [payOut u ?b ?w ?p ?c0 e1] =>
          destruct (payOut u b w p c0 e1) as [[[]|m] [c2 e2]] eqn:Hp;
          pose proof (mines_payOut_state _ _ _ _ _ _ _ _ _ Hp) as Hgs
      end.
      * cbn. discriminate.
      * cbn [fst]. rewrite Hgs. cbn. intros _. repeat split. exact Hfit.
    + cbn. intros _. repeat split. exact Hfit.
  - cbn [fst snd]. unfold placeBet in B.
    destruct (_ >? _); [|discriminate].
    destruct (recordGameTransaction _ _ _ _ _) as [[v|m'] e2];
      [discriminate|].
    injection B as _ <- _. rewrite Hc. discriminate.
Qed.




End MinesMultiplierFacts.

(** ** Settlement, with the awaits of the cash-out *)

Section SettlementFacts.
Import JS Tokens Crash CrashAsync.

(** C2 (does not hold of the code).  The guard of [cashout] stops a call
    only when the render that created the handler already shows the round
    as settled, and the round is marked as cashed out only after the three
    awaits of the call; a call made in between settles the round again.
    Two rounds of 20 tokens on a balance of 100 show it.  In the first the
    button is clicked after 30 ticks and once more while the first call
    waits for the ledger, the button still enabled: two [game_win] rows of
    1.49 are written and the store ends at 122.98, the winnings of 21.49
    paid twice.  In the second
    the round has an automatic cash-out at 1.05: the ticks 21, 22 and 23
    each call the [cashout] of the render of the take-off before the first
    call is through, and three [game_win] rows are written for the one
    round. *)
Theorem crash_cashout_settles_a_round_twice :
  let started :=
    startGame (Some "alice") (1 # 2) (Crash.mount 100) (aliceEnv true) in
  let clickedTwice :=
    run (fst started) (Some "alice")
      (repeat Tick 30
       ++ [CashoutClick; Resume 0; CashoutClick; Resume 1;
           Resume 0; Resume 0; Resume 1; Resume 1])
      (begin started) in
  let auto :=
    mkComponent 100
      (mkGameState 1 false false 20 false 2 (105 # 100) None false 0 0) 1 in
  let startedAuto := startGame (Some "alice") (1 # 2) auto (aliceEnv true) in
  let tickedOn :=
    run (fst startedAuto) (Some "alice")
      (repeat Tick 23
       ++ [Resume 0; Resume 0; Resume 0; Resume 1; Resume 1; Resume 1;
           Resume 2; Resume 2; Resume 2])
      (begin startedAuto) in
  let secondClick :=
    run (fst started) (Some "alice")
      (repeat Tick 30 ++ [CashoutClick; Resume 0]) (begin started) in
  (forall snap s, isSettled snap = true -> callCashout snap s = s) /\
  cashoutButton (live secondClick) = true /\
  rows clickedTwice
  = [(game_spend, 2000 # 100); (game_win, 149 # 100); (game_win, 149 # 100)] /\
  balanceOf "alice" (env clickedTwice) = Some (12298 # 100) /\
  tokenBalance (live clickedTwice) = 12298 # 100 /\
  cashedOut (gameState (live clickedTwice)) = true /\
  rows tickedOn
  = [(game_spend, 2000 # 100); (game_win, 0 # 100); (game_win, 0 # 100);
     (game_win, 0 # 100)] /\
  balanceOf "alice" (env tickedOn) = Some (10000 # 100) /\
  cashedOut (gameState (live tickedOn)) = true.
Proof.
  cbv zeta. split.
  { intros snap s H. unfold callCashout. unfold isSettled in H.
    rewrite H. reflexivity. }
  repeat split; vm_compute; reflexivity.
Qed.

End SettlementFacts.

(** ** The round trip of a won round, game by game *)

Section WonRoundFacts.
Import JS Tokens RoundTrip.

(** The store after the bet of a round and after its settlement: the two
    rows of the round, and the balance of the specification. *)
Lemma won_round_store u g bet winnings before e display other cache :
  balanceOf u e = Some before ->
  cents before -> cents bet -> 0 < bet -> bet <= before ->
  0 <= winnings -> cents winnings ->
  display == before - bet ->
  let e2 :=
    mkEnv (mkDatabase
             (<[u := toFixed 2 (Math_max 0 (toFixed 2 (display + winnings)))]>
                (<[u := other]> (profiles (supabase e))))
             ((token_transactions (supabase e) ++ [rowOf u g bet false])
                ++ [rowOf u g (toFixed 2 (winnings - bet)) true])
             (game_triggers (supabase e)))
          cache in
  rowsNet u bet winnings e e2 /\ balanceSettled u bet winnings e e2.
Proof.
  intros Hb Hcb Hc Hpos Hle Hw0 Hcw Hd e2. split.
  - exists (rowOf u g bet false), (rowOf u g (toFixed 2 (winnings - bet)) true).
    split.
    { unfold e2, log. cbn. now rewrite <- app_assoc. }
    cbn. split; [reflexivity|]. split; [now apply toFixed_cents|].
    split; [reflexivity|].
    transitivity (toFixed 2 (winnings - bet)).
    + apply toFixed_cents, cents_toFixed.
    + apply toFixed_cents. now apply cents_minus.
  - exists before. eexists. split; [exact Hb|]. split.
    { unfold e2, balanceOf. cbn. apply lookup_insert_eq. }
    assert (Cd : cents display).
    { rewrite Hd. now apply cents_minus. }
    transitivity (toFixed 2 (display + winnings)).
    + apply stored_of_cents; [apply cents_toFixed|].
      apply toFixed_nonneg. lra.
    + rewrite <- Hd. apply toFixed_cents. now apply cents_plus.
Qed.

(** The bet of a Mines round that is accepted (no migration for the games,
    more mines than the auto-reveal takes). *)
Lemma mines_startGame_accepted u placement c e before :
  let gs := Mines.gameState c in
  let bet := Mines.betAmount gs in
  game_triggers (supabase e) = false ->
  balanceOf u e = Some before -> Mines.tokenBalance c == before ->
  0 < bet -> bet <= before ->
  (Mines.mineCount gs + Mines.gemCount gs <= 25)%nat ->
  (Mines.AUTO_REVEAL_THRESHOLD < Mines.mineCount gs)%nat ->
  Mines.startGame (Some u) placement c e =
    (Mines.mkComponent (toFixed 2 (Mines.tokenBalance c - bet))
       (Mines.mkGameState bet (Mines.mineCount gs) (Mines.gemCount gs)
          Mines.hiddenGrid (fst placement) (snd placement) true 0 1 None
          (Mines.autoMode gs) (Mines.autoStopAt gs)),
     mkEnv (mkDatabase
              (<[u := toFixed 2 (Math_max 0 (before - bet))]>
                 (profiles (supabase e)))
              (token_transactions (supabase e) ++ [rowOf u mines bet false])
              (game_triggers (supabase e)))
           (Some (before - bet))).
Proof.
  intros gs bet Ht Hb Htb Hpos Hle Hsum Hmc.
  unfold Mines.startGame. fold gs. fold bet.
  assert (G1 : (bet <? 0) || (bet >? Mines.tokenBalance c) = false).
  { apply orb_false_iff. split; [apply ltb_ge; lra | apply gtb_le; lra]. }
  rewrite G1.
  assert (G2 : (Mines.GRID_SIZE * Mines.GRID_SIZE
                <? Mines.mineCount gs + Mines.gemCount gs)%nat = false).
  { apply Nat.ltb_ge. exact Hsum. }
  rewrite G2.
  unfold Mines.placeBet. fold gs. fold bet.
  assert (G3 : (bet >? 0) = true) by (apply gtb_gt; exact Hpos).
  rewrite G3.
  rewrite (recordGameTransaction_resolved u mines bet false e before Hb).
  2:{ intros _. exact Hle. }
  2:{ intros T. congruence. }
  cbv zeta.
  assert (G4 : (Mines.mineCount gs <=? Mines.AUTO_REVEAL_THRESHOLD)%nat = false)
    by (apply Nat.leb_gt; exact Hmc).
  rewrite G4. reflexivity.
Qed.

(** The settlement of Mines, when the store takes it. *)
Lemma mines_payOut_won u bet winnings profit c e stored :
  balanceOf u e = Some stored ->
  game_triggers (supabase e) = false -> 0 < bet ->
  let finalBalance := toFixed 2 (Mines.tokenBalance c + winnings) in
  Mines.payOut u bet winnings profit c e =
    (Resolved tt,
     (Mines.withBalance finalBalance c,
      mkEnv (mkDatabase
               (<[u := toFixed 2 (Math_max 0 finalBalance)]>
                  (profiles (supabase e)))
               (token_transactions (supabase e) ++ [rowOf u mines profit true])
               (game_triggers (supabase e)))
            (Some (toFixed 2 (Math_max 0 finalBalance))))).
Proof.
  intros Hb Ht Hpos finalBalance. unfold Mines.payOut.
  assert (G : (bet >? 0) = true) by (apply gtb_gt; exact Hpos).
  rewrite G. fold finalBalance.
  rewrite (settle_resolved u mines profit finalBalance e stored Hb);
    [reflexivity|].
  intros T. congruence.
Qed.

(** A won Mines round: bet placed, cash-out pressed in a later render of
    the same round. *)
Lemma mines_won_round u placement c e before live :
  let gs := Mines.gameState c in
  let bet := Mines.betAmount gs in
  let started := Mines.startGame (Some u) placement c e in
  let winnings :=
    toFixed 2 (bet * Mines.currentMultiplier (Mines.gameState live)) in
  let settled := Mines.cashout (Some u) live (snd started) in
  game_triggers (supabase e) = false ->
  balanceOf u e = Some before -> Mines.tokenBalance c == before ->
  cents before -> cents bet -> 0 < bet -> bet <= before ->
  (Mines.mineCount gs + Mines.gemCount gs <= 25)%nat ->
  (Mines.AUTO_REVEAL_THRESHOLD < Mines.mineCount gs)%nat ->
  sameRound (fst started) live ->
  rowsNet u bet winnings e (snd settled) /\
  balanceSettled u bet winnings e (snd settled).
Proof.
  intros gs bet started winnings settled Ht Hb Htb Hcb Hc Hpos Hle Hsum Hmc
         Hlive.
  pose proof (mines_startGame_accepted u placement c e before
                Ht Hb Htb Hpos Hle Hsum Hmc) as Hstart.
  fold gs in Hstart. fold bet in Hstart. fold started in Hstart.
  destruct Hlive as (Hltb & Hlbet & Hlp & Hlk & Hlm).
  rewrite Hstart in Hltb, Hlbet. cbn in Hltb, Hlbet.
  assert (Hw0 : 0 <= winnings) by (apply toFixed_nonneg; nra).
  assert (Htb1 : toFixed 2 (Mines.tokenBalance c - bet) == before - bet).
  { rewrite <- Htb. apply toFixed_cents. apply cents_minus; [|exact Hc].
    now rewrite Htb. }
  unfold settled, Mines.cashout. rewrite Hlp.
  assert (K : (Mines.revealedCount (Mines.gameState live) =? 0)%nat = false)
    by (apply Nat.eqb_neq; exact Hlk).
  rewrite K. cbn [negb orb]. rewrite Hlbet. fold winnings.
  rewrite Hstart. cbn [snd].
  erewrite mines_payOut_won;
    [| unfold balanceOf; cbn; apply lookup_insert_eq | exact Ht | exact Hpos].
  cbn [snd fst]. rewrite Hltb.
  apply (won_round_store u mines bet winnings before e
           (toFixed 2 (Mines.tokenBalance c - bet)));
    auto using cents_toFixed.
  apply cents_toFixed.
Qed.

(** A won Mines round in auto mode: bet placed, and in a later render of
    the same round a gem is revealed whose multiplier reaches
    [autoStopAt]. *)
Lemma mines_auto_stop_round u placement c e before live row col :
  let gs := Mines.gameState c in
  let bet := Mines.betAmount gs in
  let started := Mines.startGame (Some u) placement c e in
  let lgs := Mines.gameState live in
  let newMultiplier :=
    Mines.calculateMultiplier (S (Mines.revealedCount lgs))
      (Mines.mineCount lgs) (Mines.gemCount lgs) in
  let winnings := toFixed 2 (bet * newMultiplier) in
  let settled := Mines.revealTile (Some u) row col live (snd started) in
  game_triggers (supabase e) = false ->
  balanceOf u e = Some before -> Mines.tokenBalance c == before ->
  cents before -> cents bet -> 0 < bet -> bet <= before ->
  (Mines.mineCount gs + Mines.gemCount gs <= 25)%nat ->
  (Mines.AUTO_REVEAL_THRESHOLD < Mines.mineCount gs)%nat ->
  Mines.tokenBalance live = Mines.tokenBalance (fst started) ->
  Mines.betAmount lgs = bet ->
  Mines.isPlaying lgs = true ->
  Mines.isHidden (Mines.grid lgs) (row, col) = true ->
  (row, col) ∉ Mines.minePositions lgs ->
  (row, col) ∈ Mines.gemPositions lgs ->
  Mines.autoMode lgs = true ->
  0 <= Mines.autoStopAt lgs -> Mines.autoStopAt lgs <= newMultiplier ->
  rowsNet u bet winnings e (snd settled) /\
  balanceSettled u bet winnings e (snd settled).
Proof.
  intros gs bet started lgs newMultiplier winnings settled Ht Hb Htb Hcb Hc
         Hpos Hle Hsum Hmc Hltb Hlbet Hlp Hh Hnm Hgem Hauto Hs0 Hstop.
  pose proof (mines_startGame_accepted u placement c e before
                Ht Hb Htb Hpos Hle Hsum Hmc) as Hstart.
  fold gs in Hstart. fold bet in Hstart. fold started in Hstart.
  rewrite Hstart in Hltb. cbn in Hltb.
  assert (Hw0 : 0 <= winnings) by (apply toFixed_nonneg; nra).
  assert (Htb1 : toFixed 2 (Mines.tokenBalance c - bet) == before - bet).
  { rewrite <- Htb. apply toFixed_cents. apply cents_minus; [|exact Hc].
    now rewrite Htb. }
  unfold settled, Mines.revealTile. fold lgs. rewrite Hlp, Hh.
  cbn [negb orb].
  rewrite (bool_decide_eq_false_2 _ Hnm), (bool_decide_eq_true_2 _ Hgem).
  cbn [negb]. fold newMultiplier. rewrite Hauto.
  assert (G : (newMultiplier >=? Mines.autoStopAt lgs) = true)
    by (apply leb_le; exact Hstop).
  rewrite G. cbn [andb]. rewrite Hlbet. fold winnings.
  rewrite Hstart. cbn [snd].
  erewrite mines_payOut_won;
    [| unfold balanceOf; cbn; apply lookup_insert_eq | exact Ht | exact Hpos].
  cbn [snd fst]. rewrite Hltb.
  apply (won_round_store u mines bet winnings before e
           (toFixed 2 (Mines.tokenBalance c - bet)));
    auto using cents_toFixed.
  apply cents_toFixed.
Qed.

(** A won Blackjack hand: bet placed and cards dealt (the player not dealt
    21), and in a later render of the same hand the player stands, the
    dealer's turn returns and the player wins. *)
Lemma blackjack_won_round u c e before live hand turned :
  let gs := Blackjack.gameState c in
  let bet := Blackjack.betAmount gs in
  let started := Blackjack.startGame (Some u) c e in
  let lgs := Blackjack.gameState live in
  let winnings :=
    toFixed 2 (bet * (if Blackjack.isNaturalBlackjack (Blackjack.playerHand lgs)
                      then 25 # 10 else 2)) in
  let settled := Blackjack.stand (Some u) live (snd started) in
  balanceOf u e = Some before -> Blackjack.tokenBalance c == before ->
  cents before -> cents bet -> 0 < bet -> bet <= before ->
  (forall p h rest,
      Blackjack.dealInitial (Blackjack.deck gs) = Some (p, h, rest) ->
      Blackjack.calculateScore p <> 21%Z) ->
  sameHand (fst started) live ->
  Blackjack.dealerDraws (Blackjack.dealerHand lgs)
    (reverse (Blackjack.deck lgs)) = Some (hand, turned) ->
  Blackjack.playerWinsWith (Blackjack.playerHand lgs) hand = true ->
  rowsNet u bet winnings e (snd settled) /\
  balanceSettled u bet winnings e (snd settled).
Proof.
  intros gs bet started lgs winnings settled Hb Htb Hcb Hc Hpos Hle Hno21
         Hlive Hdraw Hwin.
  subst lgs.
  assert (Hstart :
    snd started =
      mkEnv (mkDatabase
               (<[u := toFixed 2 (Math_max 0 (before - bet))]>
                  (profiles (supabase e)))
               (token_transactions (supabase e) ++ [rowOf u blackjack bet false])
               (game_triggers (supabase e)))
            (Some (before - bet)) /\
    Blackjack.tokenBalance (fst started)
    = toFixed 2 (Blackjack.tokenBalance c - bet) /\
    Blackjack.betAmount (Blackjack.gameState (fst started)) = bet).
  { unfold started, Blackjack.startGame. fold gs. fold bet.
    assert (G1 : (bet <=? 0) || (bet >? Blackjack.tokenBalance c) = false).
    { apply orb_false_iff. split; [apply leb_gt; lra | apply gtb_le; lra]. }
    rewrite G1.
    rewrite (recordGameTransaction_resolved u blackjack bet false e before Hb).
    2:{ intros _. exact Hle. }
    2:{ intros _. split; [reflexivity|]. intros _.
        rewrite (toFixed_cents bet Hc). exact Hle. }
    cbv zeta.
    destruct (Blackjack.dealInitial (Blackjack.deck gs))
      as [[[p h] rest]|] eqn:D; [|repeat split].
    assert (N : (Blackjack.calculateScore p =? 21)%Z = false).
    { apply Z.eqb_neq. exact (Hno21 p h rest eq_refl). }
    rewrite N. repeat split. }
  destruct Hstart as (He1 & Hstb & Hsbet).
  destruct Hlive as (Hltb & Hlbet & Hlp).
  rewrite Hstb in Hltb. rewrite Hsbet in Hlbet.
  assert (Hw0 : 0 <= winnings).
  { apply toFixed_nonneg.
    destruct (Blackjack.isNaturalBlackjack _); nra. }
  assert (Htb1 : toFixed 2 (Blackjack.tokenBalance c - bet) == before - bet).
  { rewrite <- Htb. apply toFixed_cents. apply cents_minus; [|exact Hc].
    now rewrite Htb. }
  unfold settled, Blackjack.stand. rewrite Hlp.
  unfold Blackjack.handleDealerTurn. rewrite Hdraw, Hwin.
  unfold Blackjack.handleGameEnd. rewrite Hlbet, Hltb.
  assert (Ew : (if Blackjack.isNaturalBlackjack
                     (Blackjack.playerHand (Blackjack.gameState live))
                then toFixed 2 (bet * (25 # 10)) else toFixed 2 (bet * 2))
               = winnings).
  { unfold winnings. now destruct (Blackjack.isNaturalBlackjack _). }
  rewrite Ew. rewrite He1.
  match goal with
  | |- context [await ?a ?k ?env] =>
      rewrite (settle_resolved u blackjack (toFixed 2 (winnings - bet))
                 (toFixed 2 (toFixed 2 (Blackjack.tokenBalance c - bet) + winnings))
                 env (toFixed 2 (Math_max 0 (before - bet))))
  end.
  2:{ unfold balanceOf. cbn. apply lookup_insert_eq. }
  2:{ reflexivity. }
  cbn [snd fst].
  apply (won_round_store u blackjack bet winnings before e
           (toFixed 2 (Blackjack.tokenBalance c - bet)));
    auto using cents_toFixed.
  apply cents_toFixed.
Qed.

(** The rows of a winning Plinko drop: the ball dropped, and a settlement
    of the drop for a ball that lands with a profit. *)
Lemma plinko_won_rows u random c e k before ball :
  let gs := Plinko.gameState c in
  let bet := Plinko.betAmount gs in
  let dropped := Plinko.dropBall (Some u) random (c, e, k) in
  let winnings :=
    toFixed 2 (bet * Plinko.landingMultiplier (Plinko.risk gs) ball) in
  let settled :=
    Plinko.settle (Some u) ball (fst (fst dropped)) (snd (fst dropped)) in
  balanceOf u e = Some before -> Plinko.tokenBalance c == before ->
  cents before -> cents bet -> 0 < bet -> bet <= before ->
  Plinko.isDropping gs = false ->
  0 < toFixed 2 (winnings - bet) ->
  rowsNet u bet winnings e (snd settled).
Proof.
  intros gs bet dropped winnings settled Hb Htb Hcb Hc Hpos Hle Hd Hprofit.
  unfold settled, dropped, Plinko.dropBall. cbn [fst snd]. fold gs. fold bet.
  assert (G1 : (bet <=? 0) = false) by (apply leb_gt; exact Hpos).
  assert (G2 : (bet >? Plinko.tokenBalance c) = false) by (apply gtb_le; lra).
  rewrite G1, G2, Hd.
  rewrite (recordGameTransaction_resolved u plinko bet false e before Hb).
  2:{ intros _. exact Hle. }
  2:{ intros _. split; [reflexivity|]. intros _.
      rewrite (toFixed_cents bet Hc). exact Hle. }
  cbv zeta.
  match goal with
  | |- context [updateTokenBalance u ?v ?env] =>
      rewrite (updateTokenBalance_found u v env
                 (toFixed 2 (Math_max 0 (before - bet))))
  end.
  2:{ unfold balanceOf. cbn. apply lookup_insert_eq. }
  cbn [fst snd]. unfold Plinko.settle.
  cbn [Plinko.gameState Plinko.betAmount Plinko.risk Plinko.rows
       Plinko.tokenBalance Plinko.lastWin].
  fold winnings. unfold await.
  match goal with
  | |- context [updateTokenBalance u ?v ?env] =>
      erewrite (updateTokenBalance_found u v env)
        by (unfold balanceOf; cbn; apply lookup_insert_eq)
  end.
  assert (G3 : (toFixed 2 (winnings - bet) >? 0) = true)
    by (apply gtb_gt; exact Hprofit).
  rewrite G3.
  erewrite recordGameTransaction_resolved.
  2:{ unfold balanceOf. cbn. apply lookup_insert_eq. }
  2:{ discriminate. }
  2:{ intros _. split; [reflexivity | discriminate]. }
  cbn [snd].
  exists (rowOf u plinko bet false),
         (rowOf u plinko (toFixed 2 (winnings - bet)) true).
  split.
  { unfold log. cbn. now rewrite <- app_assoc. }
  cbn. split; [reflexivity|]. split; [now apply toFixed_cents|].
  split; [reflexivity|].
  transitivity (toFixed 2 (winnings - bet)).
  - apply toFixed_cents, cents_toFixed.
  - apply toFixed_cents. apply cents_minus; [apply cents_toFixed | exact Hc].
Qed.

(** C4, as the games do it.  A won round appends exactly two rows, a
    [game_spend] of the bet and then a [game_win] of the net profit
    [winnings - bet], in each of the five games: a Dice roll that wins, a
    Crash round cashed out by a click in flight, a Mines round cashed out
    by a click, stopped by auto mode or revealed at once, a Blackjack hand
    won on a stand, and a Plinko drop that lands with a profit.  In Crash,
    Mines and Blackjack the stored balance is then
    [before - bet + winnings].  Bets and balances have two decimals, the
    bet is positive and covered, the displayed balance is the stored one
    when the bet is placed, the settlement belongs to a render of the same
    round, and it runs once. *)
Theorem won_round_trip_net_profit :
  (forall u c e before finalDraw,
      let gs := Dice.gameState c in
      let bet := Dice.betAmount gs in
      let winnings := toFixed 2 (bet * Dice.multiplier gs) in
      balanceOf u e = Some before ->
      0 < bet -> bet <= Dice.tokenBalance c -> bet <= before -> cents bet ->
      Dice.isRolling gs = false ->
      finalDraw * 100 <= Dice.targetNumber gs ->
      rowsNet u bet winnings e (snd (Dice.rollDice (Some u) finalDraw c e))) /\
  (forall u c e before draw live,
      let gs := Crash.gameState c in
      let bet := Crash.betAmount gs in
      let started := Crash.startGame (Some u) draw c e in
      let winnings := toFixed 2 (bet * Crash.multiplier (Crash.gameState live)) in
      let settled := Crash.cashout (Some u) live (snd started) in
      balanceOf u e = Some before -> Crash.tokenBalance c == before ->
      cents before -> cents bet -> 0 < bet -> bet <= before ->
      Crash.isFlying gs = false ->
      sameFlight (fst started) live ->
      rowsNet u bet winnings e (snd settled) /\
      balanceSettled u bet winnings e (snd settled)) /\
  (forall u placement c e before live,
      let gs := Mines.gameState c in
      let bet := Mines.betAmount gs in
      let started := Mines.startGame (Some u) placement c e in
      let winnings :=
        toFixed 2 (bet * Mines.currentMultiplier (Mines.gameState live)) in
      let settled := Mines.cashout (Some u) live (snd started) in
      game_triggers (supabase e) = false ->
      balanceOf u e = Some before -> Mines.tokenBalance c == before ->
      cents before -> cents bet -> 0 < bet -> bet <= before ->
      (Mines.mineCount gs + Mines.gemCount gs <= 25)%nat ->
      (Mines.AUTO_REVEAL_THRESHOLD < Mines.mineCount gs)%nat ->
      sameRound (fst started) live ->
      rowsNet u bet winnings e (snd settled) /\
      balanceSettled u bet winnings e (snd settled)) /\
  (forall u placement c e before live row col,
      let gs := Mines.gameState c in
      let bet := Mines.betAmount gs in
      let started := Mines.startGame (Some u) placement c e in
      let lgs := Mines.gameState live in
      let newMultiplier :=
        Mines.calculateMultiplier (S (Mines.revealedCount lgs))
          (Mines.mineCount lgs) (Mines.gemCount lgs) in
      let winnings := toFixed 2 (bet * newMultiplier) in
      let settled := Mines.revealTile (Some u) row col live (snd started) in
      game_triggers (supabase e) = false ->
      balanceOf u e = Some before -> Mines.tokenBalance c == before ->
      cents before -> cents bet -> 0 < bet -> bet <= before ->
      (Mines.mineCount gs + Mines.gemCount gs <= 25)%nat ->
      (Mines.AUTO_REVEAL_THRESHOLD < Mines.mineCount gs)%nat ->
      Mines.tokenBalance live = Mines.tokenBalance (fst started) ->
      Mines.betAmount lgs = bet ->
      Mines.isPlaying lgs = true ->
      Mines.isHidden (Mines.grid lgs) (row, col) = true ->
      (row, col) ∉ Mines.minePositions lgs ->
      (row, col) ∈ Mines.gemPositions lgs ->
      Mines.autoMode lgs = true ->
      0 <= Mines.autoStopAt lgs -> Mines.autoStopAt lgs <= newMultiplier ->
      rowsNet u bet winnings e (snd settled) /\
      balanceSettled u bet winnings e (snd settled)) /\
  (forall u placement c e before,
      let gs := Mines.gameState c in
      let bet := Mines.betAmount gs in
      let n := size (snd placement) in
      let multiplier :=
        Mines.calculateMultiplier n (Mines.mineCount gs) (Mines.gemCount gs) in
      let winnings := toFixed 2 (bet * multiplier) in
      let settled := Mines.startGame (Some u) placement c e in
      game_triggers (supabase e) = false ->
      balanceOf u e = Some before -> Mines.tokenBalance c == before ->
      cents before -> cents bet -> 0 < bet -> bet <= before ->
      (Mines.mineCount gs <= Mines.AUTO_REVEAL_THRESHOLD)%nat ->
      (Mines.mineCount gs + Mines.gemCount gs <= 25)%nat ->
      (0 < Mines.gemCount gs)%nat -> (n < 25)%nat ->
      (forall p, p ∈ snd placement -> Board.onGrid p) ->
      rowsNet u bet winnings e (snd settled) /\
      balanceSettled u bet winnings e (snd settled)) /\
  (forall u c e before live hand turned,
      let gs := Blackjack.gameState c in
      let bet := Blackjack.betAmount gs in
      let started := Blackjack.startGame (Some u) c e in
      let lgs := Blackjack.gameState live in
      let winnings :=
        toFixed 2
          (bet * (if Blackjack.isNaturalBlackjack (Blackjack.playerHand lgs)
                  then 25 # 10 else 2)) in
      let settled := Blackjack.stand (Some u) live (snd started) in
      balanceOf u e = Some before -> Blackjack.tokenBalance c == before ->
      cents before -> cents bet -> 0 < bet -> bet <= before ->
      (forall p h rest,
          Blackjack.dealInitial (Blackjack.deck gs) = Some (p, h, rest) ->
          Blackjack.calculateScore p <> 21%Z) ->
      sameHand (fst started) live ->
      Blackjack.dealerDraws (Blackjack.dealerHand lgs)
        (reverse (Blackjack.deck lgs)) = Some (hand, turned) ->
      Blackjack.playerWinsWith (Blackjack.playerHand lgs) hand = true ->
      rowsNet u bet winnings e (snd settled) /\
      balanceSettled u bet winnings e (snd settled)) /\
  (forall u random c e k before ball,
      let gs := Plinko.gameState c in
      let bet := Plinko.betAmount gs in
      let dropped := Plinko.dropBall (Some u) random (c, e, k) in
      let winnings :=
        toFixed 2 (bet * Plinko.landingMultiplier (Plinko.risk gs) ball) in
      let settled :=
        Plinko.settle (Some u) ball (fst (fst dropped)) (snd (fst dropped)) in
      balanceOf u e = Some before -> Plinko.tokenBalance c == before ->
      cents before -> cents bet -> 0 < bet -> bet <= before ->
      Plinko.isDropping gs = false ->
      0 < toFixed 2 (winnings - bet) ->
      rowsNet u bet winnings e (snd settled)).
Proof.
  split.
  { intros u c e before finalDraw gs bet winnings Hb H0 H1 H2 H3 H4 H5.
    apply (dice_won_rows u c e before finalDraw); assumption. }
  split.
  { intros u c e before draw live gs bet started winnings settled
           Hb H0 H1 H2 H3 H4 H5 H6.
    destruct (crash_won_round u c e before draw live Hb H0 H1 H2 H3 H4 H5 H6)
      as (Hr & Hs & _).
    split; assumption. }
  split.
  { intros u placement c e before live. apply mines_won_round. }
  split.
  { intros u placement c e before live row col. apply mines_auto_stop_round. }
  split.
  { intros u placement c e before gs bet n multiplier winnings settled
           H1 H2 H3 H4 H5 H6 H7 H8 H9 H10 H11 H12.
    destruct (mines_auto_reveal_round u placement c e before
                H1 H2 H3 H4 H5 H6 H7 H8 H9 H10 H11 H12)
      as (_ & _ & _ & _ & Hr & Hs).
    split; assumption. }
  split.
  { intros u c e before live hand turned. apply blackjack_won_round. }
  intros u random c e k before ball. apply plinko_won_rows.
Qed.

Lemma won_round_trip_net_profit_witness :
  let dice0 := Dice.moveSlider 50 (Dice.mount 100) in
  let crash0 :=
    Crash.startGame (Some "alice") (1 # 2) (Crash.mount 100) (aliceEnv true) in
  let crash1 :=
    fst (Crash.play (fst crash0) (Some "alice")
           [Crash.Tick; Crash.Tick; Crash.Tick] crash0) in
  let mines0 :=
    Mines.startGame (Some "alice") (Mines.sampleMines, Mines.sampleGems)
      (Mines.mount 100) (aliceEnv false) in
  let mines1 := fst (Mines.play (Some "alice") [Mines.Reveal 2 3] mines0) in
  let plinko0 := Plinko.configure 20 Plinko.Low 8 (Plinko.mount 100) in
  let ball :=
    Plinko.mkBall 10 380 (Plinko.mkVelocity 0 0) Plinko.BALL_RADIUS true [] 0 in
  let dropped :=
    Plinko.dropBall (Some "alice") Plinko.alwaysHalf
      (plinko0, aliceEnv true, 0%nat) in
  rowsNet "alice" 20 (toFixed 2 (20 * Dice.multiplier (Dice.gameState dice0)))
    (aliceEnv true)
    (snd (Dice.rollDice (Some "alice") (3 # 10) dice0 (aliceEnv true))) /\
  balanceSettled "alice" 20
    (toFixed 2 (20 * Crash.multiplier (Crash.gameState crash1)))
    (aliceEnv true)
    (snd (Crash.cashout (Some "alice") crash1 (snd crash0))) /\
  balanceSettled "alice" 20
    (toFixed 2 (20 * Mines.currentMultiplier (Mines.gameState mines1)))
    (aliceEnv false)
    (snd (Mines.cashout (Some "alice") mines1 (snd mines0))) /\
  rowsNet "alice" 20
    (toFixed 2 (20 * Plinko.landingMultiplier Plinko.Low ball))
    (aliceEnv true)
    (snd (Plinko.settle (Some "alice") ball (fst (fst dropped))
            (snd (fst dropped)))).
Proof.
  cbv zeta.
  assert (H100 : cents 100) by (exists 10000%Z; reflexivity).
  assert (H20 : cents 20) by (exists 2000%Z; reflexivity).
  destruct won_round_trip_net_profit
    as (Dice & Crash & Mines & _ & _ & _ & Plinko).
  split.
  { apply (Dice "alice" (Dice.moveSlider 50 (Dice.mount 100))
             (aliceEnv true) 100 (3 # 10));
      try reflexivity; try exact H20; vm_compute; discriminate. }
  split.
  { apply (Crash "alice" (Crash.mount 100) (aliceEnv true) 100 (1 # 2));
      try reflexivity; try exact H100; try exact H20.
    - discriminate.
    - repeat split; vm_compute; try reflexivity; discriminate. }
  split.
  { apply (Mines "alice" (Mines.sampleMines, Mines.sampleGems)
             (Mines.mount 100) (aliceEnv false) 100);
      first [ reflexivity | exact H100 | exact H20 | discriminate
            | vm_compute; lia
            | repeat split; vm_compute; first [reflexivity | discriminate] ]. }
  apply (Plinko "alice" Plinko.alwaysHalf
           (Plinko.configure 20 Plinko.Low 8 (Plinko.mount 100))
           (aliceEnv true) 0%nat 100);
    first [ reflexivity | exact H100 | exact H20 | discriminate
          | vm_compute; reflexivity ].
Defined.

End WonRoundFacts.
